(** * pyart.correct.dealias: the front end of the 4DD Doppler dealiasing

    A shallow embedding of [src/pyart/correct/dealias.py]:
    [_create_rsl_volume] and [dealias_fourdd], together with the fragment
    of numpy they use (element types, masked arrays, boolean-mask
    assignment, [np.where], [np.ma.masked_equal]).

    Arrays that belong to a radar object live in a store of Python
    objects, so that copying and in-place assignment can be told apart.
    What the front end calls in [_fourdd_interface], [_common_dealias] and
    [config] is gathered in the record [Collaborators], and every theorem
    holds for all of them; the two functions of [_rsl_interface] follow the
    specification of the volume builder. *)

From Stdlib Require Import ZArith Bool List String Lia.
From Stdlib Require Import Floats.SpecFloat.
From stdpp Require Import gmap strings list fin_maps.

Open Scope string_scope.
Open Scope list_scope.
Open Scope Z_scope.

(* ===================================================================== *)
(** * Floating-point values *)
(* ===================================================================== *)

(** numpy elements are IEEE 754 numbers.  [spec_float] gives them as sign,
    mantissa and exponent, with one NaN and signed infinities and zeros.
    A finite number of a format is kept in that format's canonical form
    (what [binary_round] returns), on which [SFeqb] is the IEEE [==]. *)

Module Float.

Definition is_nan (x : spec_float) : bool :=
  match x with S754_nan => true | _ => false end.


(** Conversion to binary32 and binary64, round to nearest even. *)
Definition to_float32 (x : spec_float) : spec_float :=
  match x with
  | S754_finite s m e => binary_round 24 128 s m e
  | _ => x
  end.

Definition to_float64 (x : spec_float) : spec_float :=
  match x with
  | S754_finite s m e => binary_round 53 1024 s m e
  | _ => x
  end.

(** The Python float literal of an integer: [of_Z (-9999)] is [-9999.0]. *)
Definition of_Z (z : Z) : spec_float := binary_normalize 53 1024 z 0 false.

Definition pos_inf : spec_float := S754_infinity false.

End Float.

(* ===================================================================== *)
(** * The numpy fragment *)
(* ===================================================================== *)

Inductive dtype := float32 | float64.

#[global] Instance dtype_eq_dec : EqDecision dtype.
Proof. solve_decision. Defined.

(** [np.float32(x)], [np.float64(x)]: a scalar brought to an element type. *)
Definition cast (dt : dtype) (x : spec_float) : spec_float :=
  match dt with
  | float32 => Float.to_float32 x
  | float64 => Float.to_float64 x
  end.

(** [np.promote_types] on the two float types. *)
Definition promote_types (a b : dtype) : dtype :=
  match a, b with
  | float32, float32 => float32
  | _, _ => float64
  end.

(** A two-dimensional array (ray x gate), row by row. *)
Record ndarray := NdArray { nd_dtype : dtype; nd_data : list (list spec_float) }.

(** The length of every row: two arrays have the same shape when these agree. *)
Definition shape {A} (rows : list (list A)) : list nat := map length rows.

(** A [np.ma.MaskedArray]: data buffer, mask ([true] = masked), fill value. *)
Record masked_array := MaskedArray {
  ma_data : ndarray;
  ma_mask : list (list bool);
  ma_fill_value : spec_float
}.

(** The objects a field's ['data'] can be: a base-class array or a masked
    array. *)
Inductive array :=
  | Plain (a : ndarray)
  | Masked (m : masked_array).

(** [np.ma.getdata]: the data buffer, whatever the mask says. *)
Definition getdata (o : array) : ndarray :=
  match o with Plain a => a | Masked m => ma_data m end.

(** Python exceptions: class and message. *)
Inductive exn_class :=
  | ValueError | KeyError | IndexError | MissingOptionalDependency
  | ShapeMismatch
  | InternalError.

Record exn := Exn { exn_cls : exn_class; exn_msg : string }.

#[global] Instance exn_class_eq_dec : EqDecision exn_class.
Proof. solve_decision. Defined.

Module Np.

(** [np.isnan(a)] *)
Definition isnan (a : ndarray) : list (list bool) :=
  map (map Float.is_nan) (nd_data a).

(** [a == v] for a Python float [v]: the scalar takes the array's element
    type, the comparison is the IEEE one (NaN equals nothing). *)
Definition equal (a : ndarray) (v : spec_float) : list (list bool) :=
  map (map (fun x => SFeqb x (cast (nd_dtype a) v))) (nd_data a).

(** [np.logical_or(p, q)] on two arrays of one shape. *)
Definition logical_or (p q : list (list bool)) : list (list bool) :=
  zip_with (zip_with orb) p q.

(** [a.astype(dt)] on the data buffer. *)
Definition astype (dt : dtype) (a : ndarray) : ndarray :=
  NdArray dt (map (map (cast dt)) (nd_data a)).

(** [a[m] = v]: boolean-mask assignment of a Python float.  A mask of the
    array's shape selects the gates that take [v].  Of a mask of another
    shape numpy compares with the array's only the axes that are not of
    length 0: when one of them differs it raises IndexError (the message
    goes on to name the axis and the two lengths), and when none does,
    nothing is assigned, the mask having no element.  A mask without a row
    is taken to have no column either. *)
Definition setitem (a : ndarray) (m : list (list bool)) (v : spec_float)
  : exn + ndarray :=
  if decide (shape m = shape (nd_data a)) then
    inr (NdArray (nd_dtype a)
           (zip_with
              (zip_with (fun (b : bool) x => if b then cast (nd_dtype a) v else x))
              m (nd_data a)))
  else if decide (concat m = [] /\ (m = [] \/ length m = length (nd_data a))) then
    inr a
  else
    inl (Exn IndexError "boolean index did not match indexed array").

(** [np.where(c, x, y)]: a new base-class array of the promoted element
    type, taken from [x] where [c] holds and from [y] elsewhere.  Only
    operands of one shape are covered; numpy would also stretch axes of
    length one, here that is the ValueError of operands that cannot be
    broadcast. *)
Definition where_ (c : list (list bool)) (x y : ndarray) : exn + ndarray :=
  let dt := promote_types (nd_dtype x) (nd_dtype y) in
  if decide (shape c = shape (nd_data y) /\ shape (nd_data x) = shape (nd_data y)) then
    inr (NdArray dt
           (zip_with
              (fun (cs : list bool) (xy : list spec_float * list spec_float) =>
                 zip_with
                   (fun (b : bool) (p : spec_float * spec_float) =>
                      cast dt (if b then fst p else snd p))
                   cs (zip (fst xy) (snd xy)))
              c (zip (nd_data x) (nd_data y))))
  else
    inl (Exn ValueError "operands could not be broadcast together").

(** [np.ma.masked_equal(a, v)] on a base-class array: a masked copy whose
    mask is [a == v] and whose fill value is [v] in the element type. *)
Definition masked_equal (a : ndarray) (v : spec_float) : masked_array :=
  MaskedArray a (equal a v) (cast (nd_dtype a) v).

(** [m.filled(v)] of a masked array: masked gates become [v]. *)
Definition filled (m : masked_array) (v : spec_float) : ndarray :=
  let a := ma_data m in
  NdArray (nd_dtype a)
    (zip_with
       (zip_with (fun (b : bool) x => if b then cast (nd_dtype a) v else x))
       (ma_mask m) (nd_data a)).

(** [a - b] on one-dimensional integer arrays, with numpy's broadcasting of
    a length-one operand. *)
Definition subtract (a b : list Z) : exn + list Z :=
  if decide (length a = length b) then inr (zip_with Z.sub a b)
  else
    match a, b with
    | [x], _ => inr (map (fun y => x - y) b)
    | _, [y] => inr (map (fun x => x - y) a)
    | _, _ => inl (Exn ValueError "operands could not be broadcast together")
    end.

(** [astype(np.int32)] of an integer: two's complement wrap-around. *)
Definition int32 (z : Z) : Z := (z + 2 ^ 31) mod 2 ^ 32 - 2 ^ 31.

End Np.

(* ===================================================================== *)
(** * Radar objects and RSL volumes *)
(* ===================================================================== *)

(** What [_label_volume] reads from a radar to label the rays of a volume. *)
Record RayLabels := {
  lab_azimuth : list spec_float;
  lab_elevation : list spec_float;
  lab_nyquist_velocity : list spec_float
}.

(** A [Radar] object.  [fields radar !! name] is the reference held in
    [radar.fields[name]['data']]: the array itself is in the store. *)
Record Radar := {
  fields : gmap string positive;
  sweep_start_ray_index : list Z;
  sweep_end_ray_index : list Z;
  ray_labels : RayLabels
}.

(** An RSL volume: per sweep a (rays x gates) array, and the labels of its
    rays once [_label_volume] has run. *)
Record RslVolume := {
  vol_num : Z;
  sweeps : list (list (list spec_float));
  vol_labels : option RayLabels
}.

(** The rays of a volume in scan order, sweep after sweep. *)
Definition volume_rays (v : RslVolume) : list (list spec_float) :=
  concat (sweeps v).

Definition sum_Z (l : list Z) : Z := foldr Z.add 0 l.

(** The rows of [rows] dealt out to sweeps of [counts] rays each. *)
Fixpoint split_sweeps (rows : list (list spec_float)) (counts : list Z)
  : list (list (list spec_float)) :=
  match counts with
  | [] => []
  | c :: cs =>
      take (Z.to_nat c) rows :: split_sweeps (drop (Z.to_nat c) rows) cs
  end.

Module RslInterface.

(** Modelled from the spec: [_rsl_interface.create_volume(arr,
    rays_per_sweep, vol_num)], a compiled module.  Section 3 stores a
    volume as the sequence of its per-sweep (rays_in_sweep x gates) arrays;
    section 4.1 makes the builder fail with ShapeMismatch when the declared
    rays per sweep do not sum to the total ray count. *)
Definition create_volume (arr : ndarray) (rays_per_sweep : list Z) (vol_num : Z)
  : exn + RslVolume :=
  if decide (sum_Z rays_per_sweep = Z.of_nat (length (nd_data arr))) then
    inr {| vol_num := vol_num;
           sweeps := split_sweeps (nd_data arr) rays_per_sweep;
           vol_labels := None |}
  else
    inl (Exn ShapeMismatch "rays per sweep do not sum to the number of rays").

(** Modelled from the spec: [_rsl_interface._label_volume(volume, radar)],
    a compiled module.  The volume carries the sweep geometry of the scan
    (section 3); the gates are left as they are. *)
Definition _label_volume (v : RslVolume) (radar : Radar) : RslVolume :=
  {| vol_num := vol_num v; sweeps := sweeps v;
     vol_labels := Some (ray_labels radar) |}.

End RslInterface.

(** Values of the keyword arguments handed on to the 4DD engine. *)
Inductive pyval := PyInt (z : Z) | PyFloat (x : spec_float).

(** The [gatefilter] argument: [False] (the default), [None], or a
    [GateFilter] instance. *)
Record GateFilter := { gate_excluded : list (list bool) }.

Inductive gatefilter_arg :=
  | GfFalse
  | GfNone
  | GfInstance (g : GateFilter).

(** What [fourdd_dealias] returns with [debug=True]:
    usuccess, radialVelVolume, lastVelVolume, unfoldedVolume, sondVolume. *)
Record DebugVolumes := {
  usuccess : Z;
  radialVelVolume : RslVolume;
  lastVelVolume : option RslVolume;
  unfoldedVolume : RslVolume;
  sondVolume : option RslVolume
}.

(* ===================================================================== *)
(** * The store, the calls into compiled code, and the monad *)
(* ===================================================================== *)

(** The calls that leave Python, in the order they are made. *)
Inductive event :=
  | CallParseGatefilter
  | CallCreateVolume (arr : ndarray) (rays_per_sweep : list Z) (vol_num : Z)
  | CallLabelVolume
  | CallCreateSoundvolume (reference : RslVolume)
      (hc sc dc : list spec_float) (sign : Z) (max_shear : spec_float)
  | CallFourddDealias (vel : RslVolume) (last sound : option RslVolume)
      (filt : Z) (debug : bool) (kwargs : gmap string pyval).

Record world := World {
  heap : gmap positive array;
  trace : list event
}.

Inductive result (A : Type) :=
  | Ok (a : A)
  | Raise (e : exn).
Arguments Ok {A} a.
Arguments Raise {A} e.

Definition M (A : Type) : Type := world -> result A * world.

Definition ret {A} (a : A) : M A := fun w => (Ok a, w).

Definition raise {A} (e : exn) : M A := fun w => (Raise e, w).

Definition bind {A B} (m : M A) (k : A -> M B) : M B :=
  fun w =>
    match m w with
    | (Ok a, w') => k a w'
    | (Raise e, w') => (Raise e, w')
    end.

Notation "x <- m ;; k" := (bind m (fun x => k))
  (at level 100, m at next level, right associativity).

Definition lift {A} (r : exn + A) : M A :=
  match r with inl e => raise e | inr a => ret a end.

Definition log (e : event) : M unit :=
  fun w => (Ok tt, World (heap w) (trace w ++ [e])).

Definition get_heap : M (gmap positive array) := fun w => (Ok (heap w), w).

(** A new object, at a reference no object has. *)
Definition alloc (o : array) : M positive :=
  fun w =>
    let l := fresh (dom (heap w)) in
    (Ok l, World (<[l := o]> (heap w)) (trace w)).

Definition load (l : positive) : M array :=
  fun w =>
    match heap w !! l with
    | Some o => (Ok o, w)
    | None => (Raise (Exn InternalError "dangling reference"), w)
    end.

Definition store (l : positive) (o : array) : M unit :=
  fun w => (Ok tt, World (<[l := o]> (heap w)) (trace w)).

(** [radar.fields[field_name]['data']] *)
Definition field_data (radar : Radar) (field_name : string) : M positive :=
  match fields radar !! field_name with
  | Some l => ret l
  | None => raise (Exn KeyError field_name)
  end.

(** [np.copy(a)] is [np.array(a, copy=True)]: a new base-class array with
    the data buffer of [a]; of a masked array the mask is not taken along. *)
Definition np_copy (l : positive) : M positive :=
  o <- load l ;;
  alloc (Plain (getdata o)).

(** [a.astype(dt)]: a new array of the class of [a]. *)
Definition astype (l : positive) (dt : dtype) : M positive :=
  o <- load l ;;
  alloc (match o with
         | Plain a => Plain (Np.astype dt a)
         | Masked m =>
             Masked (MaskedArray (Np.astype dt (ma_data m)) (ma_mask m)
                       (ma_fill_value m))
         end).

(** [np.ma.filled(a, v)]: [a.filled(v)], a new array, when [a] is masked;
    [a] itself when it is a base-class array. *)
Definition ma_filled (l : positive) (v : spec_float) : M positive :=
  o <- load l ;;
  match o with
  | Plain _ => ret l
  | Masked m => alloc (Plain (Np.filled m v))
  end.

(** The array behind a reference that holds a base-class array (the
    references below all do: they come from [ma_filled]). *)
Definition base_array (l : positive) : M ndarray :=
  o <- load l ;;
  match o with
  | Plain a => ret a
  | Masked _ => raise (Exn InternalError "masked array where a base array is due")
  end.

(** [a[m] = v], in place. *)
Definition setitem (l : positive) (m : list (list bool)) (v : spec_float) : M unit :=
  a <- base_array l ;;
  a' <- lift (Np.setitem a m v) ;;
  store l (Plain a').

(* ===================================================================== *)
(** * The collaborators of the front end *)
(* ===================================================================== *)

(** The modules [dealias.py] imports and calls: [..config], the gate filter
    parser of [._common_dealias] and the compiled [._fourdd_interface].
    Each call returns or raises; none of them writes to an array of a radar. *)
Record Collaborators := {
  (** [_FOURDD_AVAILABLE]: the compiled modules could be imported *)
  _FOURDD_AVAILABLE : bool;
  (** [get_field_name], [get_fillvalue], [get_metadata] of [..config] *)
  get_field_name : string -> string;
  get_fillvalue : spec_float;
  get_metadata : string -> gmap string string;
  (** [_parse_gatefilter(gatefilter, radar, **kwargs)] *)
  _parse_gatefilter :
    gatefilter_arg -> Radar -> gmap string pyval -> gmap positive array ->
    exn + GateFilter;
  (** [_fourdd_interface.create_soundvolume(vel_volume, hc, sc, dc, sign,
      max_shear)]: the pair (success, sound_volume) *)
  create_soundvolume :
    RslVolume -> list spec_float -> list spec_float -> list spec_float ->
    Z -> spec_float -> exn + (Z * option RslVolume);
  (** [_fourdd_interface.fourdd_dealias(vel_volume, last_vel_volume,
      sound_volume, filt, debug=False, **kwargs)]: the pair (flag, data) *)
  fourdd_dealias :
    RslVolume -> option RslVolume -> option RslVolume -> Z ->
    gmap string pyval -> exn + (Z * ndarray);
  (** the same call with [debug=True] *)
  fourdd_dealias_debug :
    RslVolume -> option RslVolume -> option RslVolume -> Z ->
    gmap string pyval -> exn + DebugVolumes
}.

(** The arguments of [dealias_fourdd]. *)
Record Args := {
  radar : Radar;
  last_radar : option Radar;
  sounding_heights : option (list spec_float);
  sounding_wind_speeds : option (list spec_float);
  sounding_wind_direction : option (list spec_float);
  gatefilter : gatefilter_arg;
  filt : Z;
  rsl_badval : spec_float;
  keep_original : bool;
  vel_field : option string;
  corr_vel_field : option string;
  last_vel_field : option string;
  debug : bool;
  max_shear : spec_float;
  sign : Z;
  kwargs : gmap string pyval
}.

(** The field dictionary [vr_corr]: the metadata of the corrected velocity
    field with the keys ['data'] and ['_FillValue'] set. *)
Record FieldDict := {
  fd_metadata : gmap string string;
  fd_data : masked_array;
  fd_FillValue : spec_float
}.

(** What [dealias_fourdd] returns: the field dictionary, or with
    [debug=True] what [fourdd_dealias] returned. *)
Inductive retval :=
  | RetField (vr_corr : FieldDict)
  | RetDebug (volumes : DebugVolumes).

(** The two messages [dealias_fourdd] raises ValueError with. *)
Definition no_source_error : exn :=
  Exn ValueError "sounding data or last_radar must be provided".

Definition sounding_error : exn :=
  Exn ValueError "Error when loading sounding data".

(** line 247: [is_bad_data], the gates where the engine gave NaN or the bad
    value *)
Definition is_bad_data (data : ndarray) (rsl_badval : spec_float)
  : list (list bool) :=
  Np.logical_or (Np.isnan data) (Np.equal data rsl_badval).

Section FrontEnd.

Variable E : Collaborators.

(** ** [_create_rsl_volume] (lines 262-278) *)

Definition _create_rsl_volume (radar : Radar) (field_name : string)
    (vol_num : Z) (rsl_badval : spec_float)
    (excluded : option (list (list bool))) : M RslVolume :=
  let fill_value := get_fillvalue E in
  src <- field_data radar field_name ;;
  c <- np_copy src ;;
  fdata <- astype c float32 ;;
  fdata <- ma_filled fdata fill_value ;;
  a <- base_array fdata ;;
  let is_bad := Np.logical_or (Np.equal a fill_value) (Np.isnan a) in
  _ <- setitem fdata is_bad rsl_badval ;;
  _ <- match excluded with
       | Some ex => setitem fdata ex rsl_badval
       | None => ret tt
       end ;;
  d <- lift (Np.subtract (sweep_end_ray_index radar)
               (sweep_start_ray_index radar)) ;;
  let rays_per_sweep := map Np.int32 (map (fun x => x + 1) d) in
  a <- base_array fdata ;;
  _ <- log (CallCreateVolume a rays_per_sweep vol_num) ;;
  rsl_volume <- lift (RslInterface.create_volume a rays_per_sweep vol_num) ;;
  _ <- log CallLabelVolume ;;
  ret (RslInterface._label_volume rsl_volume radar).

(** ** [dealias_fourdd] (lines 30-259) *)

(** lines 192-194 *)
Definition sounding_available (a : Args) : bool :=
  bool_decide (sounding_heights a <> None) &&
  bool_decide (sounding_wind_speeds a <> None) &&
  bool_decide (sounding_wind_direction a <> None).

(** lines 198-204: [None] stands for the name in the configuration *)
Definition vel_field_name (a : Args) : string :=
  default (get_field_name E "velocity") (vel_field a).
Definition corr_vel_field_name (a : Args) : string :=
  default (get_field_name E "corrected_velocity") (corr_vel_field a).
Definition last_vel_field_name (a : Args) : string :=
  default (get_field_name E "corrected_velocity") (last_vel_field a).

(** lines 209-221: the gate filter, then the volume of the velocities and
    the volume of the last radar, if there is one *)
Definition dealias_volumes (a : Args) : M (RslVolume * option RslVolume) :=
  h <- get_heap ;;
  _ <- log CallParseGatefilter ;;
  gatefilter <- lift (_parse_gatefilter E (gatefilter a) (radar a) (kwargs a) h) ;;
  let excluded := gate_excluded gatefilter in
  vel_volume <- _create_rsl_volume (radar a) (vel_field_name a) 1
                  (rsl_badval a) (Some excluded) ;;
  last_vel_volume <-
    match last_radar a with
    | Some lr =>
        v <- _create_rsl_volume lr (last_vel_field_name a) 1 (rsl_badval a) None ;;
        ret (Some v)
    | None => ret None
    end ;;
  ret (vel_volume, last_vel_volume).

(** lines 223-235: the volume of the sounding, if it is available *)
Definition dealias_soundvolume (a : Args) (vel_volume : RslVolume)
  : M (option RslVolume) :=
  match sounding_heights a, sounding_wind_speeds a, sounding_wind_direction a with
  | Some heights, Some speeds, Some direction =>
      let hc := map (cast float32) heights in
      let sc := map (cast float32) speeds in
      let dc := map (cast float32) direction in
      _ <- log (CallCreateSoundvolume vel_volume hc sc dc (sign a) (max_shear a)) ;;
      r <- lift (create_soundvolume E vel_volume hc sc dc (sign a) (max_shear a)) ;;
      let success := fst r in
      let sound_volume := snd r in
      if Z.eqb success 0 then raise sounding_error
      else ret sound_volume
  | _, _, _ => ret None
  end.

(** lines 246-259: bad values set, data masked, the field dictionary *)
Definition dealias_output (a : Args) (data : ndarray) : M retval :=
  let fill_value := get_fillvalue E in
  let is_bad := is_bad_data data (rsl_badval a) in
  data <-
    (if keep_original a then
       l <- field_data (radar a) (vel_field_name a) ;;
       vel_array <- load l ;;
       lift (Np.where_ is_bad (getdata vel_array) data)
     else
       lift (Np.setitem data is_bad fill_value)) ;;
  let data := Np.masked_equal data fill_value in
  ret (RetField {| fd_metadata := get_metadata E (corr_vel_field_name a);
                   fd_data := data;
                   fd_FillValue := ma_fill_value data |}).

Definition dealias_fourdd (a : Args) : M retval :=
  if negb (_FOURDD_AVAILABLE E) then
    raise (Exn MissingOptionalDependency
             "Py-ART must be build with support for TRMM RSL to usethe dealias_fourdd function.")
  else if negb (sounding_available a) && bool_decide (last_radar a = None) then
    raise no_source_error
  else
    vols <- dealias_volumes a ;;
    let vel_volume := fst vols in
    let last_vel_volume := snd vols in
    sound_volume <- dealias_soundvolume a vel_volume ;;
    _ <- log (CallFourddDealias vel_volume last_vel_volume sound_volume
                (filt a) (debug a) (kwargs a)) ;;
    if debug a then
      r <- lift (fourdd_dealias_debug E vel_volume last_vel_volume sound_volume
                   (filt a) (kwargs a)) ;;
      ret (RetDebug r)
    else
      r <- lift (fourdd_dealias E vel_volume last_vel_volume sound_volume
                   (filt a) (kwargs a)) ;;
      let data := snd r in
      dealias_output a data.

End FrontEnd.

(* ===================================================================== *)
(** * A stand-in for the compiled modules, to run the front end *)
(* ===================================================================== *)

Module Demo.

Definition fill : spec_float := Float.of_Z (-9999).
Definition badval : spec_float := Float.of_Z 131072.

(** The parameter ranges of the docstring: [ba_mincount] between 1 and 8,
    [ba_edgecount] between 1 and 5. *)
Definition in_range (kw : gmap string pyval) (key : string) (lo hi : Z) : bool :=
  match kw !! key with
  | Some (PyInt n) => (lo <=? n)%Z && (n <=? hi)%Z
  | Some (PyFloat _) => false
  | None => true
  end.

Definition params_ok (kw : gmap string pyval) : bool :=
  in_range kw "ba_mincount" 1 8 && in_range kw "ba_edgecount" 1 5.

Definition range_error : exn := Exn ValueError "parameter out of range".

(** An engine that finds nothing to unfold: it hands back the gates of
    the velocity volume, after it has checked the parameter ranges. *)
Definition engine (vel : RslVolume) (last sound : option RslVolume)
    (filt : Z) (kw : gmap string pyval) : exn + (Z * ndarray) :=
  if params_ok kw then inr (1, NdArray float32 (volume_rays vel))
  else inl range_error.

Definition engine_debug (vel : RslVolume) (last sound : option RslVolume)
    (filt : Z) (kw : gmap string pyval) : exn + DebugVolumes :=
  if params_ok kw then
    inr {| usuccess := 1; radialVelVolume := vel; lastVelVolume := last;
           unfoldedVolume := vel; sondVolume := sound |}
  else inl range_error.

(** A synthesizer that gives up on an empty profile and otherwise returns
    a volume of the reference's shape with no gate covered. *)
Definition soundvolume (reference : RslVolume) (hc sc dc : list spec_float)
    (sign : Z) (max_shear : spec_float) : exn + (Z * option RslVolume) :=
  match hc with
  | [] => inr (0, None)
  | _ :: _ =>
      inr (1, Some {| vol_num := vol_num reference;
                      sweeps := map (map (map (fun _ => cast float32 badval)))
                                  (sweeps reference);
                      vol_labels := vol_labels reference |})
  end.

(** [False] and [None] exclude no gate of the velocity field; an instance
    is taken as it is. *)
Definition parse_gatefilter (g : gatefilter_arg) (radar : Radar)
    (kw : gmap string pyval) (h : gmap positive array) : exn + GateFilter :=
  match g with
  | GfInstance f => inr f
  | _ =>
      match fields radar !! "velocity" ≫= (fun l => h !! l) with
      | Some o =>
          inr {| gate_excluded := map (map (fun _ => false)) (nd_data (getdata o)) |}
      | None => inl (Exn KeyError "velocity")
      end
  end.

Definition collaborators : Collaborators := {|
  _FOURDD_AVAILABLE := true;
  get_field_name := fun key => key;
  get_fillvalue := fill;
  get_metadata := fun name => {[ "long_name" := name ]};
  _parse_gatefilter := parse_gatefilter;
  create_soundvolume := soundvolume;
  fourdd_dealias := engine;
  fourdd_dealias_debug := engine_debug
|}.

Definition labels : RayLabels :=
  {| lab_azimuth := []; lab_elevation := []; lab_nyquist_velocity := [] |}.

(** A scan of one sweep of two rays with three gates. *)
Definition scan (fs : gmap string positive) : Radar :=
  {| fields := fs;
     sweep_start_ray_index := [0];
     sweep_end_ray_index := [1];
     ray_labels := labels |}.

Definition radar1 : Radar := scan {[ "velocity" := 1%positive ]}.

Definition v (z : Z) : spec_float := Float.of_Z z.

Definition velocities : ndarray :=
  NdArray float64 [ [v 3; S754_nan; Float.pos_inf]; [fill; v (-7); v 12] ].

Definition world1 : world :=
  {| heap := {[ 1%positive := Plain velocities ]}; trace := [] |}.

(** A call on [radar1] with the default bad value and field names. *)
Definition call (last : option Radar) (profile : option (list spec_float))
    (gf : gatefilter_arg) (keep : bool) (kw : gmap string pyval) : Args := {|
  radar := radar1;
  last_radar := last;
  sounding_heights := profile;
  sounding_wind_speeds := profile;
  sounding_wind_direction := profile;
  gatefilter := gf;
  filt := 1;
  rsl_badval := badval;
  keep_original := keep;
  vel_field := None;
  corr_vel_field := None;
  last_vel_field := Some "velocity";
  debug := false;
  max_shear := S754_zero false;
  sign := 1;
  kwargs := kw
|}.

(** No sounding and no last radar. *)
Definition args_no_source : Args := call None None GfFalse false ∅.

(** The scan itself as the last radar; the original values are kept. *)
Definition args_keep : Args := call (Some radar1) None GfFalse true ∅.

(** The same, bad gates filled. *)
Definition args_fill : Args := call (Some radar1) None GfFalse false ∅.

(** A sounding without a sample. *)
Definition args_empty_profile : Args := call None (Some []) GfFalse false ∅.

(** [ba_mincount=0], out of its range. *)
Definition args_mincount : Args :=
  call (Some radar1) None GfFalse false {[ "ba_mincount" := PyInt 0 ]}.

(** A gate filter that excludes the last gate of the second ray. *)
Definition filter1 : GateFilter :=
  {| gate_excluded := [ [false; false; false]; [false; false; true] ] |}.

Definition args_filter : Args :=
  call (Some radar1) None (GfInstance filter1) false ∅.

(** The same velocities as a masked array, the first gate masked. *)
Definition masked_velocities : masked_array :=
  MaskedArray velocities
    [ [true; false; false]; [false; false; false] ] fill.

Definition world_masked : world :=
  {| heap := {[ 1%positive := Masked masked_velocities ]}; trace := [] |}.

(** A scan that declares three rays in its sweep and has two. *)
Definition radar_short : Radar :=
  {| fields := {[ "velocity" := 1%positive ]};
     sweep_start_ray_index := [0];
     sweep_end_ray_index := [2];
     ray_labels := labels |}.

End Demo.

(* ===================================================================== *)
(** * What a run amounts to *)
(* ===================================================================== *)

(** The gate [j] of ray [i]. *)
Definition gate {A} (rows : list (list A)) (i j : nat) : option A :=
  rows !! i ≫= (fun r => r !! j).

(** The array [fdata] of [_create_rsl_volume] at the call of
    [create_volume], from the object [o] the field holds. *)
Definition prepared (fill_value rsl_badval : spec_float) (o : array)
    (excluded : option (list (list bool))) : exn + ndarray :=
  let a := Np.astype float32 (getdata o) in
  match Np.setitem a (Np.logical_or (Np.equal a fill_value) (Np.isnan a)) rsl_badval with
  | inl e => inl e
  | inr a1 =>
      match excluded with
      | Some ex => Np.setitem a1 ex rsl_badval
      | None => inr a1
      end
  end.

(** [rays_per_sweep] of [_create_rsl_volume]. *)
Definition rays_per_sweep (radar : Radar) : exn + list Z :=
  match Np.subtract (sweep_end_ray_index radar) (sweep_start_ray_index radar) with
  | inl e => inl e
  | inr d => inr (map Np.int32 (map (fun x => x + 1) d))
  end.

(** Result and calls of [_create_rsl_volume] on a field that holds [o]. *)
Definition volume_outcome (fill_value rsl_badval : spec_float) (o : array)
    (excluded : option (list (list bool))) (radar : Radar) (vol_num : Z)
  : result RslVolume * list event :=
  match prepared fill_value rsl_badval o excluded with
  | inl e => (Raise e, [])
  | inr a =>
      match rays_per_sweep radar with
      | inl e => (Raise e, [])
      | inr rays =>
          match RslInterface.create_volume a rays vol_num with
          | inl e => (Raise e, [CallCreateVolume a rays vol_num])
          | inr v =>
              (Ok (RslInterface._label_volume v radar),
               [CallCreateVolume a rays vol_num; CallLabelVolume])
          end
      end
  end.

(** The field dictionary [dealias_fourdd] makes of the array [d]. *)
Definition field_of (E : Collaborators) (a : Args) (d : ndarray) : retval :=
  RetField {| fd_metadata := get_metadata E (corr_vel_field_name E a);
              fd_data := Np.masked_equal d (get_fillvalue E);
              fd_FillValue := cast (nd_dtype d) (get_fillvalue E) |}.

(** The objects of [w] are in [w'] what they were in [w]. *)
Definition unchanged (w w' : world) : Prop :=
  forall l, l ∈ dom (heap w) -> heap w' !! l = heap w !! l.

(** The value a gate has in the volume: the float32 of the field's value,
    or the bad value when that is the fill value or NaN or the gate is
    excluded. *)
Definition volume_gate (fill_value rsl_badval : spec_float) (ex : bool)
    (x : spec_float) : spec_float :=
  let y := cast float32 x in
  if ex then cast float32 rsl_badval
  else if SFeqb y (cast float32 fill_value) || Float.is_nan y
       then cast float32 rsl_badval
       else y.

(** Whether gate [(i, j)] is excluded; no gate is when there is no mask. *)
Definition excluded_at (excluded : option (list (list bool))) (i j : nat) : bool :=
  match excluded with
  | Some ex => default false (gate ex i j)
  | None => false
  end.

(** A mask for an array: absent, or of the array's shape. *)
Definition mask_fits (excluded : option (list (list bool))) (a : ndarray) : Prop :=
  match excluded with
  | Some ex => shape ex = shape (nd_data a)
  | None => True
  end.

(* ===================================================================== *)
(** * [find_time_in_interp_sonde] (lines 281-320) *)
(* ===================================================================== *)

(** [a.argmin()] of a one-dimensional array: the first index of the least
    element; numpy raises ValueError on an empty array. *)
Fixpoint argmin_from (best_i : nat) (best : Z) (i : nat) (l : list Z) : nat :=
  match l with
  | [] => best_i
  | x :: r =>
      if x <? best then argmin_from i x (S i) r
      else argmin_from best_i best (S i) r
  end.

Definition np_argmin (l : list Z) : exn + nat :=
  match l with
  | [] => inl (Exn ValueError "attempt to get argmin of an empty sequence")
  | x :: r => inr (argmin_from 0 x 1 r)
  end.

(** A variable of an interpsonde file, of one or two dimensions. *)
Inductive sonde_variable :=
  | Sonde1d (values : list spec_float)
  | Sonde2d (rows : list (list spec_float)).

(** The dataset: [interp_sonde.variables]. *)
Record InterpSonde := {
  sonde_variables : gmap string sonde_variable
}.

(** What [debug=True] prints: the target, and the time that was found. *)
Inductive printed :=
  | PrintTarget (target : Z)
  | PrintSounding (time : option Z).

(** [interp_sonde.variables[name]] *)
Definition sonde_variable_named (s : InterpSonde) (name : string)
  : exn + sonde_variable :=
  match sonde_variables s !! name with
  | Some v => inr v
  | None => inl (Exn KeyError name)
  end.

(** [v[idx, :]]: the row [idx] of a two-dimensional variable. *)
Definition sonde_row (v : sonde_variable) (idx : nat) : exn + list spec_float :=
  match v with
  | Sonde2d rows =>
      match rows !! idx with
      | Some r => inr r
      | None => inl (Exn IndexError "index exceeds dimension bounds")
      end
  | Sonde1d _ =>
      inl (Exn ValueError
             "slicing expression exceeds the number of dimensions of the variable")
  end.

Section Sonde.

(** [datetime_utils.datetimes_from_dataset]: the times of the dataset, each
    a date and time counted in microseconds, so that the difference of two
    is their timedelta. *)
Variable datetimes_from_dataset : InterpSonde -> exn + list Z.

(** The result, and before it what was printed. *)
Definition find_time_in_interp_sonde (interp_sonde : InterpSonde) (target : Z)
    (debug : bool)
  : list printed * (exn + (sonde_variable * list spec_float * list spec_float)) :=
  match datetimes_from_dataset interp_sonde with
  | inl e => ([], inl e)
  | inr sonde_datetimes =>
      match np_argmin (map (fun t => Z.abs (t - target)) sonde_datetimes) with
      | inl e => ([], inl e)
      | inr idx =>
          (if debug
           then [PrintTarget target; PrintSounding (sonde_datetimes !! idx)]
           else [],
           match sonde_variable_named interp_sonde "height" with
           | inl e => inl e
           | inr height =>
               match sonde_variable_named interp_sonde "wspd" with
               | inl e => inl e
               | inr wspd =>
                   match sonde_row wspd idx with
                   | inl e => inl e
                   | inr speed =>
                       match sonde_variable_named interp_sonde "wdir" with
                       | inl e => inl e
                       | inr wdir =>
                           match sonde_row wdir idx with
                           | inl e => inl e
                           | inr direction => inr (height, speed, direction)
                           end
                       end
                   end
               end
           end)
      end
  end.

End Sonde.

(* ===================================================================== *)
(** * [pyart.io.grid_io]: values and dictionaries *)
(* ===================================================================== *)

Module GridIO.

(** A string or a number, as an attribute of a netCDF variable or an
    element of an array. *)
Inductive scalar :=
  | SStr (s : string)
  | SFloat (x : spec_float)
  | SInt (z : Z)
  | SBool (b : bool).

(** What a dictionary of a grid holds under a key: a scalar, or an array
    with its shape and its elements in C order. *)
Inductive pyobj :=
  | Scalar (s : scalar)
  | Array (shape : list nat) (elems : list scalar).

#[global] Instance spec_float_eq_dec : EqDecision spec_float.
Proof. solve_decision. Defined.

#[global] Instance scalar_eq_dec : EqDecision scalar.
Proof. solve_decision. Defined.

#[global] Instance pyobj_eq_dec : EqDecision pyobj.
Proof. solve_decision. Defined.

(** The exceptions of this module. *)
Inductive pyexc :=
  | KeyErr (key : pyobj)
  | IndexErr
  | TypeErr
  | AttributeErr
  | ValueErr
  | NameErr (name : string)
  | Other (message : string).

(** [d[key]] *)
Definition getitem (d : gmap string pyobj) (key : string) : pyexc + pyobj :=
  match d !! key with
  | Some v => inr v
  | None => inl (KeyErr (Scalar (SStr key)))
  end.

(** [o[0]]: the first element of a one-dimensional array, the first
    sub-array of an array of more dimensions, the first character of a
    string. *)
Definition getitem0 (o : pyobj) : pyexc + pyobj :=
  match o with
  | Array [] _ => inl IndexErr
  | Array [_] elems =>
      match elems with
      | x :: _ => inr (Scalar x)
      | [] => inl IndexErr
      end
  | Array (n :: rest) elems =>
      match n with
      | O => inl IndexErr
      | S _ => inr (Array rest (take (foldr Nat.mul 1%nat rest) elems))
      end
  | Scalar (SStr s) =>
      match s with
      | String c _ => inr (Scalar (SStr (String c EmptyString)))
      | EmptyString => inl IndexErr
      end
  | Scalar _ => inl TypeErr
  end.

(** Whether a scalar is the string [s]. *)
Definition is_str (x : scalar) (s : string) : bool :=
  match x with
  | SStr t => bool_decide (t = s)
  | _ => false
  end.

(** The truth of [o == s] for a string [s], as [if] and [in] take it.  A
    numpy array is compared element by element, and the truth value of the
    array this gives is the one of its element when it has one; with several
    elements it is ambiguous (ValueError).  Of an array without an element
    it is false (numpy gives a DeprecationWarning there, and the ValueError
    from version 2.2 on). *)
Definition eq_str (o : pyobj) (s : string) : pyexc + bool :=
  match o with
  | Scalar x => inr (is_str x s)
  | Array _ [] => inr false
  | Array _ [x] => inr (is_str x s)
  | Array _ (_ :: _ :: _) => inl ValueErr
  end.

(** [if c: t else: f], where taking the truth of [c] can raise. *)
Definition if_ {A} (c : pyexc + bool) (t f : pyexc + A) : pyexc + A :=
  match c with
  | inl e => inl e
  | inr b => if b then t else f
  end.

(** [o in l] for a list of strings: the first element equal to [o] ends the
    search. *)
Fixpoint in_strs (o : pyobj) (l : list string) : pyexc + bool :=
  match l with
  | [] => inr false
  | s :: rest => if_ (eq_str o s) (inr true) (in_strs o rest)
  end.

Definition str (s : string) : pyobj := Scalar (SStr s).
Definition float (x : spec_float) : pyobj := Scalar (SFloat x).

(** The attributes of a [Grid] object that this module reads. *)
Record Grid := {
  time : gmap string pyobj;
  fields : gmap string (gmap string pyobj);
  metadata : gmap string pyobj;
  origin_latitude : gmap string pyobj;
  origin_longitude : gmap string pyobj;
  origin_altitude : gmap string pyobj;
  x : gmap string pyobj;
  y : gmap string pyobj;
  z : gmap string pyobj;
  projection : gmap string pyobj;
  radar_latitude : option (gmap string pyobj);
  radar_longitude : option (gmap string pyobj);
  radar_altitude : option (gmap string pyobj);
  radar_name : option (gmap string pyobj);
  radar_time : option (gmap string pyobj)
}.

(** ** [_make_coordinatesystem_dict] (lines 315-382) *)

(** lines 328-334 *)
Definition cdm_base (origin_latitude origin_longitude : pyobj) : gmap string pyobj :=
  <["latitude_of_projection_origin" := origin_latitude]>
  (<["longitude_of_projection_origin" := origin_longitude]>
  (<["_CoordinateTransformType" := str "Projection"]>
  (<["_CoordinateAxes" := str "x y z time"]>
  (<["_CoordinateAxesTypes" := str "GeoX GeoY Height Time"]> ∅)))).

(** lines 336-380, on the value of [projection['proj']] *)
Definition cdm_of_proj (proj origin_latitude origin_longitude : pyobj)
  : pyexc + option (gmap string pyobj) :=
  let cdm_transform := cdm_base origin_latitude origin_longitude in
  if_ (eq_str proj "ortho")
    (inr (Some (<["grid_mapping_name" := str "orthographic"]> cdm_transform)))
  (if_ (eq_str proj "laea")
    (inr (Some (<["grid_mapping_name" := str "lambert_azimuthal_equal_area"]>
                  cdm_transform)))
  (if_ (in_strs proj ["aeqd"; "pyart_aeqd"])
    (inr (Some (<["false_northing" := float (S754_zero false)]>
               (<["false_easting" := float (S754_zero false)]>
               (<["longitude_of_prime_meridian" := float (S754_zero false)]>
               (<["inverse_flattening" := float (binary_normalize 53 1024 1193 (-2) false)]>
               (<["semi_major_axis" := float (Float.of_Z 6370997)]>
               (<["grid_mapping_name" := str "azimuthal_equidistant"]>
                  cdm_transform))))))))
  (if_ (eq_str proj "tmerc")
    (inr (Some (<["scale_factor_at_central_meridian" := float (Float.of_Z 1)]>
               (<["longitude_of_central_meridian" := origin_longitude]>
               (<["grid_mapping_name" := str "transverse_mercator"]> cdm_transform)))))
  (if_ (eq_str proj "lcc")
    (inr (Some (<["longitude_of_central_meridian" := origin_longitude]>
               (<["standard_parallel" := origin_latitude]>
               (<["grid_mapping_name" := str "lambert_conformal_conic"]>
                  cdm_transform)))))
  (if_ (eq_str proj "aea")
    (inr (Some (<["longitude_of_central_meridian" := origin_longitude]>
               (<["standard_parallel" := origin_latitude]>
               (<["grid_mapping_name" := str "albers_conical_equal_area"]>
                  cdm_transform)))))
  (if_ (eq_str proj "stere")
    (inr (Some (<["scale_factor_at_projection_origin" := float (Float.of_Z 1)]>
               (<["grid_mapping_name" := str "stereographic"]> cdm_transform))))
  (if_ (in_strs proj ["npstere"; "spstere"])
    (inr (Some (<["standard_parallel" := origin_latitude]>
               (<["grid_mapping_name" := str "polar_stereographic"]> cdm_transform))))
    (inr None)))))))).

(** The values of [projection['proj']] that lines 336-371 test for. *)
Definition known_proj : list string :=
  ["ortho"; "laea"; "aeqd"; "pyart_aeqd"; "tmerc"; "lcc"; "aea"; "stere";
   "npstere"; "spstere"].

Definition _make_coordinatesystem_dict (grid : Grid)
  : pyexc + option (gmap string pyobj) :=
  let projection := projection grid in
  match getitem (origin_latitude grid) "data" with
  | inl e => inl e
  | inr lat_data =>
  match getitem0 lat_data with
  | inl e => inl e
  | inr origin_latitude =>
  match getitem (origin_longitude grid) "data" with
  | inl e => inl e
  | inr lon_data =>
  match getitem0 lon_data with
  | inl e => inl e
  | inr origin_longitude =>
  match getitem projection "proj" with
  | inl e => inl e
  | inr proj => cdm_of_proj proj origin_latitude origin_longitude
  end end end end end.

End GridIO.

(* ===================================================================== *)
(** * [pyart.io.grid_io]: reading grids *)
(* ===================================================================== *)

Module GridRead.
Import GridIO.

(** A netCDF dataset open for reading, with variables of type [V]:
    [dset.ncattrs()] with the value of each attribute, [dset.variables] in
    the order of the file, and the length of each of [dset.dimensions]. *)
Record Dataset (V : Type) := {
  ncattrs : list (string * pyobj);
  variables : list (string * V);
  dimensions : list (string * nat)
}.
Arguments ncattrs {V} _.
Arguments variables {V} _.
Arguments dimensions {V} _.

(** What a call does besides returning: the warnings, and closing the
    dataset. *)
Inductive io_event :=
  | Warn (message : string)
  | Close.

(** A computation that leaves events and returns or raises. *)
Definition R (A : Type) : Type := list io_event * (pyexc + A).

Definition retR {A} (a : A) : R A := ([], inr a).

Definition bindR {A B} (m : R A) (k : A -> R B) : R B :=
  match m with
  | (ev, inl e) => (ev, inl e)
  | (ev, inr a) => let '(ev', r) := k a in (ev ++ ev', r)
  end.

Notation "x <~ m ;; k" := (bindR m (fun x => k))
  (at level 100, m at next level, right associativity).

Definition liftR {A} (r : pyexc + A) : R A := ([], r).

Definition emit (e : io_event) : R unit := ([e], inr tt).

(** [d[key]] on an ordered dictionary. *)
Fixpoint assoc {A} (key : string) (d : list (string * A)) : option A :=
  match d with
  | [] => None
  | (k, v) :: rest => if bool_decide (k = key) then Some v else assoc key rest
  end.

(** [dict(pairs)]: a later pair takes the place of an earlier one. *)
Definition dict_of {A} (pairs : list (string * A)) : gmap string A :=
  foldl (fun m kv => <[fst kv := snd kv]> m) ∅ pairs.

(** [a.shape]; a scalar is taken to have none (AttributeError). *)
Definition shape_of (o : pyobj) : pyexc + list nat :=
  match o with
  | Array sh _ => inr sh
  | Scalar _ => inl AttributeErr
  end.

(** [a.shape = sh] *)
Definition with_shape (o : pyobj) (sh : list nat) : pyobj :=
  match o with
  | Array _ elems => Array sh elems
  | Scalar s => Scalar s
  end.

(** ['Field %s skipped due to incorrect shape' % (field)] *)
Definition skipped (field : string) : string :=
  "Field " +:+ field +:+ " skipped due to incorrect shape".

(** line 54-61 *)
Definition reserved_variables : list string :=
  ["time"; "x"; "y"; "z";
   "origin_latitude"; "origin_longitude"; "origin_altitude";
   "point_x"; "point_y"; "point_z"; "projection";
   "point_latitude"; "point_longitude"; "point_altitude";
   "radar_latitude"; "radar_longitude"; "radar_altitude";
   "radar_name"; "radar_time"; "base_time"; "time_offset";
   "ProjectionCoordinateSystem"].

(** lines 422-424 and 433 *)
Definition axes_keys : list string :=
  ["time"; "time_start"; "time_end"; "base_time";
   "time_offset"; "z_disp"; "y_disp"; "x_disp";
   "alt"; "lat"; "lon"; "z"; "lev"; "y"; "x"].

Definition dim_keys : list string := ["nz"; "ny"; "nx"; "z"; "y"; "x"].

(** lines 81-83: [{'true': True, 'false': False}[v]] *)
Definition flag_of (v : pyobj) : pyexc + bool :=
  match v with
  | Scalar (SStr s) =>
      if bool_decide (s = "true") then inr true
      else if bool_decide (s = "false") then inr false
      else inl (KeyErr v)
  | Scalar _ => inl (KeyErr v)
  | Array _ _ => inl TypeErr
  end.

(** lines 79-83: the projection dictionary of the grid, from the one of the
    variable *)
Definition parse_projection (projection : gmap string pyobj)
  : pyexc + gmap string pyobj :=
  match getitem projection "data" with
  | inl e => inl e
  | inr _ =>
      let projection := delete "data" projection in
      match projection !! "_include_lon_0_lat_0" with
      | Some v =>
          match flag_of v with
          | inl e => inl e
          | inr b => inr (<["_include_lon_0_lat_0" := Scalar (SBool b)]> projection)
          end
      | None => inr projection
      end
  end.

(** What [Grid.from_legacy_parameters] is called with. *)
Record LegacyGrid := {
  legacy_fields : gmap string (gmap string pyobj);
  legacy_axes : gmap string (gmap string pyobj);
  legacy_metadata : gmap string pyobj
}.

Section Reading.

Variable V : Type.

(** [netCDF4.Dataset(filename, mode='r')] *)
Variable open_dataset : string -> pyexc + Dataset V.

(** [cfradial._ncvar_to_dict] *)
Variable _ncvar_to_dict : V -> pyexc + gmap string pyobj.

(** [common._test_arguments]: the warnings it gives for the keyword
    arguments *)
Variable _test_arguments : gmap string pyobj -> pyexc + list string.

(** [Grid(...)] of [..core.grid], which is not among the sources: the object
    it makes of its arguments, or the exception it raises.  The arguments
    are kept in a record of their names. *)
Variable G : Type.
Variable Grid_init : Grid -> pyexc + G.

(** [_ncvar_to_dict(dset.variables[name])] *)
Definition read_variable (dset : Dataset V) (name : string) : R (gmap string pyobj) :=
  match assoc name (variables dset) with
  | None => liftR (inl (KeyErr (str name)))
  | Some v => liftR (_ncvar_to_dict v)
  end.

(** lines 109-132: a variable that need not be there *)
Definition read_optional (dset : Dataset V) (name : string)
  : R (option (gmap string pyobj)) :=
  match assoc name (variables dset) with
  | None => retR None
  | Some v => d <~ liftR (_ncvar_to_dict v) ;; retR (Some d)
  end.

(** lines 78-83 *)
Definition read_projection (dset : Dataset V) : R (gmap string pyobj) :=
  projection <~ read_variable dset "projection" ;;
  liftR (parse_projection projection).

(** [len(dset.dimensions[d])] *)
Definition dimension (dset : Dataset V) (d : string) : R nat :=
  match assoc d (dimensions dset) with
  | Some n => retR n
  | None => liftR (inl (KeyErr (str d)))
  end.

(** lines 97-106: the loop over the field keys *)
Fixpoint read_fields (dset : Dataset V) (exclude_fields : list string)
    (field_shape : list nat) (field_keys : list string)
    (fields : gmap string (gmap string pyobj))
  : R (gmap string (gmap string pyobj)) :=
  match field_keys with
  | [] => retR fields
  | field :: rest =>
      if bool_decide (field ∈ exclude_fields) then
        read_fields dset exclude_fields field_shape rest fields
      else
        field_dic <~ read_variable dset field ;;
        data <~ liftR (getitem field_dic "data") ;;
        sh <~ liftR (shape_of data) ;;
        if decide (sh = 1%nat :: field_shape) then
          read_fields dset exclude_fields field_shape rest
            (<[field := <["data" := with_shape data field_shape]> field_dic]> fields)
        else
          _ <~ emit (Warn (skipped field)) ;;
          read_fields dset exclude_fields field_shape rest fields
  end.

(** lines 133-142: the file is closed, then [Grid] is called. *)
Definition read_grid (filename : string) (exclude_fields : option (list string))
    (kwargs : gmap string pyobj) : R G :=
  warnings <~ liftR (_test_arguments kwargs) ;;
  _ <~ (map Warn warnings, inr tt) ;;
  let exclude_fields := default [] exclude_fields in
  dset <~ liftR (open_dataset filename) ;;
  let metadata := dict_of (ncattrs dset) in
  time <~ read_variable dset "time" ;;
  origin_latitude <~ read_variable dset "origin_latitude" ;;
  origin_longitude <~ read_variable dset "origin_longitude" ;;
  origin_altitude <~ read_variable dset "origin_altitude" ;;
  x <~ read_variable dset "x" ;;
  y <~ read_variable dset "y" ;;
  z <~ read_variable dset "z" ;;
  projection <~ read_projection dset ;;
  nz <~ dimension dset "z" ;;
  ny <~ dimension dset "y" ;;
  nx <~ dimension dset "x" ;;
  let field_shape := [nz; ny; nx] in
  let field_keys :=
    filter (fun k => k ∉ reserved_variables) (map fst (variables dset)) in
  fields <~ read_fields dset exclude_fields field_shape field_keys ∅ ;;
  radar_latitude <~ read_optional dset "radar_latitude" ;;
  radar_longitude <~ read_optional dset "radar_longitude" ;;
  radar_altitude <~ read_optional dset "radar_altitude" ;;
  radar_name <~ read_optional dset "radar_name" ;;
  radar_time <~ read_optional dset "radar_time" ;;
  _ <~ emit Close ;;
  liftR (Grid_init
    {| time := time; fields := fields; metadata := metadata;
       origin_latitude := origin_latitude;
       origin_longitude := origin_longitude;
       origin_altitude := origin_altitude;
       x := x; y := y; z := z; projection := projection;
       radar_latitude := radar_latitude;
       radar_longitude := radar_longitude;
       radar_altitude := radar_altitude;
       radar_name := radar_name; radar_time := radar_time |}).

(** lines 425-426: the axes that are in the file *)
Fixpoint read_axes (dset : Dataset V) (keys : list string)
    (axes : gmap string (gmap string pyobj))
  : R (gmap string (gmap string pyobj)) :=
  match keys with
  | [] => retR axes
  | k :: rest =>
      match assoc k (variables dset) with
      | None => read_axes dset rest axes
      | Some v =>
          d <~ liftR (_ncvar_to_dict v) ;;
          read_axes dset rest (<[k := d]> axes)
      end
  end.

(** lines 444-451: the loop over the field keys; [warn] is no name of the
    module, so that line 451 raises NameError *)
Fixpoint read_legacy_fields (dset : Dataset V) (field_shape : list nat)
    (field_keys : list string) (fields : gmap string (gmap string pyobj))
  : R (gmap string (gmap string pyobj)) :=
  match field_keys with
  | [] => retR fields
  | field :: rest =>
      field_dic <~ read_variable dset field ;;
      data <~ liftR (getitem field_dic "data") ;;
      sh <~ liftR (shape_of data) ;;
      if decide (sh = 1%nat :: field_shape) then
        read_legacy_fields dset field_shape rest
          (<[field := <["data" := with_shape data field_shape]> field_dic]> fields)
      else
        liftR (inl (NameErr "warn"))
  end.

Definition read_legacy_grid (filename : string)
    (exclude_fields : option (list string)) (kwargs : gmap string pyobj)
  : R LegacyGrid :=
  _ <~ emit (Warn "read_legacy_grid is depreciated and will be removed in a future version of Py-ART") ;;
  warnings <~ liftR (_test_arguments kwargs) ;;
  _ <~ (map Warn warnings, inr tt) ;;
  let exclude_fields := default [] exclude_fields in
  ncobj <~ liftR (open_dataset filename) ;;
  let metadata := dict_of (ncattrs ncobj) in
  axes <~ read_axes ncobj axes_keys ∅ ;;
  let field_shape :=
    omap (fun k => assoc k (dimensions ncobj)) dim_keys in
  let field_keys :=
    filter (fun k => (k ∉ axes_keys) /\ (k ∉ exclude_fields))
      (map fst (variables ncobj)) in
  fields <~ read_legacy_fields ncobj field_shape field_keys ∅ ;;
  _ <~ emit Close ;;
  retR {| legacy_fields := fields; legacy_axes := axes;
          legacy_metadata := metadata |}.

End Reading.

(** ** What a read amounts to *)

Section ReadingOutcome.

Variable V : Type.
Variable _ncvar_to_dict : V -> pyexc + gmap string pyobj.

(** The variable [name] of the file has data of shape
    [(1,) + field_shape], and [d] is its dictionary with the data reshaped
    to [field_shape]. *)
Definition taken (dset : Dataset V) (field_shape : list nat)
    (name : string) (d : gmap string pyobj) : Prop :=
  exists v d0 elems,
    assoc name (variables dset) = Some v /\
    _ncvar_to_dict v = inr d0 /\
    d0 !! "data" = Some (Array (1%nat :: field_shape) elems) /\
    d = <["data" := Array field_shape elems]> d0.

(** The variable [name] of the file has data of another shape than
    [(1,) + field_shape]. *)
Definition mis_shaped (dset : Dataset V) (field_shape : list nat)
    (name : string) : Prop :=
  exists v d0 sh elems,
    assoc name (variables dset) = Some v /\
    _ncvar_to_dict v = inr d0 /\
    d0 !! "data" = Some (Array sh elems) /\
    sh <> 1%nat :: field_shape.

(** The variable [name] of the file converts to the dictionary [d]. *)
Definition converts (dset : Dataset V) (name : string)
    (d : gmap string pyobj) : Prop :=
  exists v, assoc name (variables dset) = Some v /\ _ncvar_to_dict v = inr d.

End ReadingOutcome.

End GridRead.

(* ===================================================================== *)
(** * [pyart.io.grid_io]: writing grids *)
(* ===================================================================== *)

Module GridWrite.
Import GridIO GridRead.

(** [['false', 'true'][include]] (line 228): a boolean or an integer, also
    as an array of no dimension, indexes the list, from its end when it is
    negative; anything else is no index. *)
Definition index_false_true (include : pyobj) : pyexc + string :=
  let at_index (n : Z) : pyexc + string :=
    if bool_decide (n = 0 \/ n = -2) then inr "false"
    else if bool_decide (n = 1 \/ n = -1) then inr "true"
    else inl IndexErr in
  match include with
  | Scalar (SBool b) => inr (if b then "true" else "false")
  | Scalar (SInt n) => at_index n
  | Array [] [SInt n] => at_index n
  | _ => inl TypeErr
  end.

(** lines 223-228 of [write_grid]: the dictionary that is written as the
    projection variable, a copy of the projection of the grid with the
    integer 1 for data. *)
Definition written_projection (grid_projection : gmap string pyobj)
  : pyexc + gmap string pyobj :=
  let projection := <["data" := Array [] [SInt 1]]> grid_projection in
  match projection !! "_include_lon_0_lat_0" with
  | Some include =>
      match index_false_true include with
      | inl e => inl e
      | inr s => inr (<["_include_lon_0_lat_0" := str s]> projection)
      end
  | None => inr projection
  end.

(** The number of elements of an array of this shape *)
Definition size_of (sh : list nat) : nat := foldr Nat.mul 1%nat sh.

(** [a.shape = sh]: the array is reshaped in place, and the number of its
    elements has to stay (ValueError). *)
Definition set_shape (o : pyobj) (sh : list nat) : pyexc + pyobj :=
  match o with
  | Array sh0 elems =>
      if decide (size_of sh = size_of sh0) then inr (Array sh elems)
      else inl ValueErr
  | Scalar _ => inl AttributeErr
  end.

(** [field_dic['data'].shape = f(field_dic['data'].shape)] (lines 299 and
    301).  The array is changed in place: the dictionary is given back with
    the array as the assignment leaves it. *)
Definition reshaped (field_dic : gmap string pyobj) (f : list nat -> list nat)
  : pyexc + gmap string pyobj :=
  match getitem field_dic "data" with
  | inl e => inl e
  | inr data =>
      match shape_of data with
      | inl e => inl e
      | inr sh =>
          match set_shape data (f sh) with
          | inl e => inl e
          | inr data => inr (<["data" := data]> field_dic)
          end
      end
  end.

Section Writing.

(** The dataset that is being written *)
Variable D : Type.

(** [_create_ncvar(dic, dset, name, dimensions)], of [cfradial], which is not
    among the sources.  It gets the dictionary and the dataset by reference
    and may write into both: the dataset and the dictionary as the call
    leaves them, and whether it returns or raises. *)
Variable _create_ncvar :
  D -> gmap string pyobj -> string -> list string ->
  D * gmap string pyobj * (pyexc + unit).

(** lines 299-301: one field.  The dictionary of the field is the one of the
    grid, so that it is given back as the three lines leave it, also when one
    of them raises. *)
Definition write_field (dset : D) (field : string)
    (field_dic : gmap string pyobj) : D * gmap string pyobj * (pyexc + unit) :=
  match reshaped field_dic (cons 1%nat) with
  | inl e => (dset, field_dic, inl e)
  | inr field_dic =>
      match _create_ncvar dset field_dic field ["time"; "z"; "y"; "x"] with
      | (dset, field_dic, inl e) => (dset, field_dic, inl e)
      | (dset, field_dic, inr _) =>
          match reshaped field_dic tail with
          | inl e => (dset, field_dic, inl e)
          | inr field_dic => (dset, field_dic, inr tt)
          end
      end
  end.

(** lines 297-301: the loop over [grid.fields.items()].  The dictionaries
    of the fields are taken to be distinct objects with distinct data, as
    [read_grid] makes them. *)
Fixpoint write_fields (dset : D) (items : list (string * gmap string pyobj))
  : D * list (string * gmap string pyobj) * (pyexc + unit) :=
  match items with
  | [] => (dset, [], inr tt)
  | (field, field_dic) :: rest =>
      match write_field dset field field_dic with
      | (dset, field_dic, inl e) => (dset, (field, field_dic) :: rest, inl e)
      | (dset, field_dic, inr _) =>
          let '(dset, rest, r) := write_fields dset rest in
          (dset, (field, field_dic) :: rest, r)
      end
  end.

End Writing.

End GridWrite.

(** ** Variations of a call *)

(** The same collaborators with an engine that reports [flag], whatever it
    did. *)
Definition with_flag (E : Collaborators) (flag : Z) : Collaborators := {|
  _FOURDD_AVAILABLE := _FOURDD_AVAILABLE E;
  get_field_name := get_field_name E;
  get_fillvalue := get_fillvalue E;
  get_metadata := get_metadata E;
  _parse_gatefilter := _parse_gatefilter E;
  create_soundvolume := create_soundvolume E;
  fourdd_dealias := fun vel last sound filt kw =>
    match fourdd_dealias E vel last sound filt kw with
    | inl e => inl e
    | inr (_, data) => inr (flag, data)
    end;
  fourdd_dealias_debug := fourdd_dealias_debug E
|}.

(** The same arguments with other values of [keep_original] and
    [corr_vel_field]. *)
Definition with_output_options (a : Args) (keep : bool) (corr : option string)
  : Args := {|
  radar := radar a;
  last_radar := last_radar a;
  sounding_heights := sounding_heights a;
  sounding_wind_speeds := sounding_wind_speeds a;
  sounding_wind_direction := sounding_wind_direction a;
  gatefilter := gatefilter a;
  filt := filt a;
  rsl_badval := rsl_badval a;
  keep_original := keep;
  vel_field := vel_field a;
  corr_vel_field := corr;
  last_vel_field := last_vel_field a;
  debug := debug a;
  max_shear := max_shear a;
  sign := sign a;
  kwargs := kwargs a
|}.

(* ===================================================================== *)
(** * Sample soundings, grids and files *)
(* ===================================================================== *)

Module Sample.
Import GridIO GridRead GridWrite.

(** An interpolated sounding of three times with two heights; the times 20
    and 30 are equally near to 25. *)
Definition times : list Z := [10; 20; 30].

Definition sonde : InterpSonde :=
  {| sonde_variables :=
       {[ "height" := Sonde1d [Demo.v 0; Demo.v 100];
          "wspd" := Sonde2d [ [Demo.v 1; Demo.v 2]; [Demo.v 3; Demo.v 4];
                              [Demo.v 5; Demo.v 6] ];
          "wdir" := Sonde2d [ [Demo.v 90; Demo.v 95]; [Demo.v 180; Demo.v 185];
                              [Demo.v 270; Demo.v 275] ] ]} |}.

Definition datetimes (s : InterpSonde) : exn + list Z := inr times.

(** A call on the field reflectivity, which [Demo.radar1] has not. *)
Definition args_reflectivity : Args := {|
  radar := Demo.radar1;
  last_radar := Some Demo.radar1;
  sounding_heights := None;
  sounding_wind_speeds := None;
  sounding_wind_direction := None;
  gatefilter := GfFalse;
  filt := 1;
  rsl_badval := Demo.badval;
  keep_original := false;
  vel_field := Some "reflectivity";
  corr_vel_field := None;
  last_vel_field := None;
  debug := false;
  max_shear := S754_zero false;
  sign := 1;
  kwargs := ∅
|}.

(** A call with [debug=True]. *)
Definition args_debug : Args := {|
  radar := Demo.radar1;
  last_radar := Some Demo.radar1;
  sounding_heights := None;
  sounding_wind_speeds := None;
  sounding_wind_direction := None;
  gatefilter := GfFalse;
  filt := 1;
  rsl_badval := Demo.badval;
  keep_original := false;
  vel_field := None;
  corr_vel_field := None;
  last_vel_field := Some "velocity";
  debug := true;
  max_shear := S754_zero false;
  sign := 1;
  kwargs := ∅
|}.

(** The same scan as last radar and a sounding of one sample. *)
Definition args_both : Args :=
  Demo.call (Some Demo.radar1) (Some [Demo.v 1000]) GfFalse false ∅.

(** What an engine may hand back for [Demo.velocities]: the second and the
    third gate of the first ray and the first gate of the second one are
    bad. *)
Definition raw : ndarray :=
  NdArray float32
    [ [Demo.v 3; S754_nan; cast float32 Demo.badval];
      [cast float32 Demo.badval; Demo.v 2; Demo.v 4] ].

(** A variable of one value. *)
Definition one (x : scalar) : gmap string pyobj :=
  {[ "data" := Array [1%nat] [x] ]}.

Definition flat (shape : list nat) (elems : list Z) : pyobj :=
  Array shape (map (fun z => SFloat (Demo.v z)) elems).

(** A grid of one level, one row and two columns around 36 N, 97 W. *)
Definition grid : Grid := {|
  time := <["units" := str "seconds since 2011-05-20T00:00:00Z"]> (one (SFloat (Demo.v 0)));
  fields := {[ "reflectivity" := {[ "data" := flat [1; 1; 2]%nat [10; 20] ]} ]};
  metadata := {[ "source" := str "sample";
                 "Conventions" := str "PyART_GRID-1.1" ]};
  origin_latitude := one (SFloat (Demo.v 36));
  origin_longitude := one (SFloat (Demo.v (-97)));
  origin_altitude := one (SFloat (Demo.v 300));
  x := {[ "data" := flat [2%nat] [0; 500] ]};
  y := {[ "data" := flat [1%nat] [0] ]};
  z := {[ "data" := flat [1%nat] [0] ]};
  projection := {[ "proj" := str "pyart_aeqd";
                   "_include_lon_0_lat_0" := Scalar (SBool true) ]};
  radar_latitude := None;
  radar_longitude := None;
  radar_altitude := None;
  radar_name := Some {[ "data" := Array [1; 4]%nat [SStr "KVNX"] ]};
  radar_time := None
|}.

(** The coordinate transform of this grid. *)
Definition transform : gmap string pyobj :=
  Eval vm_compute in
    match _make_coordinatesystem_dict grid with
    | inr (Some d) => d
    | _ => ∅
    end.

(** The file of this grid, with a profile that has not the shape of a
    field.  A variable is kept as the dictionary [_ncvar_to_dict] makes of
    it. *)
Definition file : Dataset (gmap string pyobj) := {|
  ncattrs := [("source", str "sample"); ("Conventions", str "PyART_GRID-1.1")];
  variables :=
    [("time", time grid);
     ("x", x grid); ("y", y grid); ("z", z grid);
     ("origin_latitude", origin_latitude grid);
     ("origin_longitude", origin_longitude grid);
     ("origin_altitude", origin_altitude grid);
     ("projection", {[ "data" := Array [] [SInt 1];
                       "proj" := str "pyart_aeqd";
                       "_include_lon_0_lat_0" := str "true" ]});
     ("radar_name", {[ "data" := Array [1; 4]%nat [SStr "KVNX"] ]});
     ("reflectivity", {[ "data" := flat [1; 1; 1; 2]%nat [10; 20] ]});
     ("profile", {[ "data" := flat [2%nat] [1; 2] ]})];
  dimensions := [("time", 1%nat); ("z", 1%nat); ("y", 1%nat); ("x", 2%nat)]
|}.

(** A legacy file: axes and one field. *)
Definition legacy_file : Dataset (gmap string pyobj) := {|
  ncattrs := [("source", str "sample")];
  variables :=
    [("time", time grid);
     ("x", x grid); ("y", y grid); ("z", z grid);
     ("lat", origin_latitude grid);
     ("reflectivity", {[ "data" := flat [1; 1; 1; 2]%nat [10; 20] ]})];
  dimensions := [("time", 1%nat); ("nz", 1%nat); ("ny", 1%nat); ("nx", 2%nat)]
|}.

(** What [Grid.from_legacy_parameters] gets from the legacy file. *)
Definition legacy_grid : LegacyGrid := {|
  legacy_fields := {[ "reflectivity" := {[ "data" := flat [1; 1; 2]%nat [10; 20] ]} ]};
  legacy_axes := {[ "time" := time grid; "x" := x grid; "y" := y grid;
                    "z" := z grid; "lat" := origin_latitude grid ]};
  legacy_metadata := {[ "source" := str "sample" ]}
|}.

Definition open_dataset (filename : string)
  : pyexc + Dataset (gmap string pyobj) :=
  if bool_decide (filename = "grid.nc") then inr file
  else if bool_decide (filename = "legacy.nc") then inr legacy_file
  else inl (Other "No such file or directory").

Definition ncvar_to_dict (v : gmap string pyobj) : pyexc + gmap string pyobj :=
  inr v.

(** A [Grid] that keeps its arguments. *)
Definition new_grid (g : Grid) : pyexc + Grid := inr g.

(** No keyword argument is expected: one warning for each. *)
Definition test_arguments (kwargs : gmap string pyobj) : pyexc + list string :=
  inr (map (fun k => "Unexpected arguments: " +:+ k) (map fst (map_to_list kwargs))).

(** A writer that takes no data of more than two values, counts the
    variables it has written and writes the fill value it has used into the
    dictionary. *)
Definition create_ncvar (dset : nat) (dic : gmap string pyobj) (name : string)
    (dims : list string) : nat * gmap string pyobj * (pyexc + unit) :=
  match dic !! "data" with
  | Some (Array _ elems) =>
      if (length elems <=? 2)%nat
      then (S dset, <["_FillValue" := Scalar (SFloat (Demo.v (-9999)))]> dic, inr tt)
      else (dset, dic, inl (Other "too large"))
  | _ => (S dset, dic, inr tt)
  end.

Definition items : list (string * gmap string pyobj) :=
  [("reflectivity", {[ "data" := flat [1; 1; 2]%nat [10; 20] ]});
   ("velocity", {[ "data" := flat [1; 1; 3]%nat [1; 2; 3] ]});
   ("width", {[ "data" := flat [1; 1; 2]%nat [4; 5] ]})].

End Sample.

(* ===================================================================== *)
(** * Facts about floating-point values *)
(* ===================================================================== *)

Section FloatFacts.

Lemma shr_1_nonneg mrs : 0 <= shr_m mrs -> 0 <= shr_m (shr_1 mrs).
Proof.
  destruct mrs as [m r s]. simpl. intros H.
  destruct m as [|p|p]; [simpl; lia | destruct p; simpl; lia | lia].
Qed.

Lemma iter_pos_shr_1_nonneg p : forall mrs,
  0 <= shr_m mrs -> 0 <= shr_m (SpecFloat.iter_pos shr_1 p mrs).
Proof.
  induction p as [p IH|p IH|]; intros mrs H; simpl.
  - apply IH, IH, shr_1_nonneg, H.
  - apply IH, IH, H.
  - apply shr_1_nonneg, H.
Qed.

Lemma shr_fexp_nonneg prec emax m e l :
  0 <= m -> 0 <= shr_m (fst (shr_fexp prec emax m e l)).
Proof.
  intros H. unfold shr_fexp, shr.
  assert (H0 : 0 <= shr_m (shr_record_of_loc m l))
    by (destruct l as [|[]]; simpl; exact H).
  destruct (fexp prec emax (Zdigits2 m + e) - e); simpl; try exact H0.
  apply iter_pos_shr_1_nonneg, H0.
Qed.

Lemma round_nearest_even_nonneg m l : 0 <= m -> 0 <= round_nearest_even m l.
Proof.
  intros H. destruct l as [|[]]; simpl; try lia.
  destruct (Z.even m); lia.
Qed.

Lemma binary_round_aux_not_nan prec emax s m e l :
  0 <= m -> Float.is_nan (binary_round_aux prec emax s m e l) = false.
Proof.
  intros H. unfold binary_round_aux.
  pose proof (shr_fexp_nonneg prec emax m e l H) as H1.
  destruct (shr_fexp prec emax m e l) as [mrs' e']. simpl in H1.
  pose proof (shr_fexp_nonneg prec emax _ e' loc_Exact
                (round_nearest_even_nonneg _ (loc_of_shr_record mrs') H1)) as H2.
  destruct (shr_fexp prec emax (round_nearest_even (shr_m mrs') (loc_of_shr_record mrs')) e' loc_Exact)
    as [mrs'' e'']. simpl in H2.
  destruct (shr_m mrs'') as [|p|p]; [reflexivity | | lia].
  destruct (e'' <=? emax - prec); reflexivity.
Qed.

Lemma binary_round_not_nan prec emax s m e :
  Float.is_nan (binary_round prec emax s m e) = false.
Proof.
  unfold binary_round.
  destruct (shl_align m e (fexp prec emax (Z.pos (digits2_pos m) + e))) as [mz ez].
  apply binary_round_aux_not_nan. lia.
Qed.

Lemma is_nan_cast dt x : Float.is_nan (cast dt x) = Float.is_nan x.
Proof.
  destruct dt, x; simpl; try reflexivity; apply binary_round_not_nan.
Qed.

Lemma SFeqb_true_not_nan x y :
  SFeqb x y = true -> Float.is_nan x = false /\ Float.is_nan y = false.
Proof. destruct x, y; simpl; try discriminate; auto. Qed.

Lemma SFeqb_refl x : Float.is_nan x = false -> SFeqb x x = true.
Proof.
  destruct x as [s|s| |s m e]; simpl; try discriminate; intros _.
  - reflexivity.
  - destruct s; reflexivity.
  - unfold SFeqb, SFcompare. rewrite Z.compare_refl.
    assert (Hm : Pos.compare_cont Eq m m = Eq) by apply Pos.compare_refl.
    rewrite Hm. destruct s; reflexivity.
Qed.

End FloatFacts.

(* ===================================================================== *)
(** * Facts about arrays *)
(* ===================================================================== *)

Section ArrayFacts.

Context {A B C : Type}.

Lemma shape_map (f : A -> B) (rows : list (list A)) :
  shape (map (map f) rows) = shape rows.
Proof.
  unfold shape. induction rows as [|r rows IH]; simpl; [reflexivity|].
  rewrite length_map. f_equal. exact IH.
Qed.

Lemma zip_with_length_eq (f : A -> B -> C) (r : list A) : forall (s : list B),
  length r = length s -> length (zip_with f r s) = length s.
Proof.
  induction r as [|x r IH]; intros [|y s] H; simpl in *; try lia.
  rewrite IH; lia.
Qed.

Lemma shape_zip_with (f : A -> B -> C) (m : list (list A)) :
  forall (d : list (list B)),
  shape m = shape d -> shape (zip_with (zip_with f) m d) = shape d.
Proof.
  unfold shape. induction m as [|r m IH]; intros [|s d] H; simpl in *;
    try discriminate; [reflexivity|].
  injection H as Hr Hm. rewrite zip_with_length_eq by exact Hr.
  f_equal. apply IH, Hm.
Qed.

Lemma gate_map (f : A -> B) (rows : list (list A)) i j :
  gate (map (map f) rows) i j = f <$> gate rows i j.
Proof.
  unfold gate. change (map (map f) rows) with (fmap (M := list) (map f) rows).
  rewrite list_lookup_fmap.
  destruct (rows !! i) as [r|]; simpl; [|reflexivity].
  change (map f r) with (f <$> r). apply list_lookup_fmap.
Qed.

Lemma gate_zip_with (f : A -> B -> C) (m : list (list A)) (d : list (list B)) i j :
  gate (zip_with (zip_with f) m d) i j
  = match gate m i j, gate d i j with
    | Some b, Some x => Some (f b x)
    | _, _ => None
    end.
Proof.
  unfold gate. rewrite lookup_zip_with.
  destruct (m !! i) as [rm|], (d !! i) as [rd|]; simpl; try reflexivity.
  - rewrite lookup_zip_with.
    destruct (rm !! j), (rd !! j); reflexivity.
  - destruct (rm !! j); reflexivity.
Qed.

Lemma gate_same_shape (m : list (list A)) : forall (d : list (list B)) i j x,
  shape m = shape d -> gate d i j = Some x -> is_Some (gate m i j).
Proof.
  unfold shape, gate.
  induction m as [|r m IH]; intros [|s d] i j x H Hx; simpl in *;
    try discriminate.
  injection H as Hr Hm. destruct i as [|i]; simpl in *.
  - apply lookup_lt_is_Some. rewrite Hr. eapply lookup_lt_Some, Hx.
  - eapply IH; eauto.
Qed.

End ArrayFacts.

Lemma shape_is_bad (a : ndarray) v :
  shape (Np.logical_or (Np.equal a v) (Np.isnan a)) = shape (nd_data a).
Proof.
  unfold Np.logical_or, Np.equal, Np.isnan.
  rewrite shape_zip_with; rewrite !shape_map; reflexivity.
Qed.

(** A mask of the array's shape. *)
Lemma setitem_fits_inr a m v a' :
  shape m = shape (nd_data a) ->
  Np.setitem a m v = inr a' ->
  nd_dtype a' = nd_dtype a /\
  shape (nd_data a') = shape (nd_data a) /\
  forall i j x, gate (nd_data a) i j = Some x ->
    exists b, gate m i j = Some b /\
      gate (nd_data a') i j = Some (if b then cast (nd_dtype a) v else x).
Proof.
  intros Hs. unfold Np.setitem. rewrite decide_True by exact Hs.
  intros [= <-]. simpl. split; [reflexivity|].
  split; [apply shape_zip_with, Hs|].
  intros i j x Hx.
  destruct (gate_same_shape m (nd_data a) i j x Hs Hx) as [b Hb].
  exists b. split; [exact Hb|].
  rewrite gate_zip_with, Hb, Hx. reflexivity.
Qed.

Lemma gate_of_empty {A} (m : list (list A)) i j : concat m = [] -> gate m i j = None.
Proof.
  revert i. induction m as [|r rest IH]; intros i Hc; [destruct i; reflexivity|].
  simpl in Hc. apply app_eq_nil in Hc as [-> Hc].
  destruct i as [|i]; [reflexivity|]. apply (IH i Hc).
Qed.

(** Any mask that is taken: a gate takes [v] when the mask has it and marks
    it. *)
Lemma setitem_inr a m v a' :
  Np.setitem a m v = inr a' ->
  nd_dtype a' = nd_dtype a /\
  shape (nd_data a') = shape (nd_data a) /\
  forall i j x, gate (nd_data a) i j = Some x ->
    gate (nd_data a') i j
    = Some (if default false (gate m i j) then cast (nd_dtype a) v else x).
Proof.
  intros H. destruct (decide (shape m = shape (nd_data a))) as [Hs|Hs].
  - destruct (setitem_fits_inr a m v a' Hs H) as (Hd & Hsh & Hg).
    split; [exact Hd|]. split; [exact Hsh|].
    intros i j x Hx. destruct (Hg i j x Hx) as (b & Hb & ->). rewrite Hb. reflexivity.
  - unfold Np.setitem in H. rewrite decide_False in H by exact Hs.
    destruct (decide _) as [[Hc _]|]; [|discriminate].
    injection H as <-. split; [reflexivity|]. split; [reflexivity|].
    intros i j x Hx. rewrite (gate_of_empty m i j Hc). exact Hx.
Qed.

Lemma setitem_fits a m v :
  shape m = shape (nd_data a) -> exists a', Np.setitem a m v = inr a'.
Proof.
  intros H. unfold Np.setitem. rewrite decide_True by exact H. eauto.
Qed.

Lemma gate_is_bad (a : ndarray) v i j :
  gate (Np.logical_or (Np.equal a v) (Np.isnan a)) i j
  = (fun x => SFeqb x (cast (nd_dtype a) v) || Float.is_nan x) <$> gate (nd_data a) i j.
Proof.
  unfold Np.logical_or, Np.equal, Np.isnan.
  rewrite gate_zip_with, !gate_map.
  destruct (gate (nd_data a) i j); reflexivity.
Qed.

Lemma prepared_inr fill bad o excluded a :
  prepared fill bad o excluded = inr a ->
  nd_dtype a = float32 /\
  shape (nd_data a) = shape (nd_data (getdata o)) /\
  forall i j x, gate (nd_data (getdata o)) i j = Some x ->
    gate (nd_data a) i j = Some (volume_gate fill bad (excluded_at excluded i j) x).
Proof.
  unfold prepared.
  set (a0 := Np.astype float32 (getdata o)).
  assert (Hs0 : shape (nd_data a0) = shape (nd_data (getdata o)))
    by apply shape_map.
  assert (Hg0 : forall i j x, gate (nd_data (getdata o)) i j = Some x ->
                 gate (nd_data a0) i j = Some (cast float32 x)).
  { intros i j x Hx. unfold a0, Np.astype. simpl. rewrite gate_map, Hx. reflexivity. }
  destruct (Np.setitem a0 _ bad) as [e|a1] eqn:H1; [discriminate|].
  apply (setitem_fits_inr _ _ _ _ (shape_is_bad _ _)) in H1 as (Hd1 & Hs1 & Hg1).
  assert (Hg1' : forall i j x, gate (nd_data (getdata o)) i j = Some x ->
            gate (nd_data a1) i j = Some (volume_gate fill bad false x)).
  { intros i j x Hx. destruct (Hg1 i j _ (Hg0 i j x Hx)) as (b & Hb & ->).
    rewrite gate_is_bad, (Hg0 i j x Hx) in Hb. simpl in Hb. injection Hb as <-.
    unfold volume_gate. reflexivity. }
  destruct excluded as [ex|].
  - intros H2. apply setitem_inr in H2 as (Hd2 & Hs2 & Hg2).
    split; [rewrite Hd2, Hd1; reflexivity|]. split; [rewrite Hs2, Hs1; exact Hs0|].
    intros i j x Hx. rewrite (Hg2 i j _ (Hg1' i j x Hx)).
    simpl. rewrite Hd1. simpl.
    unfold volume_gate. destruct (default false (gate ex i j)); reflexivity.
  - intros [= <-]. split; [exact Hd1|].
    split; [rewrite Hs1; exact Hs0|].
    intros i j x Hx. apply Hg1', Hx.
Qed.

Lemma prepared_fits fill bad o excluded :
  mask_fits excluded (getdata o) -> exists a, prepared fill bad o excluded = inr a.
Proof.
  intros Hm. unfold prepared.
  destruct (setitem_fits (Np.astype float32 (getdata o))
              (Np.logical_or (Np.equal (Np.astype float32 (getdata o)) fill)
                 (Np.isnan (Np.astype float32 (getdata o)))) bad
              (shape_is_bad _ _)) as [a1 H1].
  rewrite H1. destruct excluded as [ex|]; [|eauto].
  apply setitem_fits. apply setitem_inr in H1 as (_ & Hs1 & _).
  simpl in Hm. rewrite Hs1. unfold Np.astype. simpl. rewrite shape_map. exact Hm.
Qed.

Lemma concat_split_sweeps counts : forall rows,
  concat (split_sweeps rows counts)
  = take (foldr (fun c n => (Z.to_nat c + n)%nat) 0%nat counts) rows.
Proof.
  induction counts as [|c cs IH]; intros rows; simpl.
  - rewrite take_0. reflexivity.
  - rewrite IH. apply take_take_drop.
Qed.

Lemma sum_Z_to_nat counts :
  (Z.to_nat (sum_Z counts) <= foldr (fun c n => (Z.to_nat c + n)%nat) 0%nat counts)%nat.
Proof.
  induction counts as [|c cs IH]; simpl; [lia|].
  unfold sum_Z in *. lia.
Qed.

Lemma create_volume_rays a rays n v :
  RslInterface.create_volume a rays n = inr v -> volume_rays v = nd_data a.
Proof.
  unfold RslInterface.create_volume. destruct (decide _) as [H|]; [|discriminate].
  intros [= <-]. unfold volume_rays. simpl.
  rewrite concat_split_sweeps. apply take_ge.
  pose proof (sum_Z_to_nat rays). lia.
Qed.

(* ===================================================================== *)
(** * Running the monad *)
(* ===================================================================== *)

Section Runs.

Context {A B : Type}.

Lemma bind_ok (m : M A) (k : A -> M B) w a w1 :
  m w = (Ok a, w1) -> bind m k w = k a w1.
Proof. intros H. unfold bind. rewrite H. reflexivity. Qed.

Lemma bind_raise (m : M A) (k : A -> M B) w e w1 :
  m w = (Raise e, w1) -> bind m k w = (Raise e, w1).
Proof. intros H. unfold bind. rewrite H. reflexivity. Qed.

Lemma bind_inv (m : M A) (k : A -> M B) w r w' :
  bind m k w = (r, w') ->
  (exists a w1, m w = (Ok a, w1) /\ k a w1 = (r, w')) \/
  (exists e, m w = (Raise e, w') /\ r = Raise e).
Proof.
  unfold bind. destruct (m w) as [[a|e] w1]; intros H.
  - left. eauto.
  - right. injection H as <- <-. eauto.
Qed.

End Runs.

Lemma unchanged_refl w : unchanged w w.
Proof. intros l _. reflexivity. Qed.

Lemma unchanged_dom w w' : unchanged w w' -> dom (heap w) ⊆ dom (heap w').
Proof.
  intros H l Hl. apply elem_of_dom. rewrite (H l Hl). apply elem_of_dom, Hl.
Qed.

Lemma unchanged_trans w1 w2 w3 :
  unchanged w1 w2 -> unchanged w2 w3 -> unchanged w1 w3.
Proof.
  intros H12 H23 l Hl. rewrite (H23 l), (H12 l Hl); [reflexivity|].
  apply (unchanged_dom _ _ H12), Hl.
Qed.

Lemma unchanged_alloc h t t' o :
  unchanged (World h t) (World (<[fresh (dom h) := o]> h) t').
Proof.
  intros l Hl. simpl in *. apply lookup_insert_ne.
  intros Heq. rewrite <- Heq in Hl. exact (is_fresh (dom h) Hl).
Qed.

Lemma load_ok w l o : heap w !! l = Some o -> load l w = (Ok o, w).
Proof. intros H. unfold load. rewrite H. reflexivity. Qed.

Lemma base_array_ok w l a :
  heap w !! l = Some (Plain a) -> base_array l w = (Ok a, w).
Proof. intros H. unfold base_array. rewrite (bind_ok _ _ _ _ _ (load_ok _ _ _ H)). reflexivity. Qed.

Lemma setitem_ok w l a m v a' :
  heap w !! l = Some (Plain a) -> Np.setitem a m v = inr a' ->
  setitem l m v w = (Ok tt, World (<[l := Plain a']> (heap w)) (trace w)).
Proof.
  intros H Hs. unfold setitem.
  rewrite (bind_ok _ _ _ _ _ (base_array_ok _ _ _ H)). rewrite Hs. reflexivity.
Qed.

Lemma setitem_raise w l a m v e :
  heap w !! l = Some (Plain a) -> Np.setitem a m v = inl e ->
  setitem l m v w = (Raise e, w).
Proof.
  intros H Hs. unfold setitem.
  rewrite (bind_ok _ _ _ _ _ (base_array_ok _ _ _ H)). rewrite Hs. reflexivity.
Qed.

Section VolumeRuns.

Variable E : Collaborators.

(** A field that is not there, or whose reference holds no object: the
    call raises and the world is as it was. *)
Lemma create_rsl_volume_no_field radar f n bad excluded w :
  fields radar !! f ≫= (fun l => heap w !! l) = None ->
  exists e, _create_rsl_volume E radar f n bad excluded w = (Raise e, w).
Proof.
  intros H. unfold _create_rsl_volume, field_data.
  destruct (fields radar !! f) as [l|]; simpl in H.
  - rewrite (bind_ok (ret l) _ w l w eq_refl).
    assert (Hc : np_copy l w = (Raise (Exn InternalError "dangling reference"), w)).
    { unfold np_copy. apply bind_raise. unfold load. rewrite H. reflexivity. }
    rewrite (bind_raise _ _ _ _ _ Hc). eauto.
  - eexists. apply bind_raise. reflexivity.
Qed.

(** On a field that holds the object [o] the call comes to the result and
    the calls of [volume_outcome], and writes only to arrays of its own. *)
Lemma create_rsl_volume_run radar f n bad excluded w l o :
  fields radar !! f = Some l -> heap w !! l = Some o ->
  exists w',
    _create_rsl_volume E radar f n bad excluded w
    = (fst (volume_outcome (get_fillvalue E) bad o excluded radar n), w') /\
    unchanged w w' /\
    trace w' = trace w ++ snd (volume_outcome (get_fillvalue E) bad o excluded radar n).
Proof.
  intros Hf Ho. destruct w as [h t]. simpl in Ho.
  unfold _create_rsl_volume, field_data. rewrite Hf.
  rewrite (bind_ok (ret l) _ (World h t) l (World h t) eq_refl).
  set (l1 := fresh (dom h)). set (h1 := <[l1 := Plain (getdata o)]> h).
  set (a0 := Np.astype float32 (getdata o)).
  set (l2 := fresh (dom h1)). set (h2 := <[l2 := Plain a0]> h1).
  assert (Hu1 : unchanged (World h t) (World h1 t)) by apply unchanged_alloc.
  assert (Hu2 : unchanged (World h1 t) (World h2 t)) by apply unchanged_alloc.
  assert (Hl2 : forall x t', unchanged (World h t) (World (<[l2 := x]> h2) t')).
  { intros x t' k Hk. simpl. rewrite lookup_insert_ne.
    - apply (unchanged_trans _ _ _ Hu1 Hu2 k Hk).
    - intros Heq. apply (is_fresh (dom h1)). fold l2. rewrite Heq.
      apply (unchanged_dom _ _ Hu1), Hk. }
  assert (Hc : np_copy l (World h t) = (Ok l1, World h1 t)).
  { unfold np_copy. rewrite (bind_ok _ _ _ _ _ (load_ok (World h t) l o Ho)).
    reflexivity. }
  rewrite (bind_ok _ _ _ _ _ Hc).
  assert (Ha : astype l1 float32 (World h1 t) = (Ok l2, World h2 t)).
  { unfold astype.
    rewrite (bind_ok _ _ _ _ _ (load_ok (World h1 t) l1 (Plain (getdata o))
                                  (lookup_insert_eq _ _ _))).
    reflexivity. }
  rewrite (bind_ok _ _ _ _ _ Ha).
  assert (H2 : heap (World h2 t) !! l2 = Some (Plain a0))
    by apply lookup_insert_eq.
  assert (Hm : ma_filled l2 (get_fillvalue E) (World h2 t) = (Ok l2, World h2 t)).
  { unfold ma_filled. rewrite (bind_ok _ _ _ _ _ (load_ok _ _ _ H2)). reflexivity. }
  rewrite (bind_ok _ _ _ _ _ Hm).
  rewrite (bind_ok _ _ _ _ _ (base_array_ok _ _ _ H2)).
  unfold volume_outcome, prepared. fold a0.
  destruct (setitem_fits a0 (Np.logical_or (Np.equal a0 (get_fillvalue E)) (Np.isnan a0))
              bad (shape_is_bad _ _)) as [a1 H1].
  rewrite H1.
  rewrite (bind_ok _ _ _ _ _ (setitem_ok _ _ _ _ _ _ H2 H1)). simpl heap. simpl trace.
  set (h3 := <[l2 := Plain a1]> h2).
  assert (H3 : heap (World h3 t) !! l2 = Some (Plain a1)) by apply lookup_insert_eq.
  assert (Hrest : forall a2 h4,
    h4 !! l2 = Some (Plain a2) ->
    (forall t', unchanged (World h t) (World h4 t')) ->
    exists w',
      (d <- lift (Np.subtract (sweep_end_ray_index radar) (sweep_start_ray_index radar)) ;;
       a <- base_array l2 ;;
       _ <- log (CallCreateVolume a (map Np.int32 (map (fun x => x + 1) d)) n) ;;
       rsl_volume <- lift (RslInterface.create_volume a
                             (map Np.int32 (map (fun x => x + 1) d)) n) ;;
       _ <- log CallLabelVolume ;;
       ret (RslInterface._label_volume rsl_volume radar)) (World h4 t)
      = (fst (match rays_per_sweep radar with
              | inl e => (Raise e, [])
              | inr rays =>
                  match RslInterface.create_volume a2 rays n with
                  | inl e => (Raise e, [CallCreateVolume a2 rays n])
                  | inr v => (Ok (RslInterface._label_volume v radar),
                              [CallCreateVolume a2 rays n; CallLabelVolume])
                  end
              end), w') /\
      unchanged (World h t) w' /\
      trace w' = t ++ snd (match rays_per_sweep radar with
              | inl e => (Raise e, [])
              | inr rays =>
                  match RslInterface.create_volume a2 rays n with
                  | inl e => (Raise e, [CallCreateVolume a2 rays n])
                  | inr v => (Ok (RslInterface._label_volume v radar),
                              [CallCreateVolume a2 rays n; CallLabelVolume])
                  end
              end)).
  { intros a2 h4 H4 Hu4. unfold rays_per_sweep.
    destruct (Np.subtract _ _) as [e|d]; simpl.
    - eexists. split; [reflexivity|]. split; [apply Hu4|]. simpl.
      rewrite app_nil_r. reflexivity.
    - unfold bind at 1, ret at 1.
      rewrite (bind_ok _ _ _ _ _ (base_array_ok (World h4 t) l2 a2 H4)).
      unfold bind at 1, log at 1. simpl heap. simpl trace.
      destruct (RslInterface.create_volume a2 _ n) as [e|v]; simpl.
      + eexists. split; [reflexivity|]. split; [apply Hu4|]. reflexivity.
      + eexists. split; [reflexivity|]. split; [apply Hu4|]. simpl.
        rewrite <- app_assoc. reflexivity. }
  destruct excluded as [ex|].
  - destruct (Np.setitem a1 ex bad) as [e|a2] eqn:Hex.
    + rewrite (bind_raise _ _ _ _ _ (setitem_raise _ _ _ _ _ _ H3 Hex)).
      eexists. split; [reflexivity|]. split; [apply Hl2|]. simpl.
      rewrite app_nil_r. reflexivity.
    + rewrite (bind_ok _ _ _ _ _ (setitem_ok _ _ _ _ _ _ H3 Hex)).
      simpl heap. simpl trace.
      apply Hrest; [apply lookup_insert_eq|].
      intros t'. unfold h3. rewrite insert_insert_eq. apply Hl2.
  - unfold bind at 1, ret at 1. apply Hrest; [exact H3|].
    intros t'. apply Hl2.
Qed.

End VolumeRuns.

Section VolumeFacts.

Variable E : Collaborators.

(** Every run of [_create_rsl_volume] is one of the two above. *)
Lemma create_rsl_volume_inv radar f n bad excluded w r w' :
  _create_rsl_volume E radar f n bad excluded w = (r, w') ->
  (w' = w /\ exists e, r = Raise e) \/
  (exists l o,
     fields radar !! f = Some l /\ heap w !! l = Some o /\
     r = fst (volume_outcome (get_fillvalue E) bad o excluded radar n) /\
     unchanged w w' /\
     trace w' = trace w ++ snd (volume_outcome (get_fillvalue E) bad o excluded radar n)).
Proof.
  intros H.
  destruct (fields radar !! f ≫= (fun l => heap w !! l)) as [o|] eqn:Hfo.
  - right. destruct (fields radar !! f) as [l|] eqn:Hf; [|discriminate].
    simpl in Hfo.
    destruct (create_rsl_volume_run E radar f n bad excluded w l o Hf Hfo)
      as (w1 & Hrun & Hu & Ht).
    rewrite Hrun in H. injection H as <- <-. exists l, o. auto.
  - left. destruct (create_rsl_volume_no_field E radar f n bad excluded w Hfo)
      as [e He].
    rewrite He in H. injection H as <- <-. eauto.
Qed.

Lemma volume_outcome_ok fill bad o excluded radar n v :
  fst (volume_outcome fill bad o excluded radar n) = Ok v ->
  exists a rays v0,
    prepared fill bad o excluded = inr a /\
    rays_per_sweep radar = inr rays /\
    RslInterface.create_volume a rays n = inr v0 /\
    v = RslInterface._label_volume v0 radar /\
    snd (volume_outcome fill bad o excluded radar n)
    = [CallCreateVolume a rays n; CallLabelVolume].
Proof.
  unfold volume_outcome.
  destruct (prepared fill bad o excluded) as [e|a]; [discriminate|].
  destruct (rays_per_sweep radar) as [e|rays]; [discriminate|].
  destruct (RslInterface.create_volume a rays n) as [e|v0] eqn:Hc; [discriminate|].
  simpl. intros [= <-]. exists a, rays, v0. auto.
Qed.

(** The gates of a volume that was built. *)
Lemma volume_outcome_gates fill bad o excluded radar n v :
  fst (volume_outcome fill bad o excluded radar n) = Ok v ->
  forall i j x, gate (nd_data (getdata o)) i j = Some x ->
    gate (volume_rays v) i j
    = Some (volume_gate fill bad (excluded_at excluded i j) x).
Proof.
  intros H i j x Hx.
  destruct (volume_outcome_ok _ _ _ _ _ _ _ H) as (a & rays & v0 & Hp & _ & Hc & -> & _).
  apply create_volume_rays in Hc.
  change (volume_rays (RslInterface._label_volume v0 radar)) with (volume_rays v0).
  rewrite Hc. apply prepared_inr in Hp as (_ & _ & Hg). apply Hg, Hx.
Qed.

End VolumeFacts.

Lemma SFeqb_true_inv x y :
  SFeqb x y = true ->
  x = y \/ (exists s s', x = S754_zero s /\ y = S754_zero s').
Proof.
  intros H.
  destruct x as [s|s| |s m e], y as [s'|s'| |s' m' e']; unfold SFeqb in H;
    simpl in H;
    try discriminate H;
    try (right; eauto; fail);
    try (destruct s; discriminate H);
    try (destruct s'; discriminate H).
  - destruct s, s'; try discriminate H; left; reflexivity.
  - left.
    destruct s, s'; try discriminate H;
      destruct (e ?= e') eqn:He; try discriminate H;
      apply Z.compare_eq in He; subst e';
      destruct (Pos.compare_cont Eq m m') eqn:Hm; try discriminate H;
      apply Pos.compare_eq in Hm; subst m'; reflexivity.
Qed.

Lemma SFeqb_cast dt x y : SFeqb x y = true -> SFeqb (cast dt x) (cast dt y) = true.
Proof.
  intros H. destruct (SFeqb_true_inv x y H) as [<-|(s & s' & -> & ->)].
  - apply SFeqb_refl. rewrite is_nan_cast. apply (SFeqb_true_not_nan x x H).
  - destruct dt; reflexivity.
Qed.


Section PipelineFacts.

Variable E : Collaborators.

Lemma dealias_volumes_inv a w vel last w' :
  dealias_volumes E a w = (Ok (vel, last), w') ->
  exists g w1,
    _parse_gatefilter E (gatefilter a) (radar a) (kwargs a) (heap w) = inr g /\
    _create_rsl_volume E (radar a) (vel_field_name E a) 1 (rsl_badval a)
      (Some (gate_excluded g)) (World (heap w) (trace w ++ [CallParseGatefilter]))
    = (Ok vel, w1) /\
    match last_radar a with
    | Some lr =>
        exists lv,
          _create_rsl_volume E lr (last_vel_field_name E a) 1 (rsl_badval a) None w1
          = (Ok lv, w') /\ last = Some lv
    | None => last = None /\ w' = w1
    end.
Proof.
  unfold dealias_volumes. intros H.
  rewrite (bind_ok get_heap _ w (heap w) w eq_refl) in H.
  rewrite (bind_ok (log CallParseGatefilter) _ w tt
             (World (heap w) (trace w ++ [CallParseGatefilter])) eq_refl) in H.
  destruct (_parse_gatefilter E (gatefilter a) (radar a) (kwargs a) (heap w))
    as [e|g]; [discriminate H|].
  exists g.
  rewrite (bind_ok (lift (inr g)) _ _ g _ eq_refl) in H.
  apply bind_inv in H as [(v & w1 & Hv & H)|(e & _ & He)]; [|discriminate He].
  exists w1.
  apply bind_inv in H as [(lo & w2 & Hl & H)|(e & _ & He)]; [|discriminate He].
  injection H as <- <- <-. split; [reflexivity|]. split; [exact Hv|].
  destruct (last_radar a) as [lr|].
  - apply bind_inv in Hl as [(lv & w3 & Hlv & H)|(e & _ & He)]; [|discriminate He].
    injection H as <- <-. eauto.
  - injection Hl as <- <-. auto.
Qed.

Lemma dealias_soundvolume_run a vel w :
  dealias_soundvolume E a vel w
  = match sounding_heights a, sounding_wind_speeds a, sounding_wind_direction a with
    | Some heights, Some speeds, Some direction =>
        let hc := map (cast float32) heights in
        let sc := map (cast float32) speeds in
        let dc := map (cast float32) direction in
        let w1 := World (heap w)
                    (trace w ++ [CallCreateSoundvolume vel hc sc dc (sign a) (max_shear a)]) in
        match create_soundvolume E vel hc sc dc (sign a) (max_shear a) with
        | inl e => (Raise e, w1)
        | inr r => if fst r =? 0 then (Raise sounding_error, w1) else (Ok (snd r), w1)
        end
    | _, _, _ => (Ok None, w)
    end.
Proof.
  unfold dealias_soundvolume.
  destruct (sounding_heights a) as [h|]; [|reflexivity].
  destruct (sounding_wind_speeds a) as [s|]; [|reflexivity].
  destruct (sounding_wind_direction a) as [d|]; [|reflexivity].
  cbv zeta. unfold bind at 1, log at 1. cbv beta iota.
  destruct (create_soundvolume E vel _ _ _ (sign a) (max_shear a)) as [e|r];
    [reflexivity|].
  unfold bind, lift, ret. destruct (fst r =? 0); reflexivity.
Qed.

(** Once the volumes are there, the engine is called, and what it returns
    or raises is what the call comes to. *)
Lemma dealias_fourdd_run a w vel last w1 sound w2 :
  _FOURDD_AVAILABLE E = true -> 
  dealias_volumes E a w = (Ok (vel, last), w1) ->
  dealias_soundvolume E a vel w1 = (Ok sound, w2) ->
  (sounding_available a = true \/ last_radar a <> None) ->
  dealias_fourdd E a w
  = (if debug a then
       r <- lift (fourdd_dealias_debug E vel last sound (filt a) (kwargs a)) ;;
       ret (RetDebug r)
     else
       r <- lift (fourdd_dealias E vel last sound (filt a) (kwargs a)) ;;
       dealias_output E a (snd r))
      (World (heap w2)
         (trace w2 ++ [CallFourddDealias vel last sound (filt a) (debug a) (kwargs a)])).
Proof.
  intros Hav Hv Hs Hsrc. unfold dealias_fourdd. rewrite Hav.
  change (negb true) with false. cbv iota.
  assert (Hc : negb (sounding_available a) && bool_decide (last_radar a = None) = false).
  { destruct Hsrc as [->|Hl]; [reflexivity|].
    rewrite (bool_decide_eq_false_2 _ Hl). apply andb_false_r. }
  rewrite Hc. cbv iota.
  rewrite (bind_ok _ _ _ _ _ Hv). simpl fst. simpl snd.
  rewrite (bind_ok _ _ _ _ _ Hs).
  unfold bind at 1, log at 1. cbv beta iota.
  destruct (debug a); reflexivity.
Qed.

(** Without [debug], what the engine returns as [data] is what the output
    is made of. *)
Lemma dealias_fourdd_reaches_output a w vel last w1 sound w2 flag data :
  _FOURDD_AVAILABLE E = true ->
  dealias_volumes E a w = (Ok (vel, last), w1) ->
  dealias_soundvolume E a vel w1 = (Ok sound, w2) ->
  (sounding_available a = true \/ last_radar a <> None) ->
  debug a = false ->
  fourdd_dealias E vel last sound (filt a) (kwargs a) = inr (flag, data) ->
  dealias_fourdd E a w
  = dealias_output E a data
      (World (heap w2)
         (trace w2 ++ [CallFourddDealias vel last sound (filt a) false (kwargs a)])).
Proof.
  intros Hav Hv Hs Hsrc Hd He.
  rewrite (dealias_fourdd_run a w vel last w1 sound w2 Hav Hv Hs Hsrc).
  rewrite Hd, He. reflexivity.
Qed.

End PipelineFacts.

Lemma lookup_zip_with_zip {A B C D} (f : A -> B * C -> D)
    (l : list A) (x : list B) (y : list C) i :
  zip_with f l (zip x y) !! i
  = match l !! i, x !! i, y !! i with
    | Some a, Some b, Some c => Some (f a (b, c))
    | _, _, _ => None
    end.
Proof.
  rewrite !lookup_zip_with. destruct (l !! i), (x !! i), (y !! i); reflexivity.
Qed.

Lemma where_inr c x y r :
  Np.where_ c x y = inr r ->
  nd_dtype r = promote_types (nd_dtype x) (nd_dtype y) /\
  forall i j vy, gate (nd_data y) i j = Some vy ->
    exists b vx,
      gate c i j = Some b /\ gate (nd_data x) i j = Some vx /\
      gate (nd_data r) i j = Some (cast (nd_dtype r) (if b then vx else vy)).
Proof.
  unfold Np.where_. destruct (decide _) as [[Hc Hx]|]; [|discriminate].
  intros [= <-]. simpl. split; [reflexivity|].
  intros i j vy Hy.
  destruct (gate_same_shape c (nd_data y) i j vy Hc Hy) as [b Hb].
  destruct (gate_same_shape (nd_data x) (nd_data y) i j vy Hx Hy) as [vx Hvx].
  exists b, vx. split; [exact Hb|]. split; [exact Hvx|].
  unfold gate in *. rewrite lookup_zip_with_zip.
  destruct (c !! i) as [cs|]; [|discriminate Hb].
  destruct (nd_data x !! i) as [xs|]; [|discriminate Hvx].
  destruct (nd_data y !! i) as [ys|]; [|discriminate Hy].
  change (zip_with
            (fun (b : bool) (p : spec_float * spec_float) =>
               cast (promote_types (nd_dtype x) (nd_dtype y))
                 (if b then fst p else snd p)) cs (zip xs ys) !! j
          = Some (cast (promote_types (nd_dtype x) (nd_dtype y))
                    (if b then vx else vy))).
  change (cs !! j = Some b) in Hb. change (xs !! j = Some vx) in Hvx.
  change (ys !! j = Some vy) in Hy.
  rewrite lookup_zip_with_zip, Hb, Hvx, Hy. reflexivity.
Qed.

Lemma gate_is_bad_data (a : ndarray) v i j :
  gate (is_bad_data a v) i j
  = (fun x => Float.is_nan x || SFeqb x (cast (nd_dtype a) v)) <$> gate (nd_data a) i j.
Proof.
  unfold is_bad_data, Np.logical_or, Np.equal, Np.isnan.
  rewrite gate_zip_with, !gate_map.
  destruct (gate (nd_data a) i j); reflexivity.
Qed.

Lemma shape_is_bad_data (a : ndarray) v :
  shape (is_bad_data a v) = shape (nd_data a).
Proof.
  unfold is_bad_data, Np.logical_or, Np.equal, Np.isnan.
  rewrite shape_zip_with; rewrite !shape_map; reflexivity.
Qed.

Lemma gate_equal (a : ndarray) v i j :
  gate (Np.equal a v) i j
  = (fun x => SFeqb x (cast (nd_dtype a) v)) <$> gate (nd_data a) i j.
Proof. unfold Np.equal. apply gate_map. Qed.

Section OutputFacts.

Variable E : Collaborators.

Lemma dealias_output_fill a data w :
  keep_original a = false ->
  exists d,
    Np.setitem data (is_bad_data data (rsl_badval a))
      (get_fillvalue E) = inr d /\
    dealias_output E a data w = (Ok (field_of E a d), w).
Proof.
  intros Hk.
  destruct (setitem_fits data
              (is_bad_data data (rsl_badval a))
              (get_fillvalue E) (shape_is_bad_data _ _)) as [d Hd].
  exists d. split; [exact Hd|].
  unfold dealias_output. rewrite Hk, Hd. reflexivity.
Qed.

Lemma dealias_output_keep a data w l o :
  keep_original a = true ->
  fields (radar a) !! vel_field_name E a = Some l ->
  heap w !! l = Some o ->
  dealias_output E a data w
  = (match Np.where_ (is_bad_data data (rsl_badval a))
             (getdata o) data with
     | inl e => Raise e
     | inr d => Ok (field_of E a d)
     end, w).
Proof.
  intros Hk Hf Ho. unfold dealias_output, field_data. rewrite Hk, Hf.
  cbv iota. unfold bind at 1.
  rewrite (bind_ok (ret l) _ w l w eq_refl).
  rewrite (bind_ok _ _ _ _ _ (load_ok w l o Ho)).
  destruct (Np.where_ _ _ _); reflexivity.
Qed.

End OutputFacts.

(* ===================================================================== *)
(** * The volume builder *)
(* ===================================================================== *)

Lemma shape_length {A B} (x : list (list A)) (y : list (list B)) :
  shape x = shape y -> length x = length y.
Proof.
  unfold shape. intros H. apply (f_equal length) in H.
  rewrite !length_map in H. exact H.
Qed.

(** C9. [_create_rsl_volume] writes to no array that was there before the
    call: whatever object a reference held, the field data of the radar
    among them, it holds after the call, whether a volume was built or an
    exception raised.  The substitutions go to the copy. *)
Theorem create_rsl_volume_leaves_arrays (E : Collaborators) (radar : Radar)
    (field_name : string) (vol_num : Z) (rsl_badval : spec_float)
    (excluded : option (list (list bool))) (w : world) (l : positive) (o : array) :
  heap w !! l = Some o ->
  heap (snd (_create_rsl_volume E radar field_name vol_num rsl_badval excluded w)) !! l
  = Some o.
Proof.
  intros Ho.
  destruct (_create_rsl_volume E radar field_name vol_num rsl_badval excluded w)
    as [r w'] eqn:Hrun.
  simpl. apply create_rsl_volume_inv in Hrun as [[-> _]|(l0 & o0 & _ & _ & _ & Hu & _)].
  - exact Ho.
  - rewrite (Hu l); [exact Ho|]. apply elem_of_dom. eauto.
Qed.

Lemma create_rsl_volume_leaves_arrays_witness :
  heap Demo.world1 !! 1%positive = Some (Plain Demo.velocities) /\
  heap (snd (_create_rsl_volume Demo.collaborators Demo.radar1 "velocity" 1
               Demo.badval (Some (gate_excluded Demo.filter1)) Demo.world1))
    !! 1%positive
  = Some (Plain Demo.velocities).
Proof.
  split; [reflexivity|].
  apply (create_rsl_volume_leaves_arrays Demo.collaborators Demo.radar1 "velocity" 1
           Demo.badval (Some (gate_excluded Demo.filter1)) Demo.world1 1%positive
           (Plain Demo.velocities)).
  reflexivity.
Defined.




(** C7.  A scan whose rays per sweep do not sum to the number of its rays:
    [_create_rsl_volume] raises ShapeMismatch and returns no volume.  (The
    field is there and the mask, if any, has its shape, so that the call
    gets as far as [create_volume].) *)
Theorem create_rsl_volume_shape_mismatch (E : Collaborators) (radar : Radar)
    (field_name : string) (vol_num : Z) (rsl_badval : spec_float)
    (excluded : option (list (list bool))) (w : world)
    (l : positive) (o : array) (rays : list Z) :
  fields radar !! field_name = Some l ->
  heap w !! l = Some o ->
  mask_fits excluded (getdata o) ->
  rays_per_sweep radar = inr rays ->
  sum_Z rays <> Z.of_nat (length (nd_data (getdata o))) ->
  exists msg w',
    _create_rsl_volume E radar field_name vol_num rsl_badval excluded w
    = (Raise (Exn ShapeMismatch msg), w').
Proof.
  intros Hf Ho Hm Hr Hsum.
  destruct (create_rsl_volume_run E radar field_name vol_num rsl_badval excluded
              w l o Hf Ho) as (w' & Hrun & _ & _).
  destruct (prepared_fits (get_fillvalue E) rsl_badval o excluded Hm) as [a Ha].
  unfold volume_outcome in Hrun. rewrite Ha, Hr in Hrun.
  apply prepared_inr in Ha as (_ & Hs & _). apply shape_length in Hs.
  unfold RslInterface.create_volume in Hrun.
  rewrite decide_False in Hrun by (rewrite Hs; exact Hsum).
  simpl in Hrun. eauto.
Qed.

Lemma create_rsl_volume_shape_mismatch_witness :
  exists msg w',
    _create_rsl_volume Demo.collaborators Demo.radar_short "velocity" 1
      Demo.badval None Demo.world1
    = (Raise (Exn ShapeMismatch msg), w').
Proof.
  apply (create_rsl_volume_shape_mismatch Demo.collaborators Demo.radar_short
           "velocity" 1 Demo.badval None Demo.world1 1%positive
           (Plain Demo.velocities) [3]).
  - reflexivity.
  - reflexivity.
  - exact I.
  - reflexivity.
  - vm_compute. discriminate.
Defined.

(* ===================================================================== *)
(** * The pipeline *)
(* ===================================================================== *)

(** C1.  Sounding data that are not complete and no last radar: the call
    raises at once, and the world is the one of the call: no volume was
    built, nothing was called, and the raise is the end of the call.  The
    error is the ValueError of the missing source (when the compiled
    modules are not there it is the MissingOptionalDependency of line 187,
    raised before). *)
Theorem dealias_fourdd_needs_a_source (E : Collaborators) (a : Args) (w : world) :
  sounding_heights a = None \/ sounding_wind_speeds a = None \/
    sounding_wind_direction a = None ->
  last_radar a = None ->
  exists e,
    dealias_fourdd E a w = (Raise e, w) /\
    (_FOURDD_AVAILABLE E = true -> e = no_source_error).
Proof.
  intros Hs Hl. unfold dealias_fourdd.
  destruct (_FOURDD_AVAILABLE E).
  - change (negb true) with false. cbv iota.
    assert (Hc : negb (sounding_available a) && bool_decide (last_radar a = None) = true).
    { rewrite (bool_decide_eq_true_2 _ Hl), andb_true_r. unfold sounding_available.
      destruct Hs as [ -> | [ -> | -> ] ]; simpl.
      - reflexivity.
      - rewrite andb_false_r. reflexivity.
      - rewrite andb_false_r. reflexivity. }
    rewrite Hc. exists no_source_error. split; reflexivity.
  - eexists. split; [reflexivity|]. discriminate.
Qed.

Lemma dealias_fourdd_needs_a_source_witness :
  exists e,
    dealias_fourdd Demo.collaborators Demo.args_no_source Demo.world1
    = (Raise e, Demo.world1) /\
    (_FOURDD_AVAILABLE Demo.collaborators = true -> e = no_source_error).
Proof.
  apply (dealias_fourdd_needs_a_source Demo.collaborators Demo.args_no_source
           Demo.world1).
  - left. reflexivity.
  - reflexivity.
Defined.

(** C10.  With a last radar, the volume of the last radar is built without a
    mask: each of its gates is the float32 of what the last radar's field
    stores there, or the bad value when that is the fill value or NaN.  The
    gate filter has no part in it; its mask goes to the volume of the
    velocities only. *)
Theorem last_volume_is_not_filtered (E : Collaborators) (a : Args) (w w' : world)
    (lr : Radar) (l : positive) (o : array)
    (vel : RslVolume) (last : option RslVolume) :
  last_radar a = Some lr ->
  fields lr !! last_vel_field_name E a = Some l ->
  heap w !! l = Some o ->
  dealias_volumes E a w = (Ok (vel, last), w') ->
  exists lv g l0 o0,
    last = Some lv /\
    (forall i j x, gate (nd_data (getdata o)) i j = Some x ->
       gate (volume_rays lv) i j
       = Some (if SFeqb (cast float32 x) (cast float32 (get_fillvalue E))
                  || Float.is_nan (cast float32 x)
               then cast float32 (rsl_badval a)
               else cast float32 x)) /\
    _parse_gatefilter E (gatefilter a) (radar a) (kwargs a) (heap w) = inr g /\
    fields (radar a) !! vel_field_name E a = Some l0 /\
    heap w !! l0 = Some o0 /\
    (forall i j x, gate (nd_data (getdata o0)) i j = Some x ->
       gate (volume_rays vel) i j
       = Some (volume_gate (get_fillvalue E) (rsl_badval a)
                 (excluded_at (Some (gate_excluded g)) i j) x)).
Proof.
  intros Hlr Hf Ho Hv.
  apply dealias_volumes_inv in Hv as (g & w1 & Hg & Hvel & Hlast).
  rewrite Hlr in Hlast. destruct Hlast as (lv & Hlv & ->).
  apply create_rsl_volume_inv in Hvel
    as [[_ [e He]]|(l0 & o0 & Hf0 & Ho0 & Hr0 & Hu0 & _)]; [discriminate He|].
  apply create_rsl_volume_inv in Hlv
    as [[_ [e He]]|(l1 & o1 & Hf1 & Ho1 & Hr1 & _ & _)]; [discriminate He|].
  simpl in Ho0.
  rewrite Hf in Hf1. injection Hf1 as <-.
  rewrite (Hu0 l) in Ho1 by (apply elem_of_dom; simpl; eauto).
  simpl in Ho1. rewrite Ho in Ho1. injection Ho1 as <-.
  exists lv, g, l0, o0. split; [reflexivity|]. split.
  { intros i j x Hx.
    apply (volume_outcome_gates _ _ _ _ _ _ _ (eq_sym Hr1) i j x Hx). }
  split; [exact Hg|]. split; [exact Hf0|]. split; [exact Ho0|].
  intros i j x Hx. apply (volume_outcome_gates _ _ _ _ _ _ _ (eq_sym Hr0) i j x Hx).
Qed.

Lemma last_volume_is_not_filtered_witness :
  exists vel last w' lv g l0 o0,
    dealias_volumes Demo.collaborators Demo.args_filter Demo.world1
    = (Ok (vel, last), w') /\
    last = Some lv /\
    (forall i j x, gate (nd_data (getdata (Plain Demo.velocities))) i j = Some x ->
       gate (volume_rays lv) i j
       = Some (if SFeqb (cast float32 x)
                    (cast float32 (get_fillvalue Demo.collaborators))
                  || Float.is_nan (cast float32 x)
               then cast float32 (rsl_badval Demo.args_filter)
               else cast float32 x)) /\
    _parse_gatefilter Demo.collaborators (gatefilter Demo.args_filter)
      (radar Demo.args_filter) (kwargs Demo.args_filter) (heap Demo.world1) = inr g /\
    fields (radar Demo.args_filter) !! vel_field_name Demo.collaborators Demo.args_filter
    = Some l0 /\
    heap Demo.world1 !! l0 = Some o0 /\
    (forall i j x, gate (nd_data (getdata o0)) i j = Some x ->
       gate (volume_rays vel) i j
       = Some (volume_gate (get_fillvalue Demo.collaborators)
                 (rsl_badval Demo.args_filter)
                 (excluded_at (Some (gate_excluded g)) i j) x)).
Proof.
  do 3 eexists.
  assert (Hrun : dealias_volumes Demo.collaborators Demo.args_filter Demo.world1
                 = (Ok (?[vel], ?[last]), ?[w'])) by (vm_compute; reflexivity).
  destruct (last_volume_is_not_filtered Demo.collaborators Demo.args_filter
              Demo.world1 _ Demo.radar1 1%positive (Plain Demo.velocities) _ _
              eq_refl eq_refl eq_refl Hrun) as (lv & g & l0 & o0 & H).
  exists lv, g, l0, o0. split; [exact Hrun|exact H].
Defined.

Section PipelineTraces.

Variable E : Collaborators.

Lemma dealias_output_world a data w r w' :
  dealias_output E a data w = (r, w') -> w' = w.
Proof.
  unfold dealias_output, bind, field_data, load, lift, ret, raise.
  intros H. repeat case_match; simplify_eq; reflexivity.
Qed.

(** The call of the engine and what follows leave the world as it is. *)
Lemma engine_phase_world a vel last sound w r w' :
  (if debug a then
     r <- lift (fourdd_dealias_debug E vel last sound (filt a) (kwargs a)) ;;
     ret (RetDebug r)
   else
     r <- lift (fourdd_dealias E vel last sound (filt a) (kwargs a)) ;;
     dealias_output E a (snd r)) w = (r, w') ->
  w' = w.
Proof.
  destruct (debug a).
  - destruct (fourdd_dealias_debug E vel last sound (filt a) (kwargs a));
      intros [= _ <-]; reflexivity.
  - destruct (fourdd_dealias E vel last sound (filt a) (kwargs a)) as [e|p].
    + intros [= _ <-]. reflexivity.
    + rewrite (bind_ok (lift (inr p)) _ w p w eq_refl).
      apply dealias_output_world.
Qed.

(** The volumes are built after the gate filter is parsed, the volume of
    the velocities first. *)
Lemma dealias_volumes_trace a w vel last w1 :
  dealias_volumes E a w = (Ok (vel, last), w1) ->
  exists arr rays rest,
    trace w1
    = trace w ++ CallParseGatefilter :: CallCreateVolume arr rays 1 :: rest.
Proof.
  intros Hv.
  apply dealias_volumes_inv in Hv as (g & w0 & _ & Hvel & Hlast).
  apply create_rsl_volume_inv in Hvel
    as [[_ [e He]]|(l0 & o0 & _ & _ & Hr0 & _ & Ht0)]; [discriminate He|].
  destruct (volume_outcome_ok _ _ _ _ _ _ _ (eq_sym Hr0))
    as (arr & rays & v0 & _ & _ & _ & _ & Hev).
  rewrite Hev in Ht0. simpl in Ht0. rewrite <- app_assoc in Ht0. simpl in Ht0.
  destruct (last_radar a) as [lr|].
  - destruct Hlast as (lv & Hlv & _).
    apply create_rsl_volume_inv in Hlv
      as [[_ [e He]]|(l1 & o1 & _ & _ & _ & _ & Ht1)]; [discriminate He|].
    exists arr, rays. eexists. rewrite Ht1, Ht0. rewrite <- app_assoc.
    simpl. reflexivity.
  - destruct Hlast as [_ ->]. exists arr, rays. eexists. exact Ht0.
Qed.

Lemma dealias_soundvolume_trace a vel w r w' :
  dealias_soundvolume E a vel w = (r, w') ->
  heap w' = heap w /\ exists k, trace w' = trace w ++ k.
Proof.
  rewrite dealias_soundvolume_run.
  destruct (sounding_heights a), (sounding_wind_speeds a),
    (sounding_wind_direction a);
    try (intros [= _ <-]; split; [reflexivity|exists []; symmetry; apply app_nil_r]).
  cbv zeta.
  destruct (create_soundvolume E vel _ _ _ (sign a) (max_shear a)) as [e|p].
  - intros [= _ <-]. simpl. eauto.
  - destruct (fst p =? 0); intros [= _ <-]; simpl; eauto.
Qed.

(** The volumes are built on copies. *)
Lemma dealias_volumes_unchanged a w r w' :
  dealias_volumes E a w = (r, w') -> unchanged w w'.
Proof.
  unfold dealias_volumes. intros H.
  rewrite (bind_ok get_heap _ w (heap w) w eq_refl) in H.
  rewrite (bind_ok (log CallParseGatefilter) _ w tt
             (World (heap w) (trace w ++ [CallParseGatefilter])) eq_refl) in H.
  set (w0 := World (heap w) (trace w ++ [CallParseGatefilter])) in *.
  assert (H0 : unchanged w w0) by (intros l _; reflexivity).
  destruct (_parse_gatefilter E (gatefilter a) (radar a) (kwargs a) (heap w)) as [e|g].
  { injection H as _ <-. exact H0. }
  rewrite (bind_ok (lift (inr g)) _ _ g _ eq_refl) in H.
  assert (Hvol : forall rd f n b ex wa ra wb,
            _create_rsl_volume E rd f n b ex wa = (ra, wb) -> unchanged wa wb).
  { intros rd f n b ex wa ra wb Hr.
    apply create_rsl_volume_inv in Hr as [[-> _]|(? & ? & _ & _ & _ & Hu & _)];
      [apply unchanged_refl|exact Hu]. }
  apply bind_inv in H as [(v & w1 & Hv & H)|(e & Hv & _)].
  2:{ apply (unchanged_trans _ _ _ H0), (Hvol _ _ _ _ _ _ _ _ Hv). }
  assert (H1 : unchanged w w1)
    by apply (unchanged_trans _ _ _ H0), (Hvol _ _ _ _ _ _ _ _ Hv).
  apply bind_inv in H as [(lo & w2 & Hl & H)|(e & Hl & _)].
  - injection H as _ <-. destruct (last_radar a) as [lr|].
    + apply bind_inv in Hl as [(lv & w3 & Hlv & Hl)|(e & Hlv & He)];
        [|discriminate He].
      injection Hl as _ <-.
      apply (unchanged_trans _ _ _ H1), (Hvol _ _ _ _ _ _ _ _ Hlv).
    + injection Hl as _ <-. exact H1.
  - destruct (last_radar a) as [lr|]; [|discriminate Hl].
    apply bind_inv in Hl as [(lv & w3 & _ & Hl)|(e' & Hlv & _)]; [discriminate Hl|].
    apply (unchanged_trans _ _ _ H1), (Hvol _ _ _ _ _ _ _ _ Hlv).
Qed.

End PipelineTraces.

(** C5, as the code has it.  [dealias_fourdd] does not look at the profile:
    once the volumes are built, [create_soundvolume] is called with the
    float32 arrays of the three soundings, whatever their length and order.
    What follows is decided by that call alone.  If it raises, its exception
    ends [dealias_fourdd]; if it returns [success == 0], [dealias_fourdd]
    raises the ValueError of the sounding and the engine is not called; if
    it returns any other [success], the profile is taken: the volume that
    came with it goes to the engine, and the call comes to what the engine
    and the output make of it. *)
Theorem sounding_is_not_validated (E : Collaborators) (a : Args) (w w1 : world)
    (h s d : list spec_float) (vel : RslVolume) (last : option RslVolume) :
  _FOURDD_AVAILABLE E = true ->
  sounding_heights a = Some h ->
  sounding_wind_speeds a = Some s ->
  sounding_wind_direction a = Some d ->
  dealias_volumes E a w = (Ok (vel, last), w1) ->
  let hc := map (cast float32) h in
  let sc := map (cast float32) s in
  let dc := map (cast float32) d in
  let w2 :=
    World (heap w1)
      (trace w1 ++ [CallCreateSoundvolume vel hc sc dc (sign a) (max_shear a)]) in
  match create_soundvolume E vel hc sc dc (sign a) (max_shear a) with
  | inl e => dealias_fourdd E a w = (Raise e, w2)
  | inr (success, sound_volume) =>
      if success =? 0 then
        dealias_fourdd E a w = (Raise sounding_error, w2)
      else
        dealias_fourdd E a w
        = (if debug a then
             r <- lift (fourdd_dealias_debug E vel last sound_volume
                          (filt a) (kwargs a)) ;;
             ret (RetDebug r)
           else
             r <- lift (fourdd_dealias E vel last sound_volume
                          (filt a) (kwargs a)) ;;
             dealias_output E a (snd r))
            (World (heap w2)
               (trace w2 ++
                  [CallFourddDealias vel last sound_volume (filt a) (debug a)
                     (kwargs a)]))
  end.
Proof.
  intros Hav Hh Hs Hd Hv hc sc dc w2.
  assert (Hsrc : negb (sounding_available a) && bool_decide (last_radar a = None) = false).
  { unfold sounding_available. rewrite Hh, Hs, Hd. reflexivity. }
  assert (Hsound : dealias_soundvolume E a vel w1
                   = match create_soundvolume E vel hc sc dc (sign a) (max_shear a) with
                     | inl e => (Raise e, w2)
                     | inr r => if fst r =? 0 then (Raise sounding_error, w2)
                                else (Ok (snd r), w2)
                     end).
  { rewrite dealias_soundvolume_run, Hh, Hs, Hd. reflexivity. }
  assert (Hrun : forall e, dealias_soundvolume E a vel w1 = (Raise e, w2) ->
                 dealias_fourdd E a w = (Raise e, w2)).
  { intros e He. unfold dealias_fourdd. rewrite Hav.
    change (negb true) with false. cbv iota. rewrite Hsrc. cbv iota.
    rewrite (bind_ok _ _ _ _ _ Hv). simpl fst. simpl snd.
    apply bind_raise. exact He. }
  destruct (create_soundvolume E vel hc sc dc (sign a) (max_shear a))
    as [e|[success sound_volume]].
  - apply Hrun, Hsound.
  - simpl fst in Hsound. simpl snd in Hsound. destruct (success =? 0).
    + apply Hrun, Hsound.
    + apply (dealias_fourdd_run E a w vel last w1 sound_volume w2 Hav Hv Hsound).
      left. unfold sounding_available. rewrite Hh, Hs, Hd. reflexivity.
Qed.

Lemma sounding_is_not_validated_witness :
  exists vel w2,
    sounding_heights Demo.args_empty_profile = Some [] /\
    dealias_fourdd Demo.collaborators Demo.args_empty_profile Demo.world1
    = (Raise sounding_error, w2) /\
    last (trace w2) = Some (CallCreateSoundvolume vel [] [] [] 1 (S754_zero false)).
Proof.
  do 2 eexists. split; [reflexivity|]. split.
  - refine (sounding_is_not_validated Demo.collaborators Demo.args_empty_profile
              Demo.world1 _ [] [] [] _ None eq_refl eq_refl eq_refl eq_refl _).
    vm_compute. reflexivity.
  - cbn [trace]. apply last_snoc.
Defined.

(** C5, as the claim has it, fails on a profile without a sample: the
    synthesis routine is called with the empty arrays, and the failure
    reaches the caller as a raised exception. *)
Lemma empty_profile_reaches_synthesis :
  exists vel w',
    sounding_heights Demo.args_empty_profile = Some [] /\
    dealias_fourdd Demo.collaborators Demo.args_empty_profile Demo.world1
    = (Raise sounding_error, w') /\
    In (CallCreateSoundvolume vel [] [] [] 1 (S754_zero false)) (trace w').
Proof.
  do 2 eexists. split; [reflexivity|]. split.
  - vm_compute. reflexivity.
  - simpl. do 3 right. left. reflexivity.
Qed.

(** C6, as the code has it.  When [create_soundvolume] reports
    [success == 0], whatever volume comes with it ([None] or not), the call
    raises the ValueError of the sounding after the synthesis, and the engine
    is not called.  The error is of no kind of its own: its class is
    ValueError, the class of the error of a missing source, and only the
    message tells the two apart.  With any other [success] nothing is
    raised here, and the volume that came with it, a [None] too, is the one
    the engine is called with. *)
Theorem sounding_failure_is_a_value_error (E : Collaborators) (a : Args)
    (w w1 : world) (h s d : list spec_float) (vel : RslVolume)
    (last : option RslVolume) (success : Z) (sound_volume : option RslVolume) :
  _FOURDD_AVAILABLE E = true ->
  sounding_heights a = Some h ->
  sounding_wind_speeds a = Some s ->
  sounding_wind_direction a = Some d ->
  dealias_volumes E a w = (Ok (vel, last), w1) ->
  create_soundvolume E vel (map (cast float32) h) (map (cast float32) s)
    (map (cast float32) d) (sign a) (max_shear a) = inr (success, sound_volume) ->
  let w2 :=
    World (heap w1)
      (trace w1 ++
         [CallCreateSoundvolume vel (map (cast float32) h) (map (cast float32) s)
            (map (cast float32) d) (sign a) (max_shear a)]) in
  (success = 0 ->
   exists e,
     dealias_fourdd E a w = (Raise e, w2) /\
     exn_cls e = ValueError /\
     exn_cls e = exn_cls no_source_error /\
     exn_msg e = "Error when loading sounding data" /\
     exn_msg e <> exn_msg no_source_error) /\
  (success <> 0 ->
   forall r w', dealias_fourdd E a w = (r, w') ->
     trace w'
     = trace w2 ++
       [CallFourddDealias vel last sound_volume (filt a) (debug a) (kwargs a)]).
Proof.
  intros Hav Hh Hs Hd Hv Hc w2.
  assert (Hsound : dealias_soundvolume E a vel w1
                   = (if success =? 0 then Raise sounding_error else Ok sound_volume, w2)).
  { rewrite dealias_soundvolume_run, Hh, Hs, Hd. cbv zeta. rewrite Hc. simpl fst.
    simpl snd. destruct (success =? 0); reflexivity. }
  assert (Hsrc : sounding_available a = true).
  { unfold sounding_available. rewrite Hh, Hs, Hd. reflexivity. }
  split.
  - intros ->. simpl in Hsound. exists sounding_error. split.
    + unfold dealias_fourdd. rewrite Hav, Hsrc.
      change (negb true) with false. cbv iota beta delta [andb].
      rewrite (bind_ok _ _ _ _ _ Hv). simpl fst. simpl snd.
      apply bind_raise. exact Hsound.
    + repeat split; try reflexivity. discriminate.
  - intros Hn r w' Hrun. apply Z.eqb_neq in Hn. rewrite Hn in Hsound.
    rewrite (dealias_fourdd_run E a w vel last w1 sound_volume w2 Hav Hv Hsound
               (or_introl Hsrc)) in Hrun.
    apply engine_phase_world in Hrun. subst w'. reflexivity.
Qed.

Lemma sounding_failure_is_a_value_error_witness :
  exists e w2,
    dealias_fourdd Demo.collaborators Demo.args_empty_profile Demo.world1
    = (Raise e, w2) /\
    exn_cls e = ValueError /\
    exn_cls e = exn_cls no_source_error /\
    exn_msg e = "Error when loading sounding data" /\
    exn_msg e <> exn_msg no_source_error.
Proof.
  assert (Hv : dealias_volumes Demo.collaborators Demo.args_empty_profile Demo.world1
               = (Ok (?[vel], None), ?[w1])) by (vm_compute; reflexivity).
  destruct (proj1 (sounding_failure_is_a_value_error Demo.collaborators
                     Demo.args_empty_profile Demo.world1 _ [] [] [] _ None 0 None
                     eq_refl eq_refl eq_refl eq_refl Hv eq_refl) eq_refl)
    as (e & He).
  exists e. eexists. exact He.
Defined.

(** C6, as the claim has it, fails: the failure of the synthesis and the
    missing source reach the caller as exceptions of one class, ValueError;
    a caller that tells errors apart by their kind cannot tell these two
    apart. *)
Lemma sounding_failure_has_the_class_of_a_missing_source :
  exists e1 e2 w1 w2,
    dealias_fourdd Demo.collaborators Demo.args_empty_profile Demo.world1
    = (Raise e1, w1) /\
    dealias_fourdd Demo.collaborators Demo.args_no_source Demo.world1
    = (Raise e2, w2) /\
    e1 = sounding_error /\ e2 = no_source_error /\
    exn_cls e1 = ValueError /\ exn_cls e2 = ValueError.
Proof.
  do 4 eexists. split; [vm_compute; reflexivity|].
  split; [vm_compute; reflexivity|].
  repeat split; reflexivity.
Qed.

(** C8, as the code has it.  [dealias_fourdd] checks no keyword argument:
    [ba_mincount] and [ba_edgecount] go to [fourdd_dealias] in [kwargs] as
    they came.  The engine is called when the gate filter is parsed and the
    volumes are built, and an error it raises is the error of the call. *)
Theorem engine_error_comes_after_volumes (E : Collaborators) (a : Args)
    (w w1 w2 : world) (vel : RslVolume) (last sound : option RslVolume) (e : exn) :
  _FOURDD_AVAILABLE E = true ->
  sounding_available a = true \/ last_radar a <> None ->
  dealias_volumes E a w = (Ok (vel, last), w1) ->
  dealias_soundvolume E a vel w1 = (Ok sound, w2) ->
  (if debug a
   then fourdd_dealias_debug E vel last sound (filt a) (kwargs a) = inl e
   else fourdd_dealias E vel last sound (filt a) (kwargs a) = inl e) ->
  dealias_fourdd E a w
  = (Raise e,
     World (heap w2)
       (trace w2 ++
          [CallFourddDealias vel last sound (filt a) (debug a) (kwargs a)])) /\
  exists arr rays rest,
    trace w2 = trace w ++ CallParseGatefilter :: CallCreateVolume arr rays 1 :: rest.
Proof.
  intros Hav Hsrc Hv Hs He. split.
  - rewrite (dealias_fourdd_run E a w vel last w1 sound w2 Hav Hv Hs Hsrc).
    destruct (debug a); rewrite He; reflexivity.
  - destruct (dealias_volumes_trace E a w vel last w1 Hv) as (arr & rays & rest & Ht1).
    destruct (dealias_soundvolume_trace E a vel w1 _ w2 Hs) as (_ & k & Ht2).
    exists arr, rays, (rest ++ k). rewrite Ht2, Ht1, <- app_assoc. reflexivity.
Qed.

Lemma engine_error_comes_after_volumes_witness :
  exists w',
    kwargs Demo.args_mincount !! "ba_mincount" = Some (PyInt 0) /\
    dealias_fourdd Demo.collaborators Demo.args_mincount Demo.world1
    = (Raise Demo.range_error, w').
Proof.
  eexists. split; [reflexivity|].
  refine (proj1 (engine_error_comes_after_volumes Demo.collaborators
                   Demo.args_mincount Demo.world1 _ _ _ _ _ Demo.range_error
                   eq_refl (or_intror _) _ _ _)).
  - discriminate.
  - vm_compute. reflexivity.
  - vm_compute. reflexivity.
  - vm_compute. reflexivity.
Defined.

(** C8, as the claim has it, fails with [ba_mincount=0]: when the range
    error is raised, the gate filter has been parsed and both volumes have
    been built. *)
Lemma range_error_comes_after_volumes :
  exists w' arr rays,
    kwargs Demo.args_mincount !! "ba_mincount" = Some (PyInt 0) /\
    dealias_fourdd Demo.collaborators Demo.args_mincount Demo.world1
    = (Raise Demo.range_error, w') /\
    firstn 3 (trace w')
    = [CallParseGatefilter; CallCreateVolume arr rays 1; CallLabelVolume].
Proof.
  do 3 eexists. split; [reflexivity|]. split.
  - vm_compute. reflexivity.
  - vm_compute. reflexivity.
Qed.

(* ===================================================================== *)
(** * The output *)
(* ===================================================================== *)

(** C4.  A call that has built its volumes and whose engine returns a raw
    array returns the field made of it.  A gate is bad exactly when its raw
    value is NaN or equal to the bad value.  With [keep_original] false a bad
    gate is set to the fill value and any other gate keeps its raw value;
    with [keep_original] true a bad gate takes what the field of the radar
    stores there (the field must have the shape of the raw array).  In both
    cases the mask of a gate says whether the value the gate now has equals
    the fill value, so that a raw value equal to the fill value is masked as
    well as a bad gate set to it; and the fill value is the one of the
    masked array and the ['_FillValue'] of the field.  (The bad value is
    compared in the element type of the raw array, the fill value in the
    one of the output.) *)
Theorem dealias_fourdd_masks_bad_gates (E : Collaborators) (a : Args)
    (w w1 w2 : world) (vel : RslVolume) (last sound : option RslVolume)
    (flag : Z) (data : ndarray) :
  _FOURDD_AVAILABLE E = true ->
  sounding_available a = true \/ last_radar a <> None ->
  debug a = false ->
  dealias_volumes E a w = (Ok (vel, last), w1) ->
  dealias_soundvolume E a vel w1 = (Ok sound, w2) ->
  fourdd_dealias E vel last sound (filt a) (kwargs a) = inr (flag, data) ->
  (keep_original a = true ->
   forall l o, fields (radar a) !! vel_field_name E a = Some l ->
     heap w !! l = Some o ->
     shape (nd_data (getdata o)) = shape (nd_data data)) ->
  exists vr_corr l o,
    dealias_fourdd E a w
    = (Ok (RetField vr_corr),
       World (heap w2)
         (trace w2 ++ [CallFourddDealias vel last sound (filt a) false (kwargs a)])) /\
    fields (radar a) !! vel_field_name E a = Some l /\
    heap w !! l = Some o /\
    let dt := if keep_original a
              then promote_types (nd_dtype (getdata o)) (nd_dtype data)
              else nd_dtype data in
    let bad := cast (nd_dtype data) (rsl_badval a) in
    let fill := cast dt (get_fillvalue E) in
    nd_dtype (ma_data (fd_data vr_corr)) = dt /\
    fd_FillValue vr_corr = fill /\
    ma_fill_value (fd_data vr_corr) = fill /\
    forall i j x, gate (nd_data data) i j = Some x ->
      exists y m,
        gate (is_bad_data data (rsl_badval a)) i j
        = Some (Float.is_nan x || SFeqb x bad) /\
        gate (nd_data (ma_data (fd_data vr_corr))) i j = Some y /\
        gate (ma_mask (fd_data vr_corr)) i j = Some m /\
        m = SFeqb y fill /\
        (if keep_original a
         then exists v, gate (nd_data (getdata o)) i j = Some v /\
                y = cast dt (if Float.is_nan x || SFeqb x bad then v else x)
         else y = (if Float.is_nan x || SFeqb x bad then fill else x)) /\
        (keep_original a = false -> SFeqb x fill = true -> m = true) /\
        (keep_original a = false -> Float.is_nan fill = false ->
         Float.is_nan x || SFeqb x bad = true -> m = true).
Proof.
  intros Hav Hsrc Hdbg Hv Hs He Hshape.
  rewrite (dealias_fourdd_reaches_output E a w vel last w1 sound w2 flag data
             Hav Hv Hs Hsrc Hdbg He).
  set (w3 := World (heap w2)
               (trace w2 ++ [CallFourddDealias vel last sound (filt a) false (kwargs a)])).
  pose proof (dealias_volumes_unchanged E a w _ w1 Hv) as Hu.
  destruct (dealias_soundvolume_trace E a vel w1 _ w2 Hs) as [Hh _].
  apply dealias_volumes_inv in Hv as (g & w0 & _ & Hvel & _).
  apply create_rsl_volume_inv in Hvel
    as [[_ [e Hex]]|(l & o & Hf & Ho & _)]; [discriminate Hex|].
  simpl in Ho.
  assert (Ho3 : heap w3 !! l = Some o).
  { simpl. rewrite Hh, (Hu l); [exact Ho|]. apply elem_of_dom. eauto. }
  assert (Hbad : forall i j x, gate (nd_data data) i j = Some x ->
            gate (is_bad_data data (rsl_badval a)) i j
            = Some (Float.is_nan x
                    || SFeqb x (cast (nd_dtype data) (rsl_badval a)))).
  { intros i j x Hx. rewrite gate_is_bad_data, Hx. reflexivity. }
  destruct (keep_original a) eqn:Hk.
  - rewrite (dealias_output_keep E a data w3 l o Hk Hf Ho3).
    destruct (Np.where_ (is_bad_data data (rsl_badval a)) (getdata o) data)
      as [e|d] eqn:Hw.
    { exfalso. unfold Np.where_ in Hw.
      rewrite decide_True in Hw; [discriminate Hw|].
      split; [apply shape_is_bad_data|exact (Hshape eq_refl l o Hf Ho)]. }
    eexists. exists l, o. split; [reflexivity|].
    split; [exact Hf|]. split; [exact Ho|].
    apply where_inr in Hw as (Hdt & Hg). simpl.
    split; [exact Hdt|]. split; [rewrite Hdt; reflexivity|].
    split; [rewrite Hdt; reflexivity|].
    intros i j x Hx. destruct (Hg i j x Hx) as (b & v & Hb & Hvx & Hy).
    rewrite (Hbad i j x Hx) in Hb. injection Hb as <-.
    rewrite Hdt in Hy.
    eexists. eexists. split; [apply (Hbad i j x Hx)|].
    split; [exact Hy|]. split.
    { rewrite gate_equal, Hy, Hdt. reflexivity. }
    split; [reflexivity|]. split; [exists v; split; [exact Hvx|reflexivity]|].
    split; discriminate.
  - destruct (dealias_output_fill E a data w3 Hk) as (d & Hd & Hrun).
    eexists. exists l, o. split; [exact Hrun|].
    split; [exact Hf|]. split; [exact Ho|].
    apply (setitem_fits_inr _ _ _ _ (shape_is_bad_data _ _)) in Hd as (Hdt & _ & Hg).
    simpl. split; [exact Hdt|]. split; [rewrite Hdt; reflexivity|].
    split; [rewrite Hdt; reflexivity|].
    intros i j x Hx. destruct (Hg i j x Hx) as (b & Hb & Hy).
    rewrite (Hbad i j x Hx) in Hb. injection Hb as <-.
    set (bad := cast (nd_dtype data) (rsl_badval a)) in *.
    set (fill := cast (nd_dtype data) (get_fillvalue E)) in *.
    exists (if Float.is_nan x || SFeqb x bad then fill else x).
    exists (SFeqb (if Float.is_nan x || SFeqb x bad then fill else x) fill).
    split; [apply (Hbad i j x Hx)|]. split; [exact Hy|]. split.
    { rewrite gate_equal, Hy, Hdt. reflexivity. }
    split; [reflexivity|]. split; [reflexivity|]. split.
    + intros _ Hfl. destruct (Float.is_nan x || SFeqb x bad); [|exact Hfl].
      apply SFeqb_refl. apply (SFeqb_true_not_nan x fill Hfl).
    + intros _ Hfill ->. apply SFeqb_refl, Hfill.
Qed.

Lemma dealias_fourdd_masks_bad_gates_witness :
  exists vr_corr w',
    dealias_fourdd Demo.collaborators Demo.args_fill Demo.world1
    = (Ok (RetField vr_corr), w') /\
    nd_data (ma_data (fd_data vr_corr))
    = [ [cast float32 (Demo.v 3); cast float32 Demo.fill; Float.pos_inf];
        [cast float32 Demo.fill; cast float32 (Demo.v (-7)); cast float32 (Demo.v 12)] ] /\
    ma_mask (fd_data vr_corr) = [ [false; true; false]; [true; false; false] ].
Proof.
  assert (Hv : dealias_volumes Demo.collaborators Demo.args_fill Demo.world1
               = (Ok (?[vel], ?[last]), ?[w1])) by (vm_compute; reflexivity).
  destruct (dealias_fourdd_masks_bad_gates Demo.collaborators Demo.args_fill
              Demo.world1 _ _ _ _ None 1 _ eq_refl (or_intror (Some_ne_None _))
              eq_refl Hv eq_refl eq_refl (fun H => False_ind _ (Bool.diff_false_true H)))
    as (vr_corr & l & o & Hrun & _).
  exists vr_corr. eexists. split; [exact Hrun|].
  vm_compute in Hrun. injection Hrun as <-. vm_compute. split; reflexivity.
Defined.

(** With [keep_original] true a bad gate takes what the field of the radar
    stores there; a NaN stored there is in the output, and its gate is not
    masked. *)
Lemma dealias_output_keeps_nan (E : Collaborators) (a : Args) (data d : ndarray)
    (w : world) (l : positive) (o : array) (i j : nat) (x : spec_float) :
  keep_original a = true ->
  fields (radar a) !! vel_field_name E a = Some l ->
  heap w !! l = Some o ->
  Np.where_ (is_bad_data data (rsl_badval a))
    (getdata o) data = inr d ->
  gate (nd_data data) i j = Some x ->
  Float.is_nan x || SFeqb x (cast (nd_dtype data) (rsl_badval a)) = true ->
  gate (nd_data (getdata o)) i j = Some S754_nan ->
  dealias_output E a data w = (Ok (field_of E a d), w) /\
  gate (nd_data d) i j = Some S754_nan /\
  gate (Np.equal d (get_fillvalue E)) i j = Some false.
Proof.
  intros Hk Hf Ho Hw Hx Hbad Hnan.
  rewrite (dealias_output_keep E a data w l o Hk Hf Ho), Hw.
  split; [reflexivity|].
  apply where_inr in Hw as (_ & Hg).
  destruct (Hg i j x Hx) as (b & vx & Hb & Hvx & Hd).
  rewrite gate_is_bad_data, Hx in Hb. simpl in Hb. injection Hb as <-.
  rewrite Hbad in Hd. rewrite Hnan in Hvx. injection Hvx as <-.
  assert (Hc : cast (nd_dtype d) S754_nan = S754_nan) by (destruct (nd_dtype d); reflexivity).
  rewrite Hc in Hd. split; [exact Hd|].
  rewrite gate_equal, Hd. reflexivity.
Qed.

(** C3 on a run.  The velocity of gate 1 of ray 0 is NaN, the engine gives
    the bad value for it, and [keep_original] is true: the output holds NaN
    at the gate and the mask is false there, while the docstring has NaN
    values masked all the same. *)
Theorem keep_original_leaves_nan_unmasked :
  exists (vr_corr : FieldDict) (w' : world),
    keep_original Demo.args_keep = true /\
    gate (nd_data Demo.velocities) 0 1 = Some S754_nan /\
    dealias_fourdd Demo.collaborators Demo.args_keep Demo.world1
    = (Ok (RetField vr_corr), w') /\
    gate (nd_data (ma_data (fd_data vr_corr))) 0 1 = Some S754_nan /\
    gate (ma_mask (fd_data vr_corr)) 0 1 = Some false.
Proof.
  do 2 eexists. split; [reflexivity|]. split; [reflexivity|]. split.
  - vm_compute. reflexivity.
  - split; reflexivity.
Qed.

(** A masked gate of the field: [np.copy] leaves the mask behind, so the
    gate goes into the volume with what the data buffer holds. *)
Example masked_gate_enters_volume :
  exists vol : RslVolume,
    fst (_create_rsl_volume Demo.collaborators Demo.radar1 "velocity" 1 Demo.badval
           None Demo.world_masked) = Ok vol /\
    gate (ma_mask Demo.masked_velocities) 0 0 = Some true /\
    gate (volume_rays vol) 0 0 = Some (cast float32 (Demo.v 3)) /\
    cast float32 (Demo.v 3) <> cast float32 Demo.badval.
Proof.
  eexists. split; [vm_compute; reflexivity|].
  split; [reflexivity|]. split; [reflexivity|]. vm_compute. discriminate.
Qed.

(* ===================================================================== *)
(** * The nearest sounding time *)
(* ===================================================================== *)

Lemma argmin_from_spec (l : list Z) : forall (pre : list Z) (bi : nat) (b : Z),
  pre !! bi = Some b ->
  (forall j u, pre !! j = Some u -> b <= u) ->
  (forall j u, (j < bi)%nat -> pre !! j = Some u -> b < u) ->
  exists m,
    (pre ++ l) !! argmin_from bi b (length pre) l = Some m /\
    (forall j u, (pre ++ l) !! j = Some u -> m <= u) /\
    (forall j u, (j < argmin_from bi b (length pre) l)%nat ->
       (pre ++ l) !! j = Some u -> m < u).
Proof.
  induction l as [|x r IH]; intros pre bi b Hb Hmin Hfirst; simpl.
  - rewrite app_nil_r. eauto.
  - assert (Hlen : length (pre ++ [x]) = S (length pre))
      by (rewrite length_app; simpl; lia).
    assert (Hsplit : pre ++ x :: r = (pre ++ [x]) ++ r)
      by (rewrite <- app_assoc; reflexivity).
    assert (Hlook : forall j u, (pre ++ [x]) !! j = Some u ->
              pre !! j = Some u \/ (j = length pre /\ u = x)).
    { intros j u Hj. destruct (decide (j < length pre)%nat) as [Hlt|Hge].
      - left. rewrite lookup_app_l in Hj by exact Hlt. exact Hj.
      - right. rewrite lookup_app_r in Hj by lia.
        destruct (j - length pre)%nat as [|k] eqn:Hk; simpl in Hj.
        + injection Hj as <-. split; [lia|reflexivity].
        + rewrite lookup_nil in Hj. discriminate. }
    rewrite Hsplit, <- Hlen.
    destruct (x <? b) eqn:Hx.
    + apply Z.ltb_lt in Hx. apply IH.
      * rewrite lookup_app_r by lia. rewrite Nat.sub_diag. reflexivity.
      * intros j u Hj. destruct (Hlook j u Hj) as [Hp|[_ ->]]; [|lia].
        specialize (Hmin j u Hp). lia.
      * intros j u Hlt Hj. destruct (Hlook j u Hj) as [Hp|[-> _]]; [|lia].
        specialize (Hmin j u Hp). lia.
    + apply Z.ltb_ge in Hx. apply IH.
      * rewrite lookup_app_l by (eapply lookup_lt_Some, Hb). exact Hb.
      * intros j u Hj. destruct (Hlook j u Hj) as [Hp|[_ ->]]; [|exact Hx].
        apply (Hmin j u Hp).
      * intros j u Hlt Hj. destruct (Hlook j u Hj) as [Hp|[-> _]].
        -- apply (Hfirst j u Hlt Hp).
        -- apply lookup_lt_Some in Hb. lia.
Qed.

Lemma np_argmin_spec (l : list Z) (idx : nat) :
  np_argmin l = inr idx ->
  exists m,
    l !! idx = Some m /\
    (forall j u, l !! j = Some u -> m <= u) /\
    (forall j u, (j < idx)%nat -> l !! j = Some u -> m < u).
Proof.
  destruct l as [|x r]; [discriminate|]. intros [= <-].
  apply (argmin_from_spec r [x] 0%nat x).
  - reflexivity.
  - intros [|j] u Hj; simpl in Hj; [injection Hj as <-; lia|].
    rewrite lookup_nil in Hj. discriminate.
  - intros j u Hlt. lia.
Qed.

Section SondeFacts.

Variable datetimes_from_dataset : InterpSonde -> exn + list Z.

(** X1. When [find_time_in_interp_sonde] returns, the speeds and directions
    are the rows of [wspd] and [wdir] at one index, and the time at that index
    is nearest to the target: no time of the dataset is nearer, and every
    earlier time is farther off (of equally near times the first is taken).
    The heights are the whole [height] variable. *)
Theorem find_time_returns_nearest (s : InterpSonde) (target : Z) (debug : bool)
    (times : list Z) (out : list printed)
    (height : sonde_variable) (speed direction : list spec_float) :
  datetimes_from_dataset s = inr times ->
  find_time_in_interp_sonde datetimes_from_dataset s target debug
  = (out, inr (height, speed, direction)) ->
  exists idx t wspd wdir,
    times !! idx = Some t /\
    (forall j u, times !! j = Some u -> Z.abs (t - target) <= Z.abs (u - target)) /\
    (forall j u, (j < idx)%nat -> times !! j = Some u ->
       Z.abs (t - target) < Z.abs (u - target)) /\
    sonde_variables s !! "height" = Some height /\
    sonde_variables s !! "wspd" = Some (Sonde2d wspd) /\ wspd !! idx = Some speed /\
    sonde_variables s !! "wdir" = Some (Sonde2d wdir) /\ wdir !! idx = Some direction /\
    out = (if debug then [PrintTarget target; PrintSounding (Some t)] else []).
Proof.
  intros Ht Hrun. unfold find_time_in_interp_sonde in Hrun. rewrite Ht in Hrun.
  destruct (np_argmin _) as [e|idx] eqn:Harg; [discriminate Hrun|].
  apply np_argmin_spec in Harg as (m & Hm & Hmin & Hfirst).
  rewrite list_lookup_fmap in Hm.
  destruct (times !! idx) as [t|] eqn:Hidx; [|discriminate Hm].
  simpl in Hm. injection Hm as <-.
  injection Hrun as Hout Hres.
  unfold sonde_variable_named in Hres.
  destruct (sonde_variables s !! "height") as [h|]; [|discriminate Hres].
  destruct (sonde_variables s !! "wspd") as [[?|wspd]|]; try discriminate Hres.
  simpl in Hres.
  destruct (wspd !! idx) as [sp|] eqn:Hsp; [|discriminate Hres].
  destruct (sonde_variables s !! "wdir") as [[?|wdir]|]; try discriminate Hres.
  simpl in Hres.
  destruct (wdir !! idx) as [dr|] eqn:Hdr; [|discriminate Hres].
  injection Hres as <- <- <-.
  exists idx, t, wspd, wdir. split; [exact Hidx|].
  split.
  { intros j u Hj. apply (Hmin j). rewrite list_lookup_fmap, Hj. reflexivity. }
  split.
  { intros j u Hlt Hj. apply (Hfirst j); [exact Hlt|].
    rewrite list_lookup_fmap, Hj. reflexivity. }
  repeat split; try assumption; try reflexivity.
  symmetry. exact Hout.
Qed.

(** X2. With the three variables there, [wspd] and [wdir] having a row for
    each time, the call returns exactly when the dataset has a time; without
    one it raises the ValueError of [argmin], and prints nothing. *)
Theorem find_time_returns_iff (s : InterpSonde) (target : Z) (debug : bool)
    (times : list Z) (height : sonde_variable)
    (wspd wdir : list (list spec_float)) :
  datetimes_from_dataset s = inr times ->
  sonde_variables s !! "height" = Some height ->
  sonde_variables s !! "wspd" = Some (Sonde2d wspd) ->
  sonde_variables s !! "wdir" = Some (Sonde2d wdir) ->
  (length times <= length wspd)%nat ->
  (length times <= length wdir)%nat ->
  (times <> [] ->
   exists out speed direction,
     find_time_in_interp_sonde datetimes_from_dataset s target debug
     = (out, inr (height, speed, direction))) /\
  (times = [] ->
   find_time_in_interp_sonde datetimes_from_dataset s target debug
   = ([], inl (Exn ValueError "attempt to get argmin of an empty sequence"))).
Proof.
  intros Ht Hh Hs Hd Hls Hld. unfold find_time_in_interp_sonde. rewrite Ht.
  split.
  - intros Hne.
    destruct (np_argmin _) as [e|idx] eqn:Harg.
    { destruct times; [congruence|discriminate Harg]. }
    apply np_argmin_spec in Harg as (m & Hm & _).
    apply lookup_lt_Some in Hm. rewrite length_map in Hm.
    unfold sonde_variable_named. rewrite Hh, Hs, Hd. cbn [sonde_row].
    destruct (lookup_lt_is_Some_2 wspd idx) as [sp Hsp]; [lia|].
    destruct (lookup_lt_is_Some_2 wdir idx) as [dr Hdr]; [lia|].
    rewrite Hsp, Hdr. eauto.
  - intros ->. reflexivity.
Qed.

End SondeFacts.

Lemma find_time_returns_nearest_witness :
  exists idx t wspd wdir,
    Sample.times !! idx = Some t /\
    (forall j u, Sample.times !! j = Some u -> Z.abs (t - 25) <= Z.abs (u - 25)) /\
    (forall j u, (j < idx)%nat -> Sample.times !! j = Some u ->
       Z.abs (t - 25) < Z.abs (u - 25)) /\
    sonde_variables Sample.sonde !! "height" = Some (Sonde1d [Demo.v 0; Demo.v 100]) /\
    sonde_variables Sample.sonde !! "wspd" = Some (Sonde2d wspd) /\
    wspd !! idx = Some [Demo.v 3; Demo.v 4] /\
    sonde_variables Sample.sonde !! "wdir" = Some (Sonde2d wdir) /\
    wdir !! idx = Some [Demo.v 180; Demo.v 185] /\
    [PrintTarget 25; PrintSounding (Some 20)]
    = [PrintTarget 25; PrintSounding (Some t)].
Proof.
  apply (find_time_returns_nearest Sample.datetimes Sample.sonde 25 true
           Sample.times [PrintTarget 25; PrintSounding (Some 20)]
           (Sonde1d [Demo.v 0; Demo.v 100])
           [Demo.v 3; Demo.v 4] [Demo.v 180; Demo.v 185]).
  - reflexivity.
  - vm_compute. reflexivity.
Defined.

Lemma find_time_returns_iff_witness :
  exists out speed direction,
    find_time_in_interp_sonde Sample.datetimes Sample.sonde 25 true
    = (out, inr (Sonde1d [Demo.v 0; Demo.v 100], speed, direction)).
Proof.
  refine (proj1 (find_time_returns_iff Sample.datetimes Sample.sonde 25 true
                   Sample.times (Sonde1d [Demo.v 0; Demo.v 100]) _ _
                   eq_refl _ _ _ _ _) _).
  - vm_compute. reflexivity.
  - vm_compute. reflexivity.
  - vm_compute. reflexivity.
  - simpl. lia.
  - simpl. lia.
  - discriminate.
Defined.

(* ===================================================================== *)
(** * More on the volume builder and the pipeline *)
(* ===================================================================== *)

Section MoreVolumeFacts.

Variable E : Collaborators.

(** X3. A mask that has not the shape of the field.  When an axis of the
    mask that is not of length 0 differs from the field's (the mask has an
    element, or it has rows, but not as many as the field), the call raises
    IndexError before [create_volume] is called, and the arrays that were
    there are untouched.  When only axes of length 0 differ, nothing is
    raised for the mask: it has no element, and the call comes to the result
    and the calls of the call without a mask. *)
Theorem create_rsl_volume_mask_shape (radar : Radar) (field_name : string)
    (vol_num : Z) (rsl_badval : spec_float) (ex : list (list bool))
    (w : world) (l : positive) (o : array) :
  fields radar !! field_name = Some l ->
  heap w !! l = Some o ->
  shape ex <> shape (nd_data (getdata o)) ->
  if decide (concat ex = [] /\
             (ex = [] \/ length ex = length (nd_data (getdata o))))
  then
    exists r w1 w2,
      _create_rsl_volume E radar field_name vol_num rsl_badval (Some ex) w = (r, w1) /\
      _create_rsl_volume E radar field_name vol_num rsl_badval None w = (r, w2) /\
      trace w1 = trace w2 /\
      heap w1 !! l = Some o
  else
    exists msg w',
      _create_rsl_volume E radar field_name vol_num rsl_badval (Some ex) w
      = (Raise (Exn IndexError msg), w') /\
      trace w' = trace w /\
      heap w' !! l = Some o.
Proof.
  intros Hf Ho Hs.
  destruct (create_rsl_volume_run E radar field_name vol_num rsl_badval (Some ex)
              w l o Hf Ho) as (w' & Hrun & Hu & Ht).
  assert (Hl : heap w' !! l = Some o).
  { rewrite (Hu l); [exact Ho|]. apply elem_of_dom. eauto. }
  destruct (setitem_fits (Np.astype float32 (getdata o))
              (Np.logical_or (Np.equal (Np.astype float32 (getdata o)) (get_fillvalue E))
                 (Np.isnan (Np.astype float32 (getdata o)))) rsl_badval
              (shape_is_bad _ _)) as [a1 H1].
  assert (Hs1 : shape (nd_data a1) = shape (nd_data (getdata o))).
  { apply setitem_inr in H1 as (_ & Hs1 & _).
    rewrite Hs1. unfold Np.astype. simpl. apply shape_map. }
  assert (Hex : Np.setitem a1 ex rsl_badval
                = if decide (concat ex = [] /\
                             (ex = [] \/ length ex = length (nd_data (getdata o))))
                  then inr a1
                  else inl (Exn IndexError "boolean index did not match indexed array")).
  { unfold Np.setitem. rewrite decide_False by (rewrite Hs1; exact Hs).
    rewrite (shape_length _ _ Hs1). reflexivity. }
  destruct (decide _) as [Hempty|Hdiff].
  - destruct (create_rsl_volume_run E radar field_name vol_num rsl_badval None
                w l o Hf Ho) as (w2 & Hrun2 & _ & Ht2).
    assert (Heq : volume_outcome (get_fillvalue E) rsl_badval o (Some ex) radar vol_num
                  = volume_outcome (get_fillvalue E) rsl_badval o None radar vol_num).
    { unfold volume_outcome, prepared. rewrite H1, Hex. reflexivity. }
    rewrite Heq in Hrun, Ht. eexists. exists w', w2.
    split; [exact Hrun|]. split; [exact Hrun2|].
    split; [rewrite Ht, Ht2; reflexivity|exact Hl].
  - assert (Hp : prepared (get_fillvalue E) rsl_badval o (Some ex)
                 = inl (Exn IndexError "boolean index did not match indexed array")).
    { unfold prepared. rewrite H1. exact Hex. }
    unfold volume_outcome in Hrun, Ht. rewrite Hp in Hrun, Ht. simpl in Hrun, Ht.
    eexists. exists w'. split; [exact Hrun|]. split; [|exact Hl].
    rewrite Ht. apply app_nil_r.
Qed.

(** X4. [dealias_fourdd] writes to no array that was there before the call:
    the fields of the radar and of the last radar hold after the call what
    they held before, whether it returns or raises, with [keep_original] or
    without. *)
Theorem dealias_fourdd_leaves_arrays (a : Args) (w : world) (l : positive)
    (o : array) :
  heap w !! l = Some o ->
  heap (snd (dealias_fourdd E a w)) !! l = Some o.
Proof.
  intros Ho.
  assert (Hu : unchanged w (snd (dealias_fourdd E a w))).
  { destruct (dealias_fourdd E a w) as [r w'] eqn:Hrun. simpl.
    unfold dealias_fourdd in Hrun.
    destruct (negb (_FOURDD_AVAILABLE E)).
    { injection Hrun as _ <-. apply unchanged_refl. }
    destruct (negb (sounding_available a) && bool_decide (last_radar a = None)).
    { injection Hrun as _ <-. apply unchanged_refl. }
    apply bind_inv in Hrun as [(vols & w1 & Hv & Hrun)|(e & Hv & _)].
    2:{ apply (dealias_volumes_unchanged _ _ _ _ _ Hv). }
    apply dealias_volumes_unchanged in Hv.
    apply bind_inv in Hrun as [(sound & w2 & Hs & Hrun)|(e & Hs & _)].
    2:{ apply dealias_soundvolume_trace in Hs as [Hh _].
        intros k Hk. rewrite Hh. apply (Hv k Hk). }
    apply dealias_soundvolume_trace in Hs as [Hh _].
    unfold bind at 1, log at 1 in Hrun. cbv beta iota in Hrun.
    apply engine_phase_world in Hrun. subst w'. simpl.
    intros k Hk. rewrite Hh. apply (Hv k Hk). }
  rewrite (Hu l); [exact Ho|]. apply elem_of_dom. eauto.
Qed.

End MoreVolumeFacts.

Lemma create_rsl_volume_mask_shape_witness :
  exists msg w',
    _create_rsl_volume Demo.collaborators Demo.radar1 "velocity" 1 Demo.badval
      (Some [ [true] ]) Demo.world1
    = (Raise (Exn IndexError msg), w') /\
    trace w' = trace Demo.world1 /\
    heap w' !! 1%positive = Some (Plain Demo.velocities).
Proof.
  refine (create_rsl_volume_mask_shape Demo.collaborators Demo.radar1 "velocity" 1
            Demo.badval [ [true] ] Demo.world1 1%positive (Plain Demo.velocities)
            eq_refl eq_refl _).
  vm_compute. discriminate.
Defined.

Lemma dealias_fourdd_leaves_arrays_witness :
  heap Demo.world1 !! 1%positive = Some (Plain Demo.velocities) /\
  heap (snd (dealias_fourdd Demo.collaborators Demo.args_keep Demo.world1))
    !! 1%positive
  = Some (Plain Demo.velocities).
Proof.
  split; [reflexivity|].
  apply (dealias_fourdd_leaves_arrays Demo.collaborators Demo.args_keep
           Demo.world1 1%positive (Plain Demo.velocities)).
  reflexivity.
Defined.

Section MorePipelineFacts.

Variable E : Collaborators.

(** X5. The velocity field is missing: the call raises KeyError with its name
    when the gate filter has been parsed; no volume is built, and neither the
    synthesis nor the engine is called. *)
Theorem dealias_fourdd_missing_field (a : Args) (w : world) (g : GateFilter) :
  _FOURDD_AVAILABLE E = true ->
  sounding_available a = true \/ last_radar a <> None ->
  _parse_gatefilter E (gatefilter a) (radar a) (kwargs a) (heap w) = inr g ->
  fields (radar a) !! vel_field_name E a = None ->
  dealias_fourdd E a w
  = (Raise (Exn KeyError (vel_field_name E a)),
     World (heap w) (trace w ++ [CallParseGatefilter])).
Proof.
  intros Hav Hsrc Hg Hf. unfold dealias_fourdd. rewrite Hav.
  change (negb true) with false. cbv iota.
  assert (Hc : negb (sounding_available a) && bool_decide (last_radar a = None) = false).
  { destruct Hsrc as [->|Hl]; [reflexivity|].
    rewrite (bool_decide_eq_false_2 _ Hl). apply andb_false_r. }
  rewrite Hc. cbv iota. apply bind_raise. unfold dealias_volumes.
  rewrite (bind_ok get_heap _ w (heap w) w eq_refl).
  rewrite (bind_ok (log CallParseGatefilter) _ w tt
             (World (heap w) (trace w ++ [CallParseGatefilter])) eq_refl).
  rewrite Hg. rewrite (bind_ok (lift (inr g)) _ _ g _ eq_refl).
  apply bind_raise. unfold _create_rsl_volume, field_data. rewrite Hf.
  apply bind_raise. reflexivity.
Qed.

(** What stands behind a volume that was built. *)
Lemma create_rsl_volume_ok radar f n bad excluded w v w1 :
  _create_rsl_volume E radar f n bad excluded w = (Ok v, w1) ->
  exists l o arr rays v0,
    fields radar !! f = Some l /\ heap w !! l = Some o /\
    prepared (get_fillvalue E) bad o excluded = inr arr /\
    rays_per_sweep radar = inr rays /\
    RslInterface.create_volume arr rays n = inr v0 /\
    v = RslInterface._label_volume v0 radar /\
    unchanged w w1 /\
    trace w1 = trace w ++ [CallCreateVolume arr rays n; CallLabelVolume].
Proof.
  intros H.
  apply create_rsl_volume_inv in H
    as [[_ [e He]]|(l & o & Hf & Ho & Hr & Hu & Ht)]; [discriminate He|].
  destruct (volume_outcome_ok _ _ _ _ _ _ _ (eq_sym Hr))
    as (arr & rays & v0 & Hp & Hrays & Hc & -> & Hev).
  rewrite Hev in Ht. exists l, o, arr, rays, v0. auto 10.
Qed.

(** X6. What a call that returns has called, in order and with what: the
    gate filter parser; [create_volume] on the prepared array of the
    velocity field (with the mask of the gate filter) and on the rays per
    sweep of the radar, then [_label_volume]; the same two for the field of
    the last radar, without a mask, if a last radar is given;
    [create_soundvolume] on the velocity volume and the float32 soundings,
    if all three are given, which did not report [success == 0]; and last
    the engine, once, with the volumes these calls returned, [filt], [debug]
    and the keyword arguments as they came.  (The field of the last radar is
    taken to be an object of the world of the call.) *)
Theorem dealias_fourdd_call_order (a : Args) (w w' : world) (r : retval) :
  (forall lr l, last_radar a = Some lr ->
     fields lr !! last_vel_field_name E a = Some l -> is_Some (heap w !! l)) ->
  dealias_fourdd E a w = (Ok r, w') ->
  exists g l o arr rays vel0 last last_events sound sound_events,
    _parse_gatefilter E (gatefilter a) (radar a) (kwargs a) (heap w) = inr g /\
    fields (radar a) !! vel_field_name E a = Some l /\
    heap w !! l = Some o /\
    prepared (get_fillvalue E) (rsl_badval a) o (Some (gate_excluded g)) = inr arr /\
    rays_per_sweep (radar a) = inr rays /\
    RslInterface.create_volume arr rays 1 = inr vel0 /\
    let vel := RslInterface._label_volume vel0 (radar a) in
    match last_radar a with
    | Some lr =>
        exists l' o' arr' rays' last0,
          fields lr !! last_vel_field_name E a = Some l' /\
          heap w !! l' = Some o' /\
          prepared (get_fillvalue E) (rsl_badval a) o' None = inr arr' /\
          rays_per_sweep lr = inr rays' /\
          RslInterface.create_volume arr' rays' 1 = inr last0 /\
          last = Some (RslInterface._label_volume last0 lr) /\
          last_events = [CallCreateVolume arr' rays' 1; CallLabelVolume]
    | None => last = None /\ last_events = []
    end /\
    match sounding_heights a, sounding_wind_speeds a, sounding_wind_direction a with
    | Some h, Some s, Some d =>
        exists success,
          create_soundvolume E vel (map (cast float32) h) (map (cast float32) s)
            (map (cast float32) d) (sign a) (max_shear a) = inr (success, sound) /\
          success <> 0 /\
          sound_events
          = [CallCreateSoundvolume vel (map (cast float32) h) (map (cast float32) s)
               (map (cast float32) d) (sign a) (max_shear a)]
    | _, _, _ => sound = None /\ sound_events = []
    end /\
    (if debug a
     then exists vols,
            fourdd_dealias_debug E vel last sound (filt a) (kwargs a) = inr vols /\
            r = RetDebug vols
     else exists flag data,
            fourdd_dealias E vel last sound (filt a) (kwargs a) = inr (flag, data) /\
            dealias_output E a data w' = (Ok r, w')) /\
    trace w'
    = trace w
      ++ [CallParseGatefilter; CallCreateVolume arr rays 1; CallLabelVolume]
      ++ last_events ++ sound_events
      ++ [CallFourddDealias vel last sound (filt a) (debug a) (kwargs a)].
Proof.
  intros Hwf Hrun. unfold dealias_fourdd in Hrun.
  destruct (negb (_FOURDD_AVAILABLE E)); [discriminate Hrun|].
  destruct (negb (sounding_available a) && bool_decide (last_radar a = None));
    [discriminate Hrun|].
  apply bind_inv in Hrun as [([vel last] & w1 & Hv & Hrun)|(e & _ & He)];
    [|discriminate He].
  simpl fst in Hrun. simpl snd in Hrun.
  apply bind_inv in Hrun as [(sound & w2 & Hs & Hrun)|(e & _ & He)];
    [|discriminate He].
  unfold bind at 1, log at 1 in Hrun. cbv beta iota in Hrun.
  pose proof (engine_phase_world E a vel last sound _ _ _ Hrun) as Hw'.
  apply dealias_volumes_inv in Hv as (g & w0 & Hg & Hvel & Hlast).
  apply create_rsl_volume_ok in Hvel
    as (l & o & arr & rays & vel0 & Hf & Ho & Hp & Hrays & Hc & Hvel & Hu0 & Ht0).
  simpl in Ho, Ht0. subst vel.
  set (vel := RslInterface._label_volume vel0 (radar a)) in *.
  assert (Hlast' : exists last_events,
    match last_radar a with
    | Some lr =>
        exists l' o' arr' rays' last0,
          fields lr !! last_vel_field_name E a = Some l' /\
          heap w !! l' = Some o' /\
          prepared (get_fillvalue E) (rsl_badval a) o' None = inr arr' /\
          rays_per_sweep lr = inr rays' /\
          RslInterface.create_volume arr' rays' 1 = inr last0 /\
          last = Some (RslInterface._label_volume last0 lr) /\
          last_events = [CallCreateVolume arr' rays' 1; CallLabelVolume]
    | None => last = None /\ last_events = []
    end /\
    trace w1 = trace w0 ++ last_events).
  { destruct (last_radar a) as [lr|] eqn:Hlr.
    - destruct Hlast as (lv & Hlv & ->).
      apply create_rsl_volume_ok in Hlv
        as (l' & o' & arr' & rays' & last0 & Hf' & Ho' & Hp' & Hrays' & Hc' & -> & _ & Ht1).
      eexists. split; [|exact Ht1].
      exists l', o', arr', rays', last0. repeat split; try assumption.
      destruct (Hwf lr l' eq_refl Hf') as [x Hx].
      rewrite (Hu0 l') in Ho' by (apply elem_of_dom; simpl; eauto).
      exact Ho'.
    - destruct Hlast as [-> ->]. exists []. split; [auto|].
      symmetry. apply app_nil_r. }
  destruct Hlast' as (last_events & Hlast' & Ht1).
  rewrite dealias_soundvolume_run in Hs.
  assert (Hsound : exists sound_events,
    match sounding_heights a, sounding_wind_speeds a, sounding_wind_direction a with
    | Some h, Some s, Some d =>
        exists success,
          create_soundvolume E vel (map (cast float32) h) (map (cast float32) s)
            (map (cast float32) d) (sign a) (max_shear a) = inr (success, sound) /\
          success <> 0 /\
          sound_events
          = [CallCreateSoundvolume vel (map (cast float32) h) (map (cast float32) s)
               (map (cast float32) d) (sign a) (max_shear a)]
    | _, _, _ => sound = None /\ sound_events = []
    end /\
    trace w2 = trace w1 ++ sound_events).
  { destruct (sounding_heights a) as [h|], (sounding_wind_speeds a) as [s|],
      (sounding_wind_direction a) as [d|];
      try (injection Hs as <- <-; exists []; split; [auto|symmetry; apply app_nil_r]).
    cbv zeta in Hs.
    destruct (create_soundvolume E vel _ _ _ (sign a) (max_shear a))
      as [e|[success sv]] eqn:Hcs; [discriminate Hs|].
    simpl fst in Hs. simpl snd in Hs.
    destruct (success =? 0) eqn:Hn; [discriminate Hs|].
    injection Hs as <- <-. eexists. split; [|reflexivity].
    exists success. split; [reflexivity|]. split; [|reflexivity].
    apply Z.eqb_neq, Hn. }
  destruct Hsound as (sound_events & Hsound & Ht2).
  exists g, l, o, arr, rays, vel0, last, last_events, sound, sound_events.
  do 6 (split; [assumption|]). cbv zeta. fold vel.
  split; [exact Hlast'|]. split; [exact Hsound|]. split.
  - destruct (debug a).
    + destruct (fourdd_dealias_debug E vel last sound (filt a) (kwargs a)) as [e|vols];
        [discriminate Hrun|].
      injection Hrun as <- _. eauto.
    + destruct (fourdd_dealias E vel last sound (filt a) (kwargs a)) as [e|[flag data]];
        [discriminate Hrun|].
      exists flag, data. split; [reflexivity|].
      rewrite (bind_ok (lift (inr (flag, data))) _ _ (flag, data) _ eq_refl) in Hrun.
      simpl snd in Hrun. rewrite <- Hw' in Hrun at 1. exact Hrun.
  - subst w'. simpl trace. rewrite Ht2, Ht1, Ht0. simpl trace.
    rewrite <- !app_assoc. reflexivity.
Qed.

(** X7. With [keep_original] and a field of the shape of the raw array, the
    output is there. A gate the engine left bad (NaN or the bad value) holds
    what the field of the radar stores there, any other gate its raw value,
    both in the promoted element type; the mask of a gate says whether that
    value equals the fill value, so a bad gate whose original is the fill
    value is masked. *)
Theorem dealias_output_keeps_original (a : Args) (data : ndarray) (w : world)
    (l : positive) (o : array) :
  keep_original a = true ->
  fields (radar a) !! vel_field_name E a = Some l ->
  heap w !! l = Some o ->
  shape (nd_data (getdata o)) = shape (nd_data data) ->
  let dt := promote_types (nd_dtype (getdata o)) (nd_dtype data) in
  let bad := cast (nd_dtype data) (rsl_badval a) in
  let fill := cast dt (get_fillvalue E) in
  exists vr_corr,
    dealias_output E a data w = (Ok (RetField vr_corr), w) /\
    nd_dtype (ma_data (fd_data vr_corr)) = dt /\
    fd_FillValue vr_corr = fill /\
    forall i j x, gate (nd_data data) i j = Some x ->
      exists v y m,
        gate (nd_data (getdata o)) i j = Some v /\
        gate (nd_data (ma_data (fd_data vr_corr))) i j = Some y /\
        gate (ma_mask (fd_data vr_corr)) i j = Some m /\
        y = cast dt (if Float.is_nan x || SFeqb x bad then v else x) /\
        m = SFeqb y fill /\
        (Float.is_nan x || SFeqb x bad = true ->
         SFeqb v (get_fillvalue E) = true -> m = true).
Proof.
  intros Hk Hf Ho Hs dt bad fill.
  rewrite (dealias_output_keep E a data w l o Hk Hf Ho).
  destruct (Np.where_ (is_bad_data data (rsl_badval a)) (getdata o) data)
    as [e|d] eqn:Hw.
  { exfalso. unfold Np.where_ in Hw.
    rewrite decide_True in Hw; [discriminate Hw|].
    split; [apply shape_is_bad_data|exact Hs]. }
  eexists. split; [reflexivity|].
  apply where_inr in Hw as (Hdt & Hg). simpl.
  split; [exact Hdt|]. split; [rewrite Hdt; reflexivity|].
  intros i j x Hx. destruct (Hg i j x Hx) as (b & v & Hb & Hv & Hy).
  rewrite gate_is_bad_data, Hx in Hb. simpl in Hb. injection Hb as <-.
  rewrite Hdt in Hy. fold dt in Hy. fold bad in Hy.
  exists v, (cast dt (if Float.is_nan x || SFeqb x bad then v else x)).
  eexists. split; [exact Hv|]. split; [exact Hy|]. split.
  { rewrite gate_equal, Hy, Hdt. reflexivity. }
  split; [reflexivity|]. split; [reflexivity|].
  intros -> Hfill. apply SFeqb_cast, Hfill.
Qed.

End MorePipelineFacts.

Lemma dealias_fourdd_missing_field_witness :
  fields (radar Sample.args_reflectivity) !! "reflectivity" = None /\
  dealias_fourdd Demo.collaborators Sample.args_reflectivity Demo.world1
  = (Raise (Exn KeyError "reflectivity"),
     World (heap Demo.world1) [CallParseGatefilter]).
Proof.
  split; [reflexivity|].
  apply (dealias_fourdd_missing_field Demo.collaborators Sample.args_reflectivity
           Demo.world1
           {| gate_excluded := [ [false; false; false]; [false; false; false] ] |}).
  - reflexivity.
  - right. discriminate.
  - vm_compute. reflexivity.
  - reflexivity.
Defined.

Lemma dealias_fourdd_call_order_witness :
  exists r w' arr rays arr' rays' vel0 last0,
    dealias_fourdd Demo.collaborators Sample.args_both Demo.world1 = (Ok r, w') /\
    prepared Demo.fill Demo.badval (Plain Demo.velocities)
      (Some [ [false; false; false]; [false; false; false] ]) = inr arr /\
    RslInterface.create_volume arr rays 1 = inr vel0 /\
    prepared Demo.fill Demo.badval (Plain Demo.velocities) None = inr arr' /\
    RslInterface.create_volume arr' rays' 1 = inr last0 /\
    let vel := RslInterface._label_volume vel0 Demo.radar1 in
    let last := Some (RslInterface._label_volume last0 Demo.radar1) in
    exists sound,
      trace w'
      = [CallParseGatefilter; CallCreateVolume arr rays 1; CallLabelVolume;
         CallCreateVolume arr' rays' 1; CallLabelVolume;
         CallCreateSoundvolume vel [cast float32 (Demo.v 1000)]
           [cast float32 (Demo.v 1000)] [cast float32 (Demo.v 1000)]
           1 (S754_zero false);
         CallFourddDealias vel last sound 1 false ∅].
Proof.
  destruct (dealias_fourdd Demo.collaborators Sample.args_both Demo.world1)
    as [[r|e] w'] eqn:Hrun; [|vm_compute in Hrun; discriminate Hrun].
  exists r, w'.
  assert (Hwf : forall lr l, last_radar Sample.args_both = Some lr ->
            fields lr !! last_vel_field_name Demo.collaborators Sample.args_both = Some l ->
            is_Some (heap Demo.world1 !! l)).
  { intros lr l [= <-] Hl. vm_compute in Hl. injection Hl as <-.
    eexists. reflexivity. }
  destruct (dealias_fourdd_call_order Demo.collaborators Sample.args_both
              Demo.world1 w' r Hwf Hrun)
    as (g & l & o & arr & rays & vel0 & last & last_events & sound & sound_events
        & Hg & Hf & Ho & Hp & Hrays & Hc & Hlast & Hsound & _ & Ht).
  cbv zeta in Hlast, Hsound, Ht.
  vm_compute in Hg. injection Hg as <-.
  vm_compute in Hf. injection Hf as <-.
  vm_compute in Ho. injection Ho as <-.
  destruct Hlast as (l' & o' & arr' & rays' & last0 & Hf' & Ho' & Hp' & _ & Hc' & -> & ->).
  vm_compute in Hf'. injection Hf' as <-.
  vm_compute in Ho'. injection Ho' as <-.
  destruct Hsound as (success & _ & _ & ->).
  exists arr, rays, arr', rays', vel0, last0. split; [reflexivity|].
  split; [exact Hp|]. split; [exact Hc|]. split; [exact Hp'|]. split; [exact Hc'|].
  cbv zeta. exists sound. rewrite Ht. reflexivity.
Defined.

Lemma dealias_output_keeps_original_witness :
  exists vr_corr,
    dealias_output Demo.collaborators Demo.args_keep Sample.raw Demo.world1
    = (Ok (RetField vr_corr), Demo.world1) /\
    nd_data (ma_data (fd_data vr_corr))
    = [ [Demo.v 3; S754_nan; Float.pos_inf]; [Demo.fill; Demo.v 2; Demo.v 4] ] /\
    ma_mask (fd_data vr_corr)
    = [ [false; false; false]; [true; false; false] ].
Proof.
  destruct (dealias_output_keeps_original Demo.collaborators Demo.args_keep
              Sample.raw Demo.world1 1%positive (Plain Demo.velocities)
              eq_refl eq_refl eq_refl eq_refl) as (vr_corr & Hrun & _).
  exists vr_corr. split; [exact Hrun|].
  vm_compute in Hrun. injection Hrun as <-. vm_compute. split; reflexivity.
Defined.

(* ===================================================================== *)
(** * The coordinate transform of a grid *)
(* ===================================================================== *)

Lemma is_str_true (x : GridIO.scalar) (s : string) :
  GridIO.is_str x s = true <-> x = GridIO.SStr s.
Proof.
  unfold GridIO.is_str. destruct x as [t| | |]; split;
    try discriminate; intros H.
  - apply bool_decide_eq_true in H. subst t. reflexivity.
  - injection H as ->. apply bool_decide_eq_true. reflexivity.
Qed.

(** The comparisons of lines 336-371 on a value that can be compared. *)
Lemma cdm_of_proj_inr (proj lat lon : GridIO.pyobj) r :
  GridIO.cdm_of_proj proj lat lon = inr r ->
  (exists sh, proj = GridIO.Array sh [] /\ r = None) \/
  (exists x, (proj = GridIO.Scalar x \/ exists sh, proj = GridIO.Array sh [x]) /\
     GridIO.cdm_of_proj (GridIO.Scalar x) lat lon = inr r).
Proof.
  destruct proj as [x|sh [|x [|y elems]]]; intros H.
  - right. exists x. auto.
  - left. exists sh. split; [reflexivity|].
    change (@inr GridIO.pyexc _ None = inr r) in H. injection H as <-. reflexivity.
  - right. exists x. split; [right; exists sh; reflexivity|]. exact H.
  - discriminate H.
Qed.

Lemma make_coordinatesystem_dict_inr (grid : GridIO.Grid) r :
  GridIO._make_coordinatesystem_dict grid = inr r ->
  exists lat_data lon_data lat lon proj,
    GridIO.origin_latitude grid !! "data" = Some lat_data /\
    GridIO.getitem0 lat_data = inr lat /\
    GridIO.origin_longitude grid !! "data" = Some lon_data /\
    GridIO.getitem0 lon_data = inr lon /\
    GridIO.projection grid !! "proj" = Some proj /\
    GridIO.cdm_of_proj proj lat lon = inr r.
Proof.
  unfold GridIO._make_coordinatesystem_dict, GridIO.getitem.
  destruct (GridIO.origin_latitude grid !! "data") as [a|]; [|discriminate].
  destruct (GridIO.getitem0 a) as [|lat] eqn:Ha; [discriminate|].
  destruct (GridIO.origin_longitude grid !! "data") as [b|]; [|discriminate].
  destruct (GridIO.getitem0 b) as [|lon] eqn:Hb; [discriminate|].
  destruct (GridIO.projection grid !! "proj") as [p|]; [|discriminate].
  intros H. exists a, b, lat, lon, p. auto 10.
Qed.

(** X8. When [_make_coordinatesystem_dict] returns, it returns a dictionary
    exactly when [projection['proj']] compares equal to one of the ten names
    it knows: when it is one of these strings, or a numpy array whose one
    element is one of them.  For any other value it returns for ('cea' and
    'merc' among them) the result is None. *)
Theorem make_coordinatesystem_dict_known (grid : GridIO.Grid)
    (r : option (gmap string GridIO.pyobj)) :
  GridIO._make_coordinatesystem_dict grid = inr r ->
  exists proj,
    GridIO.projection grid !! "proj" = Some proj /\
    (is_Some r <->
     exists s, s ∈ GridIO.known_proj /\
       (proj = GridIO.str s \/ exists sh, proj = GridIO.Array sh [GridIO.SStr s])).
Proof.
  intros H.
  apply make_coordinatesystem_dict_inr in H as (a & b & lat & lon & p & _ & _ & _ & _ & Hp & H).
  exists p. split; [exact Hp|].
  apply cdm_of_proj_inr in H as [(sh & -> & ->)|(x & Hx & H)].
  { split.
    - intros [? Hnone]. discriminate Hnone.
    - intros (s & _ & [Hs|[sh' Hs]]); discriminate Hs. }
  assert (Hiff : is_Some r <-> exists s, s ∈ GridIO.known_proj /\ x = GridIO.SStr s).
  { unfold GridIO.cdm_of_proj in H.
    cbn [GridIO.eq_str GridIO.if_ GridIO.in_strs] in H. split.
    - intros Hs.
      repeat (match type of H with
              | context [if GridIO.is_str x ?s then _ else _] =>
                  destruct (GridIO.is_str x s) eqn:?
              end; cbn [GridIO.if_] in H);
      apply (inj (@inr GridIO.pyexc (option (gmap string GridIO.pyobj)))) in H; subst r;
      try (match type of Hs with
           | is_Some None => destruct Hs as [? Hnone]; discriminate Hnone
           end);
      match goal with
      | Hc : GridIO.is_str x ?s = true |- _ =>
          apply is_str_true in Hc; exists s; split; [|exact Hc];
          unfold GridIO.known_proj;
          repeat first [apply list_elem_of_here | apply list_elem_of_further]
      end.
    - intros (s & Hs & ->). unfold GridIO.known_proj in Hs.
      repeat (apply elem_of_cons in Hs as [->|Hs];
        [repeat (match type of H with
           | context [if GridIO.is_str ?y ?s then _ else _] =>
               let b := eval vm_compute in (GridIO.is_str y s) in
               replace (GridIO.is_str y s) with b in H by (vm_compute; reflexivity)
           end; cbv iota in H; cbn [GridIO.if_] in H);
         apply (inj (@inr GridIO.pyexc (option (gmap string GridIO.pyobj)))) in H;
         subst r; eexists; reflexivity|]).
      apply elem_of_nil in Hs. destruct Hs. }
  rewrite Hiff. split.
  - intros (s & Hs & ->). exists s. split; [exact Hs|].
    destruct Hx as [->|[sh ->]]; [left; reflexivity|right; exists sh; reflexivity].
  - intros (s & Hs & Hp'). exists s. split; [exact Hs|].
    destruct Hx as [->|[sh ->]], Hp' as [Heq|[sh' Heq]];
      try discriminate Heq; injection Heq; auto.
Qed.

(** X9. A dictionary that [_make_coordinatesystem_dict] returns holds the
    first elements of the origin latitude and longitude as the origin of the
    projection, the transform type and the axes, and a grid mapping name; it
    has no ['data'] key. *)
Theorem make_coordinatesystem_dict_content (grid : GridIO.Grid)
    (d : gmap string GridIO.pyobj) :
  GridIO._make_coordinatesystem_dict grid = inr (Some d) ->
  exists lat_data lon_data lat lon,
    GridIO.origin_latitude grid !! "data" = Some lat_data /\
    GridIO.getitem0 lat_data = inr lat /\
    GridIO.origin_longitude grid !! "data" = Some lon_data /\
    GridIO.getitem0 lon_data = inr lon /\
    d !! "latitude_of_projection_origin" = Some lat /\
    d !! "longitude_of_projection_origin" = Some lon /\
    d !! "_CoordinateTransformType" = Some (GridIO.str "Projection") /\
    d !! "_CoordinateAxes" = Some (GridIO.str "x y z time") /\
    d !! "_CoordinateAxesTypes" = Some (GridIO.str "GeoX GeoY Height Time") /\
    (exists name, d !! "grid_mapping_name" = Some (GridIO.str name)) /\
    d !! "data" = None.
Proof.
  intros H.
  apply make_coordinatesystem_dict_inr in H
    as (a & b & lat & lon & p & Ha & Hlat & Hb & Hlon & _ & Hd).
  exists a, b, lat, lon. do 4 (split; [assumption|]).
  apply cdm_of_proj_inr in Hd as [(sh & _ & Hd)|(x & _ & Hd)]; [discriminate Hd|].
  unfold GridIO.cdm_of_proj in Hd.
  cbn [GridIO.eq_str GridIO.if_ GridIO.in_strs] in Hd.
  repeat (match type of Hd with
          | context [if GridIO.is_str x ?s then _ else _] =>
              destruct (GridIO.is_str x s)
          end; cbn [GridIO.if_] in Hd);
  apply (inj (@inr GridIO.pyexc (option (gmap string GridIO.pyobj)))) in Hd;
  match type of Hd with
  | None = Some _ => discriminate Hd
  | Some _ = Some _ => apply (inj Some) in Hd; subst d
  end;
  (do 5 (split; [vm_compute; reflexivity|]));
  (split; [eexists; vm_compute; reflexivity|vm_compute; reflexivity]).
Qed.

Lemma make_coordinatesystem_dict_known_witness :
  exists proj,
    GridIO.projection Sample.grid !! "proj" = Some proj /\
    (is_Some (Some Sample.transform) <->
     exists s, s ∈ GridIO.known_proj /\
       (proj = GridIO.str s \/ exists sh, proj = GridIO.Array sh [GridIO.SStr s])).
Proof.
  apply (make_coordinatesystem_dict_known Sample.grid (Some Sample.transform)).
  reflexivity.
Defined.

Lemma make_coordinatesystem_dict_content_witness :
  exists lat_data lon_data lat lon,
    GridIO.origin_latitude Sample.grid !! "data" = Some lat_data /\
    GridIO.getitem0 lat_data = inr lat /\
    GridIO.origin_longitude Sample.grid !! "data" = Some lon_data /\
    GridIO.getitem0 lon_data = inr lon /\
    Sample.transform !! "latitude_of_projection_origin" = Some lat /\
    Sample.transform !! "longitude_of_projection_origin" = Some lon /\
    Sample.transform !! "_CoordinateTransformType" = Some (GridIO.str "Projection") /\
    Sample.transform !! "_CoordinateAxes" = Some (GridIO.str "x y z time") /\
    Sample.transform !! "_CoordinateAxesTypes"
    = Some (GridIO.str "GeoX GeoY Height Time") /\
    (exists name, Sample.transform !! "grid_mapping_name" = Some (GridIO.str name)) /\
    Sample.transform !! "data" = None.
Proof.
  apply (make_coordinatesystem_dict_content Sample.grid Sample.transform).
  reflexivity.
Defined.

(* ===================================================================== *)
(** * Reading grids *)
(* ===================================================================== *)

Section ReadingFacts.

Import GridIO GridRead.

Variable V : Type.
Variable open_dataset : string -> pyexc + Dataset V.
Variable _ncvar_to_dict : V -> pyexc + gmap string pyobj.
Variable _test_arguments : gmap string pyobj -> pyexc + list string.
Variable G : Type.
Variable Grid_init : Grid -> pyexc + G.

Lemma bindR_inr {A B} (m : R A) (k : A -> R B) ev b :
  bindR m k = (ev, inr b) ->
  exists ev1 a ev2, m = (ev1, inr a) /\ k a = (ev2, inr b) /\ ev = ev1 ++ ev2.
Proof.
  unfold bindR. destruct m as [ev1 [e|a]]; [discriminate|].
  destruct (k a) as [ev2 r] eqn:Hk. intros H. injection H as <- ->.
  exists ev1, a, ev2. auto.
Qed.

Lemma liftR_inr {A} (r : pyexc + A) ev a :
  liftR r = (ev, inr a) -> r = inr a /\ ev = [].
Proof. unfold liftR. intros H. injection H as <- ->. auto. Qed.

Lemma retR_inr {A} (x : A) ev a : retR x = (ev, inr a) -> x = a /\ ev = [].
Proof. unfold retR. intros H. injection H as <- ->. auto. Qed.

Lemma read_variable_inr dset name ev d :
  read_variable V _ncvar_to_dict dset name = (ev, inr d) ->
  ev = [] /\ exists v, assoc name (variables dset) = Some v /\ _ncvar_to_dict v = inr d.
Proof.
  unfold read_variable. destruct (assoc name (variables dset)) as [v|]; intros H.
  - apply liftR_inr in H as [H ->]. eauto.
  - apply liftR_inr in H as [H _]. discriminate.
Qed.

Lemma read_optional_inr dset name ev o :
  read_optional V _ncvar_to_dict dset name = (ev, inr o) ->
  ev = [] /\
  match assoc name (variables dset) with
  | Some v => exists d, _ncvar_to_dict v = inr d /\ o = Some d
  | None => o = None
  end.
Proof.
  unfold read_optional. destruct (assoc name (variables dset)) as [v|]; intros H.
  - apply bindR_inr in H as (ev1 & d & ev2 & H1 & H2 & ->).
    apply liftR_inr in H1 as [H1 ->]. apply retR_inr in H2 as [<- ->]. eauto.
  - apply retR_inr in H as [<- ->]. auto.
Qed.

Lemma dimension_inr dset name ev n :
  dimension V dset name = (ev, inr n) ->
  ev = [] /\ assoc name (dimensions dset) = Some n.
Proof.
  unfold dimension. destruct (assoc name (dimensions dset)); intros H.
  - apply retR_inr in H as [<- ->]. auto.
  - apply liftR_inr in H as [H _]. discriminate.
Qed.

Lemma shape_of_inr data sh :
  shape_of data = inr sh -> exists elems, data = Array sh elems.
Proof. destruct data; simpl; [discriminate|]. intros H. injection H as <-. eauto. Qed.

(** One step of the loops over the field keys that was taken. *)
Lemma field_step_inr dset field ev (d0 : gmap string pyobj) data sh :
  (field_dic <~ read_variable V _ncvar_to_dict dset field ;;
   data <~ liftR (getitem field_dic "data") ;;
   sh <~ liftR (shape_of data) ;;
   (retR (field_dic, data, sh) : R _)) = (ev, inr (d0, data, sh)) ->
  ev = [] /\ exists v, assoc field (variables dset) = Some v /\
    _ncvar_to_dict v = inr d0 /\ d0 !! "data" = Some data /\
    shape_of data = inr sh.
Proof.
  intros H.
  apply bindR_inr in H as (ev1 & a & ev2 & H1 & H & ->).
  apply read_variable_inr in H1 as (-> & v & Hv & Hc).
  apply bindR_inr in H as (ev1 & a1 & ev3 & H1 & H & ->).
  apply liftR_inr in H1 as [H1 ->].
  apply bindR_inr in H as (ev1 & a2 & ev4 & H2 & H & ->).
  apply liftR_inr in H2 as [H2 ->].
  apply retR_inr in H as [H ->]. injection H as -> -> ->.
  split; [reflexivity|]. exists v. repeat split; try assumption.
  unfold getitem in H1. destruct (d0 !! "data"); [|discriminate].
  injection H1 as ->. reflexivity.
Qed.

Lemma taken_functional dset fs name d d' :
  taken V _ncvar_to_dict dset fs name d -> taken V _ncvar_to_dict dset fs name d' -> d = d'.
Proof.
  intros (v & d0 & el & Hv & Hc & Hd & ->) (v' & d0' & el' & Hv' & Hc' & Hd' & ->).
  congruence.
Qed.

Lemma taken_not_mis_shaped dset fs name d :
  taken V _ncvar_to_dict dset fs name d -> mis_shaped V _ncvar_to_dict dset fs name -> False.
Proof.
  intros (v & d0 & el & Hv & Hc & Hd & ->) (v' & d0' & sh & el' & Hv' & Hc' & Hd' & Hne).
  congruence.
Qed.

Lemma read_fields_inr dset ex fs keys acc ev fields :
  read_fields V _ncvar_to_dict dset ex fs keys acc = (ev, inr fields) ->
  (forall name d, fields !! name = Some d ->
     ((name ∈ keys) /\ (name ∉ ex) /\ taken V _ncvar_to_dict dset fs name d) \/ (acc !! name = Some d)) /\
  (forall name d, ((name ∈ keys) \/ (acc !! name = Some d)) -> name ∉ ex ->
     taken V _ncvar_to_dict dset fs name d -> fields !! name = Some d) /\
  (forall e, e ∈ ev <->
     exists name, e = Warn (skipped name) /\ (name ∈ keys) /\ (name ∉ ex) /\
       mis_shaped V _ncvar_to_dict dset fs name).
Proof.
  revert acc ev. induction keys as [|field rest IH]; intros acc ev H.
  - apply retR_inr in H as [<- ->]. split; [|split].
    + intros name d Hl. right. exact Hl.
    + intros name d [Hin|Hl] _ _; [inversion Hin|exact Hl].
    + intros e. split; [intros He; inversion He|].
      intros (name & _ & Hin & _). inversion Hin.
  - cbn [read_fields] in H. case_bool_decide as Hex.
    + apply IH in H as (Hs & Hc & Hw). split; [|split].
      * intros name d Hl. apply Hs in Hl as [(Hin & Hn & Ht)|Hl]; [left|right; exact Hl].
        split; [right; exact Hin|auto].
      * intros name d Hor Hn Ht. apply Hc; try assumption.
        destruct Hor as [Hin|Hl]; [|right; exact Hl].
        apply elem_of_cons in Hin as [->|Hin]; [contradiction|left; exact Hin].
      * intros e. rewrite Hw. split; intros (name & He & Hin & Hn & Hm);
          exists name; repeat split; try assumption.
        -- right. exact Hin.
        -- apply elem_of_cons in Hin as [->|Hin]; [contradiction|exact Hin].
    + apply bindR_inr in H as (ev1 & d0 & ev2 & H1 & H & ->).
      apply read_variable_inr in H1 as (-> & v & Hv & Hconv).
      apply bindR_inr in H as (ev1 & data & ev3 & H1 & H & ->).
      apply liftR_inr in H1 as [H1 ->].
      unfold getitem in H1. destruct (d0 !! "data") as [data'|] eqn:Hdata; [|discriminate].
      injection H1 as ->.
      apply bindR_inr in H as (ev1 & sh & ev4 & H2 & H & ->).
      apply liftR_inr in H2 as [H2 ->].
      apply shape_of_inr in H2 as [elems ->]. cbn [app] in *.
      destruct (decide (sh = 1%nat :: fs)) as [->|Hsh].
      * assert (Hgood : taken V _ncvar_to_dict dset fs field (<["data" := Array fs elems]> d0)).
        { exists v, d0, elems. auto. }
        cbn [with_shape] in H.
        apply IH in H as (Hs & Hc & Hw). split; [|split].
        -- intros name d Hl. apply Hs in Hl as [(Hin & Hn & Ht)|Hl].
           ++ left. split; [right; exact Hin|auto].
           ++ destruct (decide (name = field)) as [->|Hne].
              ** rewrite lookup_insert_eq in Hl. injection Hl as <-.
                 left. split; [left|]; auto.
              ** rewrite lookup_insert_ne in Hl by congruence. right. exact Hl.
        -- intros name d Hor Hn Ht. apply Hc; try assumption.
           destruct (decide (name = field)) as [->|Hne].
           ++ right. rewrite lookup_insert_eq. f_equal.
              eapply taken_functional; eassumption.
           ++ destruct Hor as [Hin|Hl].
              ** apply elem_of_cons in Hin as [->|Hin]; [contradiction|left; exact Hin].
              ** right. rewrite lookup_insert_ne by congruence. exact Hl.
        -- intros e. rewrite Hw. split; intros (name & He & Hin & Hn & Hm);
             exists name; repeat split; try assumption.
           ++ right. exact Hin.
           ++ apply elem_of_cons in Hin as [->|Hin]; [|exact Hin].
              exfalso. eapply taken_not_mis_shaped; eassumption.
      * assert (Hbad : mis_shaped V _ncvar_to_dict dset fs field).
        { exists v, d0, sh, elems. auto. }
        apply bindR_inr in H as (ev1 & [] & ev5 & H3 & H & ->).
        unfold emit in H3. injection H3 as <-.
        apply IH in H as (Hs & Hc & Hw). split; [|split].
        -- intros name d Hl. apply Hs in Hl as [(Hin & Hn & Ht)|Hl]; [left|right; exact Hl].
           split; [right; exact Hin|auto].
        -- intros name d Hor Hn Ht. apply Hc; try assumption.
           destruct Hor as [Hin|Hl]; [|right; exact Hl].
           apply elem_of_cons in Hin as [->|Hin]; [|left; exact Hin].
           exfalso. eapply taken_not_mis_shaped; eassumption.
        -- intros e. cbn [app]. rewrite elem_of_cons, Hw. split.
           ++ intros [->|(name & He & Hin & Hn & Hm)].
              ** exists field. repeat split; try assumption. left.
              ** exists name. repeat split; try assumption. right. exact Hin.
           ++ intros (name & He & Hin & Hn & Hm).
              apply elem_of_cons in Hin as [->|Hin]; [left; exact He|].
              right. exists name. auto.
Qed.


Lemma assoc_elem_of {A} (name : string) (l : list (string * A)) v :
  assoc name l = Some v -> name ∈ map fst l.
Proof.
  induction l as [|[k x] l IH]; [discriminate|]. cbn [assoc map fst].
  case_bool_decide as Hk; intros H.
  - subst k. left.
  - right. auto.
Qed.

Lemma parse_projection_inr (p0 p : gmap string pyobj) :
  parse_projection p0 = inr p ->
  is_Some (p0 !! "data") /\
  match p0 !! "_include_lon_0_lat_0" with
  | Some v => exists b, flag_of v = inr b /\
      p = <["_include_lon_0_lat_0" := Scalar (SBool b)]> (delete "data" p0)
  | None => p = delete "data" p0
  end.
Proof.
  unfold parse_projection, getitem. intros H.
  destruct (p0 !! "data") as [x|] eqn:Hdata; [|discriminate].
  split; [eauto|].
  rewrite lookup_delete_ne in H by discriminate.
  destruct (p0 !! "_include_lon_0_lat_0") as [f|].
  - destruct (flag_of f) as [e|b]; [discriminate|]. injection H as <-. eauto.
  - injection H as <-. reflexivity.
Qed.

Lemma read_projection_inr dset ev p :
  read_projection V _ncvar_to_dict dset = (ev, inr p) ->
  ev = [] /\ exists p0,
    converts V _ncvar_to_dict dset "projection" p0 /\
    parse_projection p0 = inr p.
Proof.
  unfold read_projection. intros H.
  apply bindR_inr in H as (ev1 & p0 & ev2 & H1 & H & ->).
  apply read_variable_inr in H1 as (-> & v & Hv & Hc).
  apply liftR_inr in H as [H ->].
  split; [reflexivity|]. exists p0. split; [exists v; auto|assumption].
Qed.

(** What a successful [read_grid] went through. *)
Lemma read_grid_inr filename ex kw ev g0 :
  read_grid V open_dataset _ncvar_to_dict _test_arguments G Grid_init filename ex kw
    = (ev, inr g0) ->
  exists g, Grid_init g = inr g0 /\ exists ws dset nz ny nx evf,
    _test_arguments kw = inr ws /\
    open_dataset filename = inr dset /\
    assoc "z" (dimensions dset) = Some nz /\
    assoc "y" (dimensions dset) = Some ny /\
    assoc "x" (dimensions dset) = Some nx /\
    read_projection V _ncvar_to_dict dset = ([], inr (projection g)) /\
    read_fields V _ncvar_to_dict dset (default [] ex) [nz; ny; nx]
      (filter (fun k => k ∉ reserved_variables) (map fst (variables dset))) ∅
      = (evf, inr (fields g)) /\
    ev = map Warn ws ++ evf ++ [Close] /\
    metadata g = dict_of (ncattrs dset) /\
    (converts V _ncvar_to_dict dset "time" (time g) /\
     converts V _ncvar_to_dict dset "origin_latitude" (origin_latitude g) /\
     converts V _ncvar_to_dict dset "origin_longitude" (origin_longitude g) /\
     converts V _ncvar_to_dict dset "origin_altitude" (origin_altitude g) /\
     converts V _ncvar_to_dict dset "x" (x g) /\
     converts V _ncvar_to_dict dset "y" (y g) /\
     converts V _ncvar_to_dict dset "z" (z g)) /\
    (read_optional V _ncvar_to_dict dset "radar_latitude" = ([], inr (radar_latitude g)) /\
     read_optional V _ncvar_to_dict dset "radar_longitude" = ([], inr (radar_longitude g)) /\
     read_optional V _ncvar_to_dict dset "radar_altitude" = ([], inr (radar_altitude g)) /\
     read_optional V _ncvar_to_dict dset "radar_name" = ([], inr (radar_name g)) /\
     read_optional V _ncvar_to_dict dset "radar_time" = ([], inr (radar_time g))).
Proof.
  unfold read_grid. intros H.
  apply bindR_inr in H as (? & ws & ? & H1 & H & ->).
  apply liftR_inr in H1 as [Hws ->].
  apply bindR_inr in H as (? & [] & ? & H1 & H & ->). injection H1 as <-.
  apply bindR_inr in H as (? & dset & ? & H1 & H & ->).
  apply liftR_inr in H1 as [Hopen ->].
  apply bindR_inr in H as (? & gtime & ? & H1 & H & ->).
  pose proof (read_variable_inr _ _ _ _ H1) as [-> Htime]. clear H1.
  apply bindR_inr in H as (? & gorlat & ? & H1 & H & ->).
  pose proof (read_variable_inr _ _ _ _ H1) as [-> Horlat]. clear H1.
  apply bindR_inr in H as (? & gorlon & ? & H1 & H & ->).
  pose proof (read_variable_inr _ _ _ _ H1) as [-> Horlon]. clear H1.
  apply bindR_inr in H as (? & goralt & ? & H1 & H & ->).
  pose proof (read_variable_inr _ _ _ _ H1) as [-> Horalt]. clear H1.
  apply bindR_inr in H as (? & gx & ? & H1 & H & ->).
  pose proof (read_variable_inr _ _ _ _ H1) as [-> Hx]. clear H1.
  apply bindR_inr in H as (? & gy & ? & H1 & H & ->).
  pose proof (read_variable_inr _ _ _ _ H1) as [-> Hy]. clear H1.
  apply bindR_inr in H as (? & gz & ? & H1 & H & ->).
  pose proof (read_variable_inr _ _ _ _ H1) as [-> Hz]. clear H1.
  apply bindR_inr in H as (? & gproj & ? & Hproj & H & ->).
  pose proof (read_projection_inr _ _ _ Hproj) as [-> _].
  apply bindR_inr in H as (? & nz & ? & H1 & H & ->).
  apply dimension_inr in H1 as [-> Hnz].
  apply bindR_inr in H as (? & ny & ? & H1 & H & ->).
  apply dimension_inr in H1 as [-> Hny].
  apply bindR_inr in H as (? & nx & ? & H1 & H & ->).
  apply dimension_inr in H1 as [-> Hnx].
  apply bindR_inr in H as (evf & gfields & ? & Hfields & H & ->).
  apply bindR_inr in H as (? & rlat & ? & Hrlat & H & ->).
  pose proof (read_optional_inr _ _ _ _ Hrlat) as [-> _].
  apply bindR_inr in H as (? & rlon & ? & Hrlon & H & ->).
  pose proof (read_optional_inr _ _ _ _ Hrlon) as [-> _].
  apply bindR_inr in H as (? & ralt & ? & Hralt & H & ->).
  pose proof (read_optional_inr _ _ _ _ Hralt) as [-> _].
  apply bindR_inr in H as (? & rname & ? & Hrname & H & ->).
  pose proof (read_optional_inr _ _ _ _ Hrname) as [-> _].
  apply bindR_inr in H as (? & rtime & ? & Hrtime & H & ->).
  pose proof (read_optional_inr _ _ _ _ Hrtime) as [-> _].
  apply bindR_inr in H as (? & [] & ? & H1 & H & ->). injection H1 as <-.
  apply liftR_inr in H as [Hg ->]. cbn [app].
  eexists. split; [exact Hg|].
  exists ws, dset, nz, ny, nx, evf. cbn.
  rewrite ?app_nil_r. repeat split; assumption.
Qed.

(** X10. The fields that [read_grid] gives to [Grid], when it returns what
    [Grid] made, are the variables of the file that are not reserved, not
    excluded and of the shape of the grid with a leading 1, reshaped. *)
Theorem read_grid_fields filename ex kw ev g0 :
  read_grid V open_dataset _ncvar_to_dict _test_arguments G Grid_init filename ex kw
    = (ev, inr g0) ->
  exists g, Grid_init g = inr g0 /\ exists dset nz ny nx,
    open_dataset filename = inr dset /\
    assoc "z" (dimensions dset) = Some nz /\
    assoc "y" (dimensions dset) = Some ny /\
    assoc "x" (dimensions dset) = Some nx /\
    forall name d,
      fields g !! name = Some d <->
      (name ∉ reserved_variables) /\ (name ∉ default [] ex) /\
      taken V _ncvar_to_dict dset [nz; ny; nx] name d.
Proof.
  intros H.
  apply read_grid_inr in H
    as (g & Hg & ws & dset & nz & ny & nx & evf
        & _ & Hopen & Hnz & Hny & Hnx & _ & Hf & _).
  exists g. split; [assumption|].
  exists dset, nz, ny, nx. do 4 (split; [assumption|]).
  apply read_fields_inr in Hf as (Hs & Hc & _).
  intros name d. split.
  - intros Hl. apply Hs in Hl as [(Hin & Hn & Ht)|Hl].
    + apply list_elem_of_filter in Hin as [Hres _]. auto.
    + rewrite lookup_empty in Hl. discriminate.
  - intros (Hres & Hn & Ht). apply Hc; try assumption.
    left. apply list_elem_of_filter. split; [assumption|].
    destruct Ht as (v & d0 & el & Hv & _). eapply assoc_elem_of. eassumption.
Qed.

(** X11. The events of a successful [read_grid]: the warnings of
    [_test_arguments], then one warning for each variable left out for its
    shape, then the closing of the file. *)
Theorem read_grid_warnings filename ex kw ev g0 :
  read_grid V open_dataset _ncvar_to_dict _test_arguments G Grid_init filename ex kw
    = (ev, inr g0) ->
  exists g, Grid_init g = inr g0 /\ exists ws dset nz ny nx skips,
    _test_arguments kw = inr ws /\
    open_dataset filename = inr dset /\
    assoc "z" (dimensions dset) = Some nz /\
    assoc "y" (dimensions dset) = Some ny /\
    assoc "x" (dimensions dset) = Some nx /\
    ev = map Warn ws ++ skips ++ [Close] /\
    forall e, e ∈ skips <->
      exists name, e = Warn (skipped name) /\
        (name ∉ reserved_variables) /\ (name ∉ default [] ex) /\
        mis_shaped V _ncvar_to_dict dset [nz; ny; nx] name.
Proof.
  intros H.
  apply read_grid_inr in H
    as (g & Hg & ws & dset & nz & ny & nx & evf
        & Hws & Hopen & Hnz & Hny & Hnx & _ & Hf & Hev & _).
  exists g. split; [assumption|].
  exists ws, dset, nz, ny, nx, evf. do 6 (split; [assumption|]).
  apply read_fields_inr in Hf as (_ & _ & Hw).
  intros e. rewrite Hw. split; intros (name & He & H1 & H2 & H3); exists name.
  - apply list_elem_of_filter in H1 as [Hres _]. auto.
  - repeat split; try assumption.
    apply list_elem_of_filter. split; [assumption|].
    destruct H3 as (v & d0 & sh & el & Hv & _). eapply assoc_elem_of. eassumption.
Qed.


Lemma flag_of_inr v b :
  flag_of v = inr b -> v = str (if b then "true" else "false").
Proof.
  unfold flag_of, str. destruct v as [[s| | |]|]; try discriminate.
  repeat case_bool_decide; intros Hb; try discriminate;
    injection Hb as <-; subst s; reflexivity.
Qed.

(** X12. The projection that [read_grid] gives to [Grid] is the file's
    projection variable without its data, with the flag for the origin turned
    from the strings true and false into a boolean. *)
Theorem read_grid_projection filename ex kw ev g0 :
  read_grid V open_dataset _ncvar_to_dict _test_arguments G Grid_init filename ex kw
    = (ev, inr g0) ->
  exists g, Grid_init g = inr g0 /\ exists dset p0,
    open_dataset filename = inr dset /\
    converts V _ncvar_to_dict dset "projection" p0 /\
    is_Some (p0 !! "data") /\
    projection g !! "data" = None /\
    (forall k : string, k <> "data" -> k <> "_include_lon_0_lat_0" ->
       projection g !! k = p0 !! k) /\
    match p0 !! "_include_lon_0_lat_0" with
    | Some v => exists b : bool,
        v = str (if b then "true" else "false") /\
        projection g !! "_include_lon_0_lat_0" = Some (Scalar (SBool b))
    | None => projection g !! "_include_lon_0_lat_0" = None
    end.
Proof.
  intros H.
  apply read_grid_inr in H
    as (g & Hg & ws & dset & nz & ny & nx & evf & _ & Hopen & _ & _ & _ & Hp & _).
  apply read_projection_inr in Hp as (_ & p0 & Hconv & Hp).
  apply parse_projection_inr in Hp as (Hdata & Hflag).
  exists g. split; [assumption|].
  exists dset, p0. do 3 (split; [assumption|]).
  destruct (p0 !! "_include_lon_0_lat_0") as [v|] eqn:Hv.
  - destruct Hflag as (b & Hb & ->). split; [|split].
    + rewrite lookup_insert_ne by discriminate. apply lookup_delete_eq.
    + intros k H1 H2. rewrite lookup_insert_ne by congruence.
      apply lookup_delete_ne. congruence.
    + exists b. split; [apply flag_of_inr; assumption|apply lookup_insert_eq].
  - rewrite Hflag. split; [|split].
    + apply lookup_delete_eq.
    + intros k H1 H2. apply lookup_delete_ne. congruence.
    + rewrite lookup_delete_ne by discriminate. assumption.
Qed.

(** X13. What [read_grid] gives to [Grid] besides the fields: the coordinates
    and the origin are the converted variables of these names, the metadata
    are the attributes of the file, and each description of the radars is
    there exactly when the file has the variable. *)
Theorem read_grid_variables filename ex kw ev g0 :
  read_grid V open_dataset _ncvar_to_dict _test_arguments G Grid_init filename ex kw
    = (ev, inr g0) ->
  exists g, Grid_init g = inr g0 /\ exists dset,
    open_dataset filename = inr dset /\
    metadata g = dict_of (ncattrs dset) /\
    converts V _ncvar_to_dict dset "time" (time g) /\
    converts V _ncvar_to_dict dset "origin_latitude" (origin_latitude g) /\
    converts V _ncvar_to_dict dset "origin_longitude" (origin_longitude g) /\
    converts V _ncvar_to_dict dset "origin_altitude" (origin_altitude g) /\
    converts V _ncvar_to_dict dset "x" (x g) /\
    converts V _ncvar_to_dict dset "y" (y g) /\
    converts V _ncvar_to_dict dset "z" (z g) /\
    forall name value,
      (name, value) ∈ [("radar_latitude", radar_latitude g);
                       ("radar_longitude", radar_longitude g);
                       ("radar_altitude", radar_altitude g);
                       ("radar_name", radar_name g);
                       ("radar_time", radar_time g)] ->
      match value with
      | Some d => converts V _ncvar_to_dict dset name d
      | None => assoc name (variables dset) = None
      end.
Proof.
  intros H.
  apply read_grid_inr in H
    as (g & Hg & ws & dset & nz & ny & nx & evf
        & _ & Hopen & _ & _ & _ & _ & _ & _ & Hmeta
        & (H1 & H2 & H3 & H4 & H5 & H6 & H7) & (R1 & R2 & R3 & R4 & R5)).
  exists g. split; [assumption|].
  exists dset. do 9 (split; [assumption|]).
  assert (Hopt : forall name value,
    read_optional V _ncvar_to_dict dset name = ([], inr value) ->
    match value with
    | Some d => converts V _ncvar_to_dict dset name d
    | None => assoc name (variables dset) = None
    end).
  { intros name value Hr. apply read_optional_inr in Hr as [_ Hr].
    destruct (assoc name (variables dset)) as [v|] eqn:Hv.
    - destruct Hr as (d & Hd & ->). exists v. auto.
    - subst value. reflexivity. }
  intros name value Hin.
  repeat (apply elem_of_cons in Hin as [Hin|Hin];
    [injection Hin as -> ->; apply Hopt; assumption|]).
  inversion Hin.
Qed.












(** ** [read_legacy_grid] *)

Lemma converts_functional dset name d d' :
  converts V _ncvar_to_dict dset name d ->
  converts V _ncvar_to_dict dset name d' -> d = d'.
Proof. intros (v & Hv & Hc) (v' & Hv' & Hc'). congruence. Qed.

Lemma read_axes_inr dset keys acc ev axes :
  read_axes V _ncvar_to_dict dset keys acc = (ev, inr axes) ->
  ev = [] /\
  (forall k d, axes !! k = Some d ->
     ((k ∈ keys) /\ converts V _ncvar_to_dict dset k d) \/ (acc !! k = Some d)) /\
  (forall k d, ((k ∈ keys) \/ (acc !! k = Some d)) ->
     converts V _ncvar_to_dict dset k d -> axes !! k = Some d).
Proof.
  revert acc ev. induction keys as [|key rest IH]; intros acc ev H.
  - apply retR_inr in H as [<- ->]. split; [reflexivity|]. split.
    + intros k d Hl. right. exact Hl.
    + intros k d [Hin|Hl] _; [inversion Hin|exact Hl].
  - cbn [read_axes] in H. destruct (assoc key (variables dset)) as [v|] eqn:Hv.
    + apply bindR_inr in H as (ev1 & d0 & ev2 & H1 & H & ->).
      apply liftR_inr in H1 as [Hc ->].
      assert (Hconv : converts V _ncvar_to_dict dset key d0) by (exists v; auto).
      apply IH in H as (-> & Hs & Hcm). split; [reflexivity|]. split.
      * intros k d Hl. apply Hs in Hl as [[Hin Hk]|Hl].
        -- left. split; [right; exact Hin|exact Hk].
        -- destruct (decide (k = key)) as [->|Hne].
           ++ rewrite lookup_insert_eq in Hl. injection Hl as <-.
              left. split; [left|exact Hconv].
           ++ rewrite lookup_insert_ne in Hl by congruence. right. exact Hl.
      * intros k d Hor Hk. apply Hcm; [|exact Hk].
        destruct (decide (k = key)) as [->|Hne].
        -- right. rewrite lookup_insert_eq. f_equal.
           eapply converts_functional; eassumption.
        -- destruct Hor as [Hin|Hl].
           ++ apply elem_of_cons in Hin as [->|Hin]; [contradiction|left; exact Hin].
           ++ right. rewrite lookup_insert_ne by congruence. exact Hl.
    + apply IH in H as (-> & Hs & Hcm). split; [reflexivity|]. split.
      * intros k d Hl. apply Hs in Hl as [[Hin Hk]|Hl]; [left|right; exact Hl].
        split; [right; exact Hin|exact Hk].
      * intros k d Hor Hk. apply Hcm; [|exact Hk].
        destruct Hor as [Hin|Hl]; [|right; exact Hl].
        apply elem_of_cons in Hin as [->|Hin]; [|left; exact Hin].
        destruct Hk as (v & Hv' & _). congruence.
Qed.

Lemma read_legacy_fields_inr dset fs keys acc ev fields :
  read_legacy_fields V _ncvar_to_dict dset fs keys acc = (ev, inr fields) ->
  ev = [] /\
  (forall name, name ∈ keys -> exists d, taken V _ncvar_to_dict dset fs name d) /\
  (forall name d, fields !! name = Some d ->
     ((name ∈ keys) /\ taken V _ncvar_to_dict dset fs name d) \/
     (acc !! name = Some d)) /\
  (forall name d, ((name ∈ keys) \/ (acc !! name = Some d)) ->
     taken V _ncvar_to_dict dset fs name d -> fields !! name = Some d).
Proof.
  revert acc ev. induction keys as [|field rest IH]; intros acc ev H.
  - apply retR_inr in H as [<- ->]. split; [reflexivity|]. split; [|split].
    + intros name Hin. inversion Hin.
    + intros name d Hl. right. exact Hl.
    + intros name d [Hin|Hl] _; [inversion Hin|exact Hl].
  - cbn [read_legacy_fields] in H.
    apply bindR_inr in H as (ev1 & d0 & ev2 & H1 & H & ->).
    apply read_variable_inr in H1 as (-> & v & Hv & Hconv).
    apply bindR_inr in H as (ev1 & data & ev3 & H1 & H & ->).
    apply liftR_inr in H1 as [H1 ->].
    unfold getitem in H1. destruct (d0 !! "data") as [data'|] eqn:Hdata; [|discriminate].
    injection H1 as ->.
    apply bindR_inr in H as (ev1 & sh & ev4 & H2 & H & ->).
    apply liftR_inr in H2 as [H2 ->].
    apply shape_of_inr in H2 as [elems ->]. cbn [app] in *.
    destruct (decide (sh = 1%nat :: fs)) as [->|Hsh];
      [|apply liftR_inr in H as [H _]; discriminate].
    assert (Hgood : taken V _ncvar_to_dict dset fs field (<["data" := Array fs elems]> d0)).
    { exists v, d0, elems. auto. }
    cbn [with_shape] in H.
    apply IH in H as (-> & Hall & Hs & Hc). split; [reflexivity|]. split; [|split].
    + intros name Hin. apply elem_of_cons in Hin as [->|Hin]; [eauto|auto].
    + intros name d Hl. apply Hs in Hl as [(Hin & Ht)|Hl].
      * left. split; [right; exact Hin|auto].
      * destruct (decide (name = field)) as [->|Hne].
        -- rewrite lookup_insert_eq in Hl. injection Hl as <-.
           left. split; [left|]; auto.
        -- rewrite lookup_insert_ne in Hl by congruence. right. exact Hl.
    + intros name d Hor Ht. apply Hc; try assumption.
      destruct (decide (name = field)) as [->|Hne].
      * right. rewrite lookup_insert_eq. f_equal.
        eapply taken_functional; eassumption.
      * destruct Hor as [Hin|Hl].
        -- apply elem_of_cons in Hin as [->|Hin]; [contradiction|left; exact Hin].
        -- right. rewrite lookup_insert_ne by congruence. exact Hl.
Qed.

(** What a successful [read_legacy_grid] went through. *)
Lemma read_legacy_grid_inr filename ex kw ev lg :
  read_legacy_grid V open_dataset _ncvar_to_dict _test_arguments filename ex kw
    = (ev, inr lg) ->
  exists ws dset,
    _test_arguments kw = inr ws /\
    open_dataset filename = inr dset /\
    read_axes V _ncvar_to_dict dset axes_keys ∅ = ([], inr (legacy_axes lg)) /\
    read_legacy_fields V _ncvar_to_dict dset
      (omap (fun k => assoc k (dimensions dset)) dim_keys)
      (filter (fun k => (k ∉ axes_keys) /\ (k ∉ default [] ex))
         (map fst (variables dset))) ∅
      = ([], inr (legacy_fields lg)) /\
    legacy_metadata lg = dict_of (ncattrs dset) /\
    ev = Warn "read_legacy_grid is depreciated and will be removed in a future version of Py-ART"
           :: map Warn ws ++ [Close].
Proof.
  unfold read_legacy_grid. intros H.
  apply bindR_inr in H as (? & [] & ? & H1 & H & ->). injection H1 as <-.
  apply bindR_inr in H as (? & ws & ? & H1 & H & ->).
  apply liftR_inr in H1 as [Hws ->].
  apply bindR_inr in H as (? & [] & ? & H1 & H & ->). injection H1 as <-.
  apply bindR_inr in H as (? & dset & ? & H1 & H & ->).
  apply liftR_inr in H1 as [Hopen ->].
  apply bindR_inr in H as (? & axes & ? & Haxes & H & ->).
  pose proof (read_axes_inr _ _ _ _ _ Haxes) as [-> _].
  apply bindR_inr in H as (? & fields & ? & Hfields & H & ->).
  pose proof (read_legacy_fields_inr _ _ _ _ _ _ Hfields) as [-> _].
  apply bindR_inr in H as (? & [] & ? & H1 & H & ->). injection H1 as <-.
  apply retR_inr in H as [<- ->].
  exists ws, dset. split; [exact Hws|]. split; [exact Hopen|].
  split; [exact Haxes|]. split; [exact Hfields|]. split; [reflexivity|].
  cbn [app]. reflexivity.
Qed.

(** X15. A legacy grid is returned only when every variable that is no axis
    and is not excluded has the shape of the grid with a leading 1: these
    variables, reshaped, are its fields, and no warning about a shape is
    given. *)
Theorem read_legacy_grid_fields filename ex kw ev lg :
  read_legacy_grid V open_dataset _ncvar_to_dict _test_arguments filename ex kw
    = (ev, inr lg) ->
  exists ws dset,
    _test_arguments kw = inr ws /\
    open_dataset filename = inr dset /\
    let field_shape := omap (fun k => assoc k (dimensions dset)) dim_keys in
    (forall name, name ∈ map fst (variables dset) ->
       name ∉ axes_keys -> name ∉ default [] ex ->
       exists d, taken V _ncvar_to_dict dset field_shape name d) /\
    (forall name d,
       legacy_fields lg !! name = Some d <->
       (name ∉ axes_keys) /\ (name ∉ default [] ex) /\
       taken V _ncvar_to_dict dset field_shape name d) /\
    ev = Warn "read_legacy_grid is depreciated and will be removed in a future version of Py-ART"
           :: map Warn ws ++ [Close].
Proof.
  intros H.
  apply read_legacy_grid_inr in H as (ws & dset & Hws & Hopen & _ & Hf & _ & Hev).
  exists ws, dset. do 2 (split; [assumption|]). intros fs.
  apply read_legacy_fields_inr in Hf as (_ & Hall & Hs & Hc).
  split; [|split; [|assumption]].
  - intros name Hin Hax Hex. apply Hall. apply list_elem_of_filter. auto.
  - intros name d. split.
    + intros Hl. apply Hs in Hl as [(Hin & Ht)|Hl].
      * apply list_elem_of_filter in Hin as [[Hax Hex] _]. auto.
      * rewrite lookup_empty in Hl. discriminate.
    + intros (Hax & Hex & Ht). apply Hc; [|assumption].
      left. apply list_elem_of_filter. split; [auto|].
      destruct Ht as (v & d0 & el & Hv & _). eapply assoc_elem_of. eassumption.
Qed.

(** X16. The axes of a legacy grid are the variables of the file with the name
    of an axis, and its metadata the attributes of the file. *)
Theorem read_legacy_grid_axes filename ex kw ev lg :
  read_legacy_grid V open_dataset _ncvar_to_dict _test_arguments filename ex kw
    = (ev, inr lg) ->
  exists dset,
    open_dataset filename = inr dset /\
    legacy_metadata lg = dict_of (ncattrs dset) /\
    forall k d,
      legacy_axes lg !! k = Some d <->
      (k ∈ axes_keys) /\ converts V _ncvar_to_dict dset k d.
Proof.
  intros H.
  apply read_legacy_grid_inr in H as (ws & dset & _ & Hopen & Ha & _ & Hm & _).
  exists dset. do 2 (split; [assumption|]).
  apply read_axes_inr in Ha as (_ & Hs & Hc).
  intros k d. split.
  - intros Hl. apply Hs in Hl as [Hl|Hl]; [exact Hl|].
    rewrite lookup_empty in Hl. discriminate.
  - intros [Hin Hk]. apply Hc; auto.
Qed.

Lemma read_axes_total dset keys acc :
  (forall name v, assoc name (variables dset) = Some v ->
     exists d0, _ncvar_to_dict v = inr d0) ->
  exists axes, read_axes V _ncvar_to_dict dset keys acc = ([], inr axes).
Proof.
  intros Hall. revert acc. induction keys as [|key rest IH]; intros acc.
  - exists acc. reflexivity.
  - cbn [read_axes]. destruct (assoc key (variables dset)) as [v|] eqn:Hv; [|apply IH].
    destruct (Hall _ _ Hv) as [d0 Hd]. rewrite Hd.
    destruct (IH (<[key := d0]> acc)) as [axes Ha]. exists axes.
    unfold bindR, liftR. rewrite Ha. reflexivity.
Qed.

Lemma read_legacy_fields_mis_shaped dset fs keys acc name :
  (forall name v, assoc name (variables dset) = Some v ->
     exists d0 sh elems, _ncvar_to_dict v = inr d0 /\
       d0 !! "data" = Some (Array sh elems)) ->
  (forall name, name ∈ keys -> is_Some (assoc name (variables dset))) ->
  name ∈ keys ->
  mis_shaped V _ncvar_to_dict dset fs name ->
  read_legacy_fields V _ncvar_to_dict dset fs keys acc
    = ([], inl (NameErr "warn")).
Proof.
  intros Hall Hkeys Hin Hbad. revert acc Hkeys Hin.
  induction keys as [|field rest IH]; intros acc Hkeys Hin; [inversion Hin|].
  cbn [read_legacy_fields]. unfold read_variable.
  destruct (Hkeys field) as [v Hv]; [left|]. rewrite Hv.
  destruct (Hall _ _ Hv) as (d0 & sh & el & Hc & Hd). rewrite Hc.
  unfold liftR at 1. cbn [bindR]. unfold getitem. rewrite Hd.
  unfold liftR at 1. cbn [bindR]. cbn [shape_of].
  unfold liftR at 1. cbn [bindR].
  destruct (decide (sh = 1%nat :: fs)) as [->|Hne].
  - apply elem_of_cons in Hin as [->|Hin].
    + exfalso. destruct Hbad as (v' & d0' & sh' & el' & Hv' & Hc' & Hd' & Hne).
      congruence.
    + rewrite IH; [reflexivity| |assumption].
      intros n Hn. apply Hkeys. right. exact Hn.
  - reflexivity.
Qed.

(** X17. A variable of another shape makes [read_legacy_grid] fail where
    [read_grid] warns: when the file opens and each of its variables converts
    to a dictionary with an array of data, one variable that is no axis, is
    not excluded and is mis-shaped gives NameError for the name warn, after
    the warnings of the start and with the file left open. *)
Theorem read_legacy_grid_mis_shaped filename ex kw ws dset name :
  _test_arguments kw = inr ws ->
  open_dataset filename = inr dset ->
  (forall name v, assoc name (variables dset) = Some v ->
     exists d0 sh elems, _ncvar_to_dict v = inr d0 /\
       d0 !! "data" = Some (Array sh elems)) ->
  name ∉ axes_keys -> name ∉ default [] ex ->
  mis_shaped V _ncvar_to_dict dset
    (omap (fun k => assoc k (dimensions dset)) dim_keys) name ->
  read_legacy_grid V open_dataset _ncvar_to_dict _test_arguments filename ex kw
    = (Warn "read_legacy_grid is depreciated and will be removed in a future version of Py-ART"
         :: map Warn ws, inl (NameErr "warn")).
Proof.
  intros Hws Hopen Hall Hax Hex Hbad.
  unfold read_legacy_grid. rewrite Hws, Hopen.
  destruct (read_axes_total dset axes_keys ∅) as [axes Ha].
  { intros n v Hv. destruct (Hall _ _ Hv) as (d0 & _ & _ & Hd & _). eauto. }
  cbn [emit liftR bindR]. rewrite Ha.
  rewrite (read_legacy_fields_mis_shaped dset _ _ ∅ name); try assumption.
  - cbn. rewrite ?app_nil_r. reflexivity.
  - intros n Hn. apply list_elem_of_filter in Hn as [_ Hn].
    clear -Hn. induction (variables dset) as [|[k x] l IH]; [inversion Hn|].
    cbn [assoc]. case_bool_decide; [eauto|].
    apply IH. cbn in Hn. apply elem_of_cons in Hn as [->|Hn]; [contradiction|exact Hn].
  - apply list_elem_of_filter. split; [auto|].
    destruct Hbad as (v & d0 & sh & el & Hv & _). eapply assoc_elem_of. eassumption.
Qed.

End ReadingFacts.

Lemma read_grid_fields_witness :
  exists g, Sample.new_grid g = inr Sample.grid /\ exists dset nz ny nx,
    Sample.open_dataset "grid.nc" = inr dset /\
    GridRead.assoc "z" (GridRead.dimensions dset) = Some nz /\
    GridRead.assoc "y" (GridRead.dimensions dset) = Some ny /\
    GridRead.assoc "x" (GridRead.dimensions dset) = Some nx /\
    forall name d,
      GridIO.fields g !! name = Some d <->
      (name ∉ GridRead.reserved_variables) /\ (name ∉ default [] None) /\
      GridRead.taken _ Sample.ncvar_to_dict dset [nz; ny; nx] name d.
Proof.
  apply (read_grid_fields _ Sample.open_dataset Sample.ncvar_to_dict
           Sample.test_arguments _ Sample.new_grid "grid.nc" None ∅
           [GridRead.Warn (GridRead.skipped "profile"); GridRead.Close]
           Sample.grid).
  reflexivity.
Defined.

Lemma read_grid_warnings_witness :
  exists g, Sample.new_grid g = inr Sample.grid /\ exists ws dset nz ny nx skips,
    Sample.test_arguments ∅ = inr ws /\
    Sample.open_dataset "grid.nc" = inr dset /\
    GridRead.assoc "z" (GridRead.dimensions dset) = Some nz /\
    GridRead.assoc "y" (GridRead.dimensions dset) = Some ny /\
    GridRead.assoc "x" (GridRead.dimensions dset) = Some nx /\
    [GridRead.Warn (GridRead.skipped "profile"); GridRead.Close]
    = map GridRead.Warn ws ++ skips ++ [GridRead.Close] /\
    forall e, e ∈ skips <->
      exists name, e = GridRead.Warn (GridRead.skipped name) /\
        (name ∉ GridRead.reserved_variables) /\ (name ∉ default [] None) /\
        GridRead.mis_shaped _ Sample.ncvar_to_dict dset [nz; ny; nx] name.
Proof.
  apply (read_grid_warnings _ Sample.open_dataset Sample.ncvar_to_dict
           Sample.test_arguments _ Sample.new_grid "grid.nc" None ∅
           [GridRead.Warn (GridRead.skipped "profile"); GridRead.Close]
           Sample.grid).
  reflexivity.
Defined.

Lemma read_grid_projection_witness :
  exists g, Sample.new_grid g = inr Sample.grid /\ exists dset p0,
    Sample.open_dataset "grid.nc" = inr dset /\
    GridRead.converts _ Sample.ncvar_to_dict dset "projection" p0 /\
    is_Some (p0 !! "data") /\
    GridIO.projection g !! "data" = None /\
    (forall k : string, k <> "data" -> k <> "_include_lon_0_lat_0" ->
       GridIO.projection g !! k = p0 !! k) /\
    match p0 !! "_include_lon_0_lat_0" with
    | Some v => exists b : bool,
        v = GridIO.str (if b then "true" else "false") /\
        GridIO.projection g !! "_include_lon_0_lat_0"
        = Some (GridIO.Scalar (GridIO.SBool b))
    | None => GridIO.projection g !! "_include_lon_0_lat_0" = None
    end.
Proof.
  apply (read_grid_projection _ Sample.open_dataset Sample.ncvar_to_dict
           Sample.test_arguments _ Sample.new_grid "grid.nc" None ∅
           [GridRead.Warn (GridRead.skipped "profile"); GridRead.Close]
           Sample.grid).
  reflexivity.
Defined.

Lemma read_grid_variables_witness :
  exists dset,
    Sample.open_dataset "grid.nc" = inr dset /\
    GridIO.metadata Sample.grid = GridRead.dict_of (GridRead.ncattrs dset) /\
    GridRead.converts _ Sample.ncvar_to_dict dset "time" (GridIO.time Sample.grid) /\
    GridRead.converts _ Sample.ncvar_to_dict dset "radar_name"
      {[ "data" := GridIO.Array [1; 4]%nat [GridIO.SStr "KVNX"] ]} /\
    GridRead.assoc "radar_time" (GridRead.variables dset) = None.
Proof.
  assert (Hrun : GridRead.read_grid _ Sample.open_dataset Sample.ncvar_to_dict
                   Sample.test_arguments _ Sample.new_grid "grid.nc" None ∅
                 = ([GridRead.Warn (GridRead.skipped "profile"); GridRead.Close],
                    inr Sample.grid)) by reflexivity.
  destruct (read_grid_variables _ Sample.open_dataset Sample.ncvar_to_dict
              Sample.test_arguments _ Sample.new_grid "grid.nc" None ∅ _ _ Hrun)
    as (g & [= ->] & dset & Hopen & Hmeta & Htime & _ & _ & _ & _ & _ & _ & Hradar).
  exists dset. do 3 (split; [assumption|]). split.
  - apply (Hradar "radar_name" (Some _)).
    do 3 apply list_elem_of_further. apply list_elem_of_here.
  - apply (Hradar "radar_time" None).
    do 4 apply list_elem_of_further. apply list_elem_of_here.
Defined.

Lemma read_legacy_grid_fields_witness :
  exists ws dset,
    Sample.test_arguments ∅ = inr ws /\
    Sample.open_dataset "legacy.nc" = inr dset /\
    let field_shape :=
      omap (fun k => GridRead.assoc k (GridRead.dimensions dset)) GridRead.dim_keys in
    (forall name, name ∈ map fst (GridRead.variables dset) ->
       name ∉ GridRead.axes_keys -> name ∉ default [] None ->
       exists d, GridRead.taken _ Sample.ncvar_to_dict dset field_shape name d) /\
    (forall name d,
       GridRead.legacy_fields Sample.legacy_grid !! name = Some d <->
       (name ∉ GridRead.axes_keys) /\ (name ∉ default [] None) /\
       GridRead.taken _ Sample.ncvar_to_dict dset field_shape name d) /\
    [GridRead.Warn "read_legacy_grid is depreciated and will be removed in a future version of Py-ART";
     GridRead.Close]
    = GridRead.Warn "read_legacy_grid is depreciated and will be removed in a future version of Py-ART"
        :: map GridRead.Warn ws ++ [GridRead.Close].
Proof.
  apply (read_legacy_grid_fields _ Sample.open_dataset Sample.ncvar_to_dict
           Sample.test_arguments "legacy.nc" None ∅ _ Sample.legacy_grid).
  reflexivity.
Defined.

Lemma read_legacy_grid_axes_witness :
  exists dset,
    Sample.open_dataset "legacy.nc" = inr dset /\
    GridRead.legacy_metadata Sample.legacy_grid
    = GridRead.dict_of (GridRead.ncattrs dset) /\
    forall k d,
      GridRead.legacy_axes Sample.legacy_grid !! k = Some d <->
      (k ∈ GridRead.axes_keys) /\ GridRead.converts _ Sample.ncvar_to_dict dset k d.
Proof.
  apply (read_legacy_grid_axes _ Sample.open_dataset Sample.ncvar_to_dict
           Sample.test_arguments "legacy.nc" None ∅
           [GridRead.Warn "read_legacy_grid is depreciated and will be removed in a future version of Py-ART";
            GridRead.Close]
           Sample.legacy_grid).
  reflexivity.
Defined.

Lemma read_legacy_grid_mis_shaped_witness :
  GridRead.read_legacy_grid _ Sample.open_dataset Sample.ncvar_to_dict
    Sample.test_arguments "grid.nc" None ∅
  = ([GridRead.Warn "read_legacy_grid is depreciated and will be removed in a future version of Py-ART"],
     inl (GridIO.NameErr "warn")).
Proof.
  apply (read_legacy_grid_mis_shaped _ Sample.open_dataset Sample.ncvar_to_dict
           Sample.test_arguments "grid.nc" None ∅ [] Sample.file "profile").
  - reflexivity.
  - reflexivity.
  - intros name v Hv. unfold Sample.ncvar_to_dict. cbn in Hv.
    repeat (case_bool_decide;
      [injection Hv as <-; eexists _, _, _; split; reflexivity|]).
    discriminate Hv.
  - refine (bool_decide_eq_true_1 _ _). reflexivity.
  - refine (bool_decide_eq_true_1 _ _). reflexivity.
  - exists {[ "data" := Sample.flat [2%nat] [1; 2] ]},
      {[ "data" := Sample.flat [2%nat] [1; 2] ]}, [2%nat],
      (map (fun z => GridIO.SFloat (Demo.v z)) [1; 2]).
    split; [reflexivity|]. split; [reflexivity|]. split; [reflexivity|].
    discriminate.
Defined.

(* ===================================================================== *)
(** * Writing grids *)
(* ===================================================================== *)

Section WritingFacts.

Import GridIO GridRead GridWrite.

Lemma flag_of_str_bool (b : bool) :
  flag_of (str (if b then "true" else "false")) = inr b.
Proof. destruct b; reflexivity. Qed.

(** X18. The projection goes through a file unchanged: what [write_grid]
    writes for a projection without data whose flag, if there is one, is a
    boolean, [read_grid] turns back into this projection. *)
Theorem written_projection_reads_back (p : gmap string pyobj) :
  p !! "data" = None ->
  (forall v, p !! "_include_lon_0_lat_0" = Some v ->
     exists b, v = Scalar (SBool b)) ->
  exists p', written_projection p = inr p' /\ parse_projection p' = inr p.
Proof.
  intros Hdata Hflag. unfold written_projection.
  rewrite lookup_insert_ne by discriminate.
  destruct (p !! "_include_lon_0_lat_0") as [v|] eqn:Hv.
  - destruct (Hflag v eq_refl) as [b ->]. cbn [index_false_true].
    eexists. split; [reflexivity|].
    unfold parse_projection, getitem.
    rewrite lookup_insert_ne by discriminate. rewrite lookup_insert_eq.
    rewrite delete_insert_ne by discriminate.
    rewrite delete_insert_id by exact Hdata.
    rewrite lookup_insert_eq, flag_of_str_bool.
    rewrite insert_insert_eq. rewrite insert_id by exact Hv. reflexivity.
  - eexists. split; [reflexivity|].
    unfold parse_projection, getitem. rewrite lookup_insert_eq.
    rewrite delete_insert_id by exact Hdata. rewrite Hv. reflexivity.
Qed.

(** X19. And a projection variable that [read_grid] takes is written back as
    it was in the file, with the integer 1 for its data. *)
Theorem parsed_projection_writes_back (p0 p : gmap string pyobj) :
  parse_projection p0 = inr p ->
  written_projection p = inr (<["data" := Array [] [SInt 1]]> p0).
Proof.
  intros H. apply parse_projection_inr in H as (_ & Hflag).
  unfold written_projection. rewrite lookup_insert_ne by discriminate.
  destruct (p0 !! "_include_lon_0_lat_0") as [v|] eqn:Hv.
  - destruct Hflag as (b & Hb & ->). apply flag_of_inr in Hb. subst v.
    rewrite lookup_insert_eq. cbn [index_false_true]. f_equal.
    apply map_eq. intros k.
    destruct (decide (k = "_include_lon_0_lat_0")) as [->|Hk1].
    { rewrite lookup_insert_eq, lookup_insert_ne by discriminate. auto. }
    rewrite lookup_insert_ne by congruence.
    destruct (decide (k = "data")) as [->|Hk2].
    { rewrite !lookup_insert_eq. reflexivity. }
    rewrite !lookup_insert_ne by congruence.
    apply lookup_delete_ne. congruence.
  - subst p. rewrite lookup_delete_ne by discriminate. rewrite Hv.
    f_equal. apply insert_delete_eq.
Qed.

Variable D : Type.
Variable _create_ncvar :
  D -> gmap string pyobj -> string -> list string ->
  D * gmap string pyobj * (pyexc + unit).

Lemma reshaped_cons (d : gmap string pyobj) :
  reshaped d (cons 1%nat)
  = match d !! "data" with
    | Some (Array sh elems) => inr (<["data" := Array (1%nat :: sh) elems]> d)
    | Some (Scalar _) => inl AttributeErr
    | None => inl (KeyErr (str "data"))
    end.
Proof.
  unfold reshaped, getitem.
  destruct (d !! "data") as [[x|sh elems]|]; try reflexivity.
  cbn [shape_of set_shape].
  destruct (decide _) as [_|Hn]; [reflexivity|].
  exfalso. apply Hn. unfold size_of. cbn [foldr]. apply Nat.mul_1_l.
Qed.

Lemma reshaped_tail (d : gmap string pyobj) sh elems :
  d !! "data" = Some (Array (1%nat :: sh) elems) ->
  reshaped d tail = inr (<["data" := Array sh elems]> d).
Proof.
  intros Hd. unfold reshaped, getitem. rewrite Hd.
  cbn [shape_of set_shape tail].
  destruct (decide _) as [_|Hn]; [reflexivity|].
  exfalso. apply Hn. unfold size_of. cbn [foldr]. symmetry. apply Nat.mul_1_l.
Qed.

(** One field, when [_create_ncvar] leaves the data alone. *)
Lemma write_field_outcome dset field d dset' d' r :
  (forall dset dic name dims dset' dic' r,
     _create_ncvar dset dic name dims = (dset', dic', r) ->
     dic' !! "data" = dic !! "data") ->
  write_field D _create_ncvar dset field d = (dset', d', r) ->
  match d !! "data" with
  | Some (Array sh elems) =>
      exists d1 r1,
        _create_ncvar dset (<["data" := Array (1%nat :: sh) elems]> d) field
          ["time"; "z"; "y"; "x"] = (dset', d1, r1) /\
        match r1 with
        | inl e => d' = d1 /\ r = inl e
        | inr _ => d' = <["data" := Array sh elems]> d1 /\ r = inr tt
        end
  | Some (Scalar _) => dset' = dset /\ d' = d /\ r = inl AttributeErr
  | None => dset' = dset /\ d' = d /\ r = inl (KeyErr (str "data"))
  end.
Proof.
  intros Hframe. unfold write_field. rewrite reshaped_cons.
  destruct (d !! "data") as [[x|sh elems]|] eqn:Hd.
  - intros [= <- <- <-]. auto.
  - destruct (_create_ncvar dset _ field _) as [[ds d1] [e|u]] eqn:Hc.
    + intros [= <- <- <-]. exists d1, (inl e). auto.
    + pose proof (Hframe _ _ _ _ _ _ _ Hc) as Hd1.
      rewrite lookup_insert_eq in Hd1.
      rewrite (reshaped_tail _ _ _ Hd1). intros [= <- <- <-].
      exists d1, (inr u). auto.
  - intros [= <- <- <-]. auto.
Qed.

(** X20. The shapes of the fields after [write_grid] has gone through them,
    for a [_create_ncvar] that leaves the data of a dictionary alone,
    whatever else it writes into it.  When the loop ends, each field has its
    data in the shape they had, and the rest of its dictionary as
    [_create_ncvar] left it.  When the loop is left by an exception, the
    fields before the one that was being written are as after a loop that
    ends and the fields after it are as they were; the field itself has no
    data, or data without a shape, and is as it was, or [_create_ncvar] has
    raised and the field keeps the leading 1 in the shape of its data. *)
Theorem write_fields_shapes dset (items : list (string * gmap string pyobj))
    dset' items' (r : pyexc + unit) :
  (forall dset dic name dims dset' dic' r,
     _create_ncvar dset dic name dims = (dset', dic', r) ->
     dic' !! "data" = dic !! "data") ->
  write_fields D _create_ncvar dset items = (dset', items', r) ->
  let written (x y : string * gmap string pyobj) :=
    y.1 = x.1 /\ y.2 !! "data" = x.2 !! "data" /\
    exists sh elems ds ds' d1,
      x.2 !! "data" = Some (Array sh elems) /\
      _create_ncvar ds (<["data" := Array (1%nat :: sh) elems]> x.2) x.1
        ["time"; "z"; "y"; "x"] = (ds', d1, inr tt) /\
      y.2 = <["data" := Array sh elems]> d1 in
  match r with
  | inr _ => Forall2 written items items'
  | inl e =>
      exists done done' field d d' rest,
        items = done ++ (field, d) :: rest /\
        items' = done' ++ (field, d') :: rest /\
        Forall2 written done done' /\
        match d !! "data" with
        | Some (Array sh elems) =>
            d' !! "data" = Some (Array (1%nat :: sh) elems) /\
            exists ds ds',
              _create_ncvar ds (<["data" := Array (1%nat :: sh) elems]> d) field
                ["time"; "z"; "y"; "x"] = (ds', d', inl e)
        | Some (Scalar _) => d' = d /\ e = AttributeErr
        | None => d' = d /\ e = KeyErr (str "data")
        end
  end.
Proof.
  intros Hframe H written. revert dset dset' items' r H.
  induction items as [|[field d] rest IH]; intros dset dset' items' r H.
  - injection H as <- <- <-. constructor.
  - cbn [write_fields] in H.
    destruct (write_field D _create_ncvar dset field d) as [[ds1 d1] r1] eqn:Hf.
    pose proof (write_field_outcome _ _ _ _ _ _ Hframe Hf) as Ho.
    destruct r1 as [e|u].
    + injection H as <- <- <-. exists [], [], field, d, d1, rest.
      split; [reflexivity|]. split; [reflexivity|]. split; [constructor|].
      destruct (d !! "data") as [[x|sh elems]|] eqn:Hd.
      * destruct Ho as (_ & -> & [= ->]). auto.
      * destruct Ho as (d2 & [e2|u2] & Hc & Hd2 & Hr); [|discriminate Hr].
        injection Hr as ->. subst d2. split; [|eauto].
        rewrite (Hframe _ _ _ _ _ _ _ Hc). apply lookup_insert_eq.
      * destruct Ho as (_ & -> & [= ->]). auto.
    + assert (Hw : written (field, d) (field, d1)).
      { destruct (d !! "data") as [[x|sh elems]|] eqn:Hd;
          [destruct Ho as (_ & _ & Hr); discriminate Hr| |
           destruct Ho as (_ & _ & Hr); discriminate Hr].
        destruct Ho as (d2 & [e2|u2] & Hc & Hd2 & Hr); [discriminate Hr|].
        subst d1. split; [reflexivity|]. cbn [fst snd].
        split; [rewrite lookup_insert_eq; symmetry; exact Hd|].
        exists sh, elems, dset, ds1, d2. destruct u2. auto. }
      destruct (write_fields D _create_ncvar ds1 rest) as [[ds2 rest'] r'] eqn:Hrest.
      injection H as <- <- <-. specialize (IH _ _ _ _ Hrest).
      destruct r' as [e|u'].
      * destruct IH as (done & done' & f & d0 & d' & post & -> & -> & Hdone & Hd).
        exists ((field, d) :: done), ((field, d1) :: done'), f, d0, d', post.
        split; [reflexivity|]. split; [reflexivity|].
        split; [constructor; assumption|exact Hd].
      * constructor; assumption.
Qed.

End WritingFacts.

Lemma written_projection_reads_back_witness :
  exists p',
    GridWrite.written_projection (GridIO.projection Sample.grid) = inr p' /\
    GridRead.parse_projection p' = inr (GridIO.projection Sample.grid).
Proof.
  apply (written_projection_reads_back (GridIO.projection Sample.grid)).
  - reflexivity.
  - intros v Hv. exists true. apply (inj Some). rewrite <- Hv. reflexivity.
Defined.

Lemma parsed_projection_writes_back_witness :
  GridWrite.written_projection (GridIO.projection Sample.grid)
  = inr (<["data" := GridIO.Array [] [GridIO.SInt 1]]>
           {[ "data" := GridIO.Array [] [GridIO.SInt 1];
              "proj" := GridIO.str "pyart_aeqd";
              "_include_lon_0_lat_0" := GridIO.str "true" ]}).
Proof.
  apply (parsed_projection_writes_back _ (GridIO.projection Sample.grid)).
  reflexivity.
Defined.

Lemma write_fields_shapes_witness :
  (forall (dset : nat) dic name dims dset' dic' r,
     Sample.create_ncvar dset dic name dims = (dset', dic', r) ->
     dic' !! "data" = dic !! "data") /\
  exists done done' field d d' rest,
    Sample.items = done ++ (field, d) :: rest /\
    snd (fst (GridWrite.write_fields _ Sample.create_ncvar 0%nat Sample.items))
    = done' ++ (field, d') :: rest /\
    Forall2 (fun x y : string * gmap string GridIO.pyobj =>
      y.1 = x.1 /\ y.2 !! "data" = x.2 !! "data" /\
      exists sh elems (ds ds' : nat) d1,
        x.2 !! "data" = Some (GridIO.Array sh elems) /\
        Sample.create_ncvar ds (<["data" := GridIO.Array (1%nat :: sh) elems]> x.2)
          x.1 ["time"; "z"; "y"; "x"] = (ds', d1, inr tt) /\
        y.2 = <["data" := GridIO.Array sh elems]> d1) done done' /\
    match d !! "data" with
    | Some (GridIO.Array sh elems) =>
        d' !! "data" = Some (GridIO.Array (1%nat :: sh) elems) /\
        exists ds ds' : nat,
          Sample.create_ncvar ds (<["data" := GridIO.Array (1%nat :: sh) elems]> d)
            field ["time"; "z"; "y"; "x"]
          = (ds', d', inl (GridIO.Other "too large"))
    | Some (GridIO.Scalar _) => d' = d /\ GridIO.Other "too large" = GridIO.AttributeErr
    | None => d' = d /\ GridIO.Other "too large" = GridIO.KeyErr (GridIO.str "data")
    end.
Proof.
  assert (Hframe : forall (dset : nat) dic name dims dset' dic' r,
    Sample.create_ncvar dset dic name dims = (dset', dic', r) ->
    dic' !! "data" = dic !! "data").
  { intros dset dic name dims dset' dic' r. unfold Sample.create_ncvar.
    destruct (dic !! "data") as [[x|sh elems]|] eqn:Hd;
      [|destruct (length elems <=? 2)%nat|]; intros [= <- <- <-];
      try exact Hd.
    rewrite lookup_insert_ne by discriminate. exact Hd. }
  split; [exact Hframe|].
  apply (write_fields_shapes _ Sample.create_ncvar 0%nat Sample.items
           1%nat
           (snd (fst (GridWrite.write_fields _ Sample.create_ncvar 0%nat
                        Sample.items)))
           (inl (GridIO.Other "too large")) Hframe).
  reflexivity.
Defined.

(* ===================================================================== *)
(** * What has no part in the result *)
(* ===================================================================== *)

Section Independence.

Variable E : Collaborators.

Lemma bind_ext {A B} (m : M A) (k k' : A -> M B) (w : world) :
  (forall x w', k x w' = k' x w') -> bind m k w = bind m k' w.
Proof.
  intros Hk. unfold bind. destruct (m w) as [[x|e] w']; [apply Hk|reflexivity].
Qed.

(** X21. The flag that the engine returns beside the data is not looked at:
    with an engine that reports another flag and returns the same data, the
    call comes to the same result and the same world. *)
Theorem dealias_fourdd_ignores_flag (flag : Z) (a : Args) (w : world) :
  dealias_fourdd (with_flag E flag) a w = dealias_fourdd E a w.
Proof.
  unfold dealias_fourdd.
  change (_FOURDD_AVAILABLE (with_flag E flag)) with (_FOURDD_AVAILABLE E).
  destruct (negb (_FOURDD_AVAILABLE E)); [reflexivity|].
  destruct (negb (sounding_available a) && bool_decide (last_radar a = None));
    [reflexivity|].
  change (dealias_volumes (with_flag E flag) a) with (dealias_volumes E a).
  apply bind_ext. intros vols w1.
  change (dealias_soundvolume (with_flag E flag) a (fst vols))
    with (dealias_soundvolume E a (fst vols)).
  apply bind_ext. intros sound w2.
  apply bind_ext. intros _ w3.
  destruct (debug a); [reflexivity|].
  unfold bind, lift. cbn [fourdd_dealias with_flag].
  destruct (fourdd_dealias E (fst vols) (snd vols) sound (filt a) (kwargs a))
    as [e|[fl data]]; reflexivity.
Qed.

(** X22. With [debug], [keep_original] and [corr_vel_field] have no part in
    the call, and what is returned is the volumes of the engine, not a field. *)
Theorem dealias_fourdd_debug_returns_volumes (a : Args) (w : world)
    (keep : bool) (corr : option string) :
  debug a = true ->
  dealias_fourdd E (with_output_options a keep corr) w = dealias_fourdd E a w /\
  forall r w', dealias_fourdd E a w = (Ok r, w') ->
    exists vel last sound vols,
      fourdd_dealias_debug E vel last sound (filt a) (kwargs a) = inr vols /\
      r = RetDebug vols.
Proof.
  intros Hd. split.
  - unfold dealias_fourdd.
    change (sounding_available (with_output_options a keep corr))
      with (sounding_available a).
    change (last_radar (with_output_options a keep corr)) with (last_radar a).
    destruct (negb (_FOURDD_AVAILABLE E)); [reflexivity|].
    destruct (negb (sounding_available a) && bool_decide (last_radar a = None));
      [reflexivity|].
    change (dealias_volumes E (with_output_options a keep corr))
      with (dealias_volumes E a).
    apply bind_ext. intros vols w1.
    change (dealias_soundvolume E (with_output_options a keep corr) (fst vols))
      with (dealias_soundvolume E a (fst vols)).
    apply bind_ext. intros sound w2.
    apply bind_ext. intros _ w3.
    change (debug (with_output_options a keep corr)) with (debug a).
    rewrite Hd. reflexivity.
  - intros r w' Hrun. unfold dealias_fourdd in Hrun.
    destruct (negb (_FOURDD_AVAILABLE E)); [discriminate Hrun|].
    destruct (negb (sounding_available a) && bool_decide (last_radar a = None));
      [discriminate Hrun|].
    apply bind_inv in Hrun as [([vel last] & w1 & _ & Hrun)|(e & _ & He)];
      [|discriminate He].
    apply bind_inv in Hrun as [(sound & w2 & _ & Hrun)|(e & _ & He)];
      [|discriminate He].
    unfold bind at 1, log at 1 in Hrun. cbv beta iota in Hrun.
    rewrite Hd in Hrun. unfold bind, lift, ret in Hrun.
    cbn [fst snd] in Hrun.
    destruct (fourdd_dealias_debug E vel last sound (filt a) (kwargs a))
      as [e|vols] eqn:Hv; [discriminate Hrun|].
    injection Hrun as <- _. exists vel, last, sound, vols. auto.
Qed.

End Independence.

Lemma dealias_fourdd_debug_returns_volumes_witness :
  debug Sample.args_debug = true /\
  dealias_fourdd Demo.collaborators
    (with_output_options Sample.args_debug true (Some "unfolded")) Demo.world1
  = dealias_fourdd Demo.collaborators Sample.args_debug Demo.world1.
Proof.
  split; [reflexivity|].
  apply (dealias_fourdd_debug_returns_volumes Demo.collaborators Sample.args_debug
           Demo.world1 true (Some "unfolded")).
  reflexivity.
Defined.
